(** * The WhatsApp visit-documentation bot ([whatsapp_monitor.js])

    A shallow embedding of the conversation logic of the monitor: the
    per-user session record, the PIN check, the media store, the hand-off to
    the extraction API and the report formatter, followed by the properties
    of the bot's behaviour that are checked against it.

    JavaScript strings are sequences of UTF-16 code units; they are modelled
    as lists of code units so that [trim], [toLowerCase], the regular
    expression of [isValidPin] and [===] act on what the program sees. *)

From Stdlib Require Import NArith ZArith List Bool String Ascii Lia.
From stdpp Require Import base option list gmap.

Import ListNotations.
Local Open Scope N_scope.

(** ** JavaScript strings *)

Module Js.

(** A string value: its UTF-16 code units. *)
Abbreviation jsstring := (list N).

Definition hex_digit (b : N) : N :=
  if (48 <=? b) && (b <=? 57) then b - 48
  else if (97 <=? b) && (b <=? 102) then b - 87
  else if (65 <=? b) && (b <=? 70) then b - 55
  else 0.

(** The code points written by a source literal given as UTF-8 bytes.  The two
    escapes the monitor's literals need are read as JavaScript reads them:
    backslash-n is a line feed and backslash-x followed by two hexadecimal
    digits is that code unit (the double quote is written with it). *)
Fixpoint code_points (bs : list N) : list N :=
  match bs with
  | [] => []
  | b0 :: r0 =>
    if b0 =? 92 then
      match r0 with
      | b1 :: r1 =>
        if b1 =? 110 then 10 :: code_points r1
        else if b1 =? 120 then
          match r1 with
          | h1 :: h2 :: r3 => (16 * hex_digit h1 + hex_digit h2) :: code_points r3
          | _ => []
          end
        else b1 :: code_points r1
      | [] => []
      end
    else if b0 <? 128 then b0 :: code_points r0
    else if b0 <? 224 then
      match r0 with
      | b1 :: r1 => ((b0 - 192) * 64 + (b1 - 128)) :: code_points r1
      | _ => []
      end
    else if b0 <? 240 then
      match r0 with
      | b1 :: b2 :: r2 =>
        ((b0 - 224) * 4096 + (b1 - 128) * 64 + (b2 - 128)) :: code_points r2
      | _ => []
      end
    else
      match r0 with
      | b1 :: b2 :: b3 :: r3 =>
        ((b0 - 240) * 262144 + (b1 - 128) * 4096 + (b2 - 128) * 64 + (b3 - 128))
          :: code_points r3
      | _ => []
      end
  end.

(** UTF-16: a code point above the basic plane is a surrogate pair. *)
Definition code_units (cp : N) : list N :=
  if cp <? 65536 then [cp]
  else [55296 + (cp - 65536) / 1024; 56320 + (cp - 65536) mod 1024].

(** [js "..."] is the string value of a source literal. *)
Definition js (s : string) : jsstring :=
  flat_map code_units (code_points (map N_of_ascii (list_ascii_of_string s))).
Arguments js s%_string : simpl never.

(** [s === t] on strings. *)
Definition str_eq (s t : jsstring) : bool := bool_decide (s = t).

(** A string is truthy when it is not empty. *)
Definition truthy (s : jsstring) : bool :=
  match s with [] => false | _ :: _ => true end.

(** ECMAScript WhiteSpace and LineTerminator code points, which
    [String.prototype.trim] strips; all of them are single code units. *)
Definition isWhiteSpace (c : N) : bool :=
  (c =? 9) || (c =? 10) || (c =? 11) || (c =? 12) || (c =? 13) || (c =? 32)
  || (c =? 160) || (c =? 5760) || ((8192 <=? c) && (c <=? 8202))
  || (c =? 8232) || (c =? 8233) || (c =? 8239) || (c =? 8287)
  || (c =? 12288) || (c =? 65279).

Fixpoint trimStart (s : jsstring) : jsstring :=
  match s with
  | c :: r => if isWhiteSpace c then trimStart r else s
  | [] => []
  end.

Definition trimEnd (s : jsstring) : jsstring := rev (trimStart (rev s)).

Definition trim (s : jsstring) : jsstring := trimEnd (trimStart s).

(** [toLowerCase] on the code units the monitor can tell apart.  ECMAScript
    lowercases through the Unicode case tables; the only use in the monitor
    compares the result with the literals 0 and sair, and no code point
    outside A-Z lowercases to one of their letters, so the Basic Latin and
    Latin-1 capitals are mapped and every other unit is kept. *)
Definition lower (c : N) : N :=
  if (65 <=? c) && (c <=? 90) then c + 32
  else if (192 <=? c) && (c <=? 222) && negb (c =? 215) then c + 32
  else c.

Definition toLowerCase (s : jsstring) : jsstring := map lower s.

(** The class [\d] of a regular expression without the unicode flag. *)
Definition isDigit (c : N) : bool := (48 <=? c) && (c <=? 57).

(** [String(n)] for an integer. *)
Fixpoint digits (fuel : nat) (n : N) (acc : jsstring) : jsstring :=
  match fuel with
  | O => acc
  | S fuel' =>
    let acc' := (48 + n mod 10) :: acc in
    if n <? 10 then acc' else digits fuel' (n / 10) acc'
  end.

Definition decimal (z : Z) : jsstring :=
  let n := Z.abs_N z in
  let ds := digits (S (N.to_nat (N.log2 n))) n [] in
  if (z <? 0)%Z then 45 :: ds else ds.

(** [s.split('/')[1]]: the text between the first and the second slash, when
    the string has a slash at all. *)
Fixpoint upto_slash (s : jsstring) : jsstring :=
  match s with
  | [] => []
  | c :: r => if c =? 47 then [] else c :: upto_slash r
  end.

Fixpoint split_slash_1 (s : jsstring) : option jsstring :=
  match s with
  | [] => None
  | c :: r => if c =? 47 then Some (upto_slash r) else split_slash_1 r
  end.

(** [s.includes(sub)]. *)
Fixpoint starts_with (sub s : jsstring) : bool :=
  match sub, s with
  | [], _ => true
  | c :: sub', d :: s' => (c =? d) && starts_with sub' s'
  | _ :: _, [] => false
  end.

Fixpoint includes (s sub : jsstring) : bool :=
  starts_with sub s
  || match s with
     | [] => false
     | _ :: s' => includes s' sub
     end.

End Js.
Export Js.

(** ** The PIN check *)

(** [\d{n}] at the head of [s]: what is left of [s] after [n] digits. *)
Fixpoint digits_exactly (n : nat) (s : jsstring) : option jsstring :=
  match n with
  | O => Some s
  | S n' =>
    match s with
    | c :: r => if isDigit c then digits_exactly n' r else None
    | [] => None
    end
  end.

(** [/^\d{6}$/.test(pin)]: without the multiline flag the two anchors are the
    two ends of the string. *)
Definition isValidPin (pin : jsstring) : bool :=
  match digits_exactly 6 pin with
  | Some [] => true
  | _ => false
  end.

(** ** The extraction result and its report *)

(** A JSON number as the formatter observes it: a template literal renders it
    with [toString] and an [if] tests whether it is zero.  IEEE doubles are
    not modelled further. *)
Record number := { toString : jsstring; nonzero : bool }.

Definition number_of_Z (z : Z) : number :=
  {| toString := decimal z; nonzero := negb (z =? 0)%Z |}.

Record Vitals := {
  bp_systolic : option number;
  bp_diastolic : option number;
  hr : option number;
  temp_c : option number;
  spo2 : option number
}.

Record Medication := {
  name : option jsstring;
  dose : option jsstring;
  route : option jsstring;
  time : option jsstring
}.

(** [response.data.dados], read with the types the data model gives to its
    fields; every field may be missing (or null). *)
Record Report := {
  patient_state : option jsstring;
  vitals : option Vitals;
  medications_in_use : option (list jsstring);
  medications_administered : option (list Medication);
  materials_used : option (list jsstring);
  interventions : option (list jsstring);
  recommendations : option (list jsstring);
  observations : option jsstring;
  data_processamento : option jsstring
}.

(** What the process is started with: the environment variables read at load
    time and the host's rendering of a date in the pt-BR locale,
    [new Date(d).toLocaleString('pt-BR')]. *)
Class Process := {
  GEMINI_API_KEY : jsstring;
  API_BASE_URL : jsstring;
  toLocaleString_ptBR : jsstring -> jsstring
}.

(** [if (x)] on an optional string, an optional number, an optional list
    guarded by [x.length > 0]. *)
Definition present_string (x : option jsstring) : option jsstring :=
  match x with
  | Some s => if truthy s then Some s else None
  | None => None
  end.

Definition present_number (x : option number) : option number :=
  match x with
  | Some n => if nonzero n then Some n else None
  | None => None
  end.

Definition present_list {A} (x : option (list A)) : option (list A) :=
  match x with
  | Some (a :: l) => Some (a :: l)
  | _ => None
  end.

(** [list.forEach(item => { message += line(item) })]. *)
Definition forEach {A} (l : list A) (line : A -> jsstring) (message : jsstring)
  : jsstring :=
  fold_left (fun message item => message ++ line item) l message.

Definition bullet (item : jsstring) : jsstring :=
  js "• " ++ item ++ js "\n".

Definition report_title : jsstring :=
  Eval vm_compute in js "📋 *RELATÓRIO DE VISITA DOMICILIAR*\n\n".

Definition add_patient_state (reportData : Report) (message : jsstring) : jsstring :=
  match present_string (patient_state reportData) with
  | Some p => message ++ js "👤 *Estado do Paciente:* " ++ p ++ js "\n\n"
  | None => message
  end.

Definition add_blood_pressure (v : Vitals) (message : jsstring) : jsstring :=
  match present_number (bp_systolic v), present_number (bp_diastolic v) with
  | Some s, Some d =>
    message ++ js "• PA: " ++ toString s ++ js "/" ++ toString d ++ js " mmHg\n"
  | _, _ => message
  end.

Definition add_heart_rate (v : Vitals) (message : jsstring) : jsstring :=
  match present_number (hr v) with
  | Some n => message ++ js "• FC: " ++ toString n ++ js " bpm\n"
  | None => message
  end.

Definition add_temperature (v : Vitals) (message : jsstring) : jsstring :=
  match present_number (temp_c v) with
  | Some n => message ++ js "• Temperatura: " ++ toString n ++ js "°C\n"
  | None => message
  end.

Definition add_saturation (v : Vitals) (message : jsstring) : jsstring :=
  match present_number (spo2 v) with
  | Some n => message ++ js "• SpO2: " ++ toString n ++ js "%\n"
  | None => message
  end.

Definition add_vitals (reportData : Report) (message : jsstring) : jsstring :=
  match vitals reportData with
  | Some v =>
    let message := message ++ js "🩺 *SINAIS VITAIS:*\n" in
    let message := add_blood_pressure v message in
    let message := add_heart_rate v message in
    let message := add_temperature v message in
    let message := add_saturation v message in
    message ++ js "\n"
  | None => message
  end.

Definition add_list (title : jsstring) (x : option (list jsstring))
    (message : jsstring) : jsstring :=
  match present_list x with
  | Some l => forEach l bullet (message ++ title) ++ js "\n"
  | None => message
  end.

(** One administered medication: the name, or N/A in its place, then a line
    for each of dose, route and time that is there. *)
Definition medication_entry (med : Medication) : jsstring :=
  let message :=
    js "• *" ++ default (js "N/A") (present_string (name med)) ++ js "*\n" in
  let message :=
    match present_string (dose med) with
    | Some d => message ++ js "  Dose: " ++ d ++ js "\n"
    | None => message
    end in
  let message :=
    match present_string (route med) with
    | Some r => message ++ js "  Via: " ++ r ++ js "\n"
    | None => message
    end in
  let message :=
    match present_string (time med) with
    | Some t => message ++ js "  Horário: " ++ t ++ js "\n"
    | None => message
    end in
  message ++ js "\n".

Definition add_medications_administered (reportData : Report)
    (message : jsstring) : jsstring :=
  match present_list (medications_administered reportData) with
  | Some l => forEach l medication_entry (message ++ js "💉 *MEDICAMENTOS ADMINISTRADOS:*\n")
  | None => message
  end.

Definition add_observations (reportData : Report) (message : jsstring) : jsstring :=
  match present_string (observations reportData) with
  | Some o => message ++ js "💭 *OBSERVAÇÕES:*\n" ++ o ++ js "\n\n"
  | None => message
  end.

Definition add_processed `{Process} (reportData : Report) (message : jsstring)
  : jsstring :=
  match present_string (data_processamento reportData) with
  | Some d =>
    let processedDate := toLocaleString_ptBR d in
    message ++ js "⏰ *Processado em:* " ++ processedDate
  | None => message
  end.

Definition formatReportForWhatsApp `{Process} (reportData : Report) : jsstring :=
  let message := report_title in
  let message := add_patient_state reportData message in
  let message := add_vitals reportData message in
  let message :=
    add_list (js "💊 *MEDICAMENTOS EM USO:*\n") (medications_in_use reportData) message in
  let message := add_medications_administered reportData message in
  let message :=
    add_list (js "🧰 *MATERIAIS UTILIZADOS:*\n") (materials_used reportData) message in
  let message :=
    add_list (js "🔧 *INTERVENÇÕES REALIZADAS:*\n") (interventions reportData) message in
  let message :=
    add_list (js "📝 *RECOMENDAÇÕES:*\n") (recommendations reportData) message in
  let message := add_observations reportData message in
  let message := add_processed reportData message in
  message.

(** ** Sessions, messages and the outside world *)

(** [SESSION_STATES]; a session that has not been greeted yet has state
    [null], modelled by [None]. *)
Inductive SESSION_STATES := WAITING_PIN | AUTHENTICATED | DOCUMENTING_VISIT.

Record Session := {
  state : option SESSION_STATES;
  pin : option jsstring;
  visitDocuments : list jsstring;
  visitTexts : list jsstring
}.

(** The record [getUserSession] creates on first contact. *)
Definition new_session : Session :=
  {| state := None; pin := None; visitDocuments := []; visitTexts := [] |}.

(** What the handlers read of a whatsapp-web.js message ([id] is
    [message.id.id]) and of its chat. *)
Record Message := {
  id : jsstring;
  type : jsstring;
  body : jsstring;
  hasMedia : bool;
  fromMe : bool
}.

Record Chat := {
  serialized : jsstring;
  chat_name : jsstring;
  isGroup : bool
}.

Record Error := { message_of : jsstring }.

(** What [fs.writeFileSync] was given, or what ffmpeg produced. *)
Inductive FileContent :=
| Base64 (data : jsstring)
| Utf8 (text : jsstring)
| Wav (inputPath : jsstring).

(** [sendBotMessage] tries [chat.sendMessage], then [client.sendMessage]. *)
Inductive Delivery := ViaChat | ViaClient | Undelivered (error2 : Error).

Record Sent := { to : jsstring; text : jsstring; delivery : Delivery }.

(** The multipart form posted to [/extract/visit-report]. *)
Record FormData := {
  api_key : jsstring;
  texts : list jsstring;
  attached : list (jsstring * FileContent)
}.

(** The state a handler runs on: the session object of the sender, the files
    on disk, and the record of what was sent to the chat and to the API. *)
Record Machine := {
  session : Session;
  disk : gmap jsstring FileContent;
  outbox : list Sent;
  requests : list FormData
}.

(** [message.downloadMedia()]. *)
Inductive Download :=
| DownloadFails (error : Error)
| NoMedia
| Media (mimetype data : jsstring).

(** [response.data.erro] as a template literal renders it. *)
Inductive ErrorField := Missing | IsNull | Text (s : jsstring).

(** [response.data.dados] when it is truthy: a result shaped as the data
    model has it, or a value on which [formatReportForWhatsApp] throws a
    [TypeError]: one that holds, where a list is expected, a string or an
    object with a positive [length] (so that [forEach] is not a function),
    or that holds [null] among the administered medications.  A value of
    another shape that the formatter renders is read as the result it is
    rendered as. *)
Inductive Dados :=
| WellTyped (reportData : Report)
| IllTyped (typeError : Error).

(** [axios.post]: a response body, with [dados] when it is truthy, or a
    rejection (time-out, refused connection, a status outside 2xx). *)
Inductive Axios :=
| Response (sucesso : bool) (dados : option Dados) (erro : ErrorField)
| Rejected (error : Error).

(** What the world answers while one message is handled: the download of the
    media, [Date.now()] when the saved file is named and when its converted
    copy is named, the error of [fs.writeFileSync] if it throws, whether
    [ffmpeg -version] and the conversion succeed, the outcome of the post, and
    the outcome of each attempt to send, numbered by the length of the
    outbox. *)
Record Env := {
  downloadMedia : Download;
  now_saved : Z;
  now_converted : Z;
  writeFileSync_error : option Error;
  ffmpeg_version_ok : bool;
  ffmpeg_converts : bool;
  axios_post : Axios;
  sendMessage : nat -> Delivery
}.

(** ** Handlers as state transformers that may throw *)

(** An async function run from its call to its completion with nothing else
    running in between: it returns a value or throws, and leaves the machine
    changed.  What two handlers do when one runs while the other waits at an
    [await] is the matter of the tasks further down, which cut these
    functions at their awaits. *)

Inductive Completion (A : Type) :=
| Normal (value : A)
| Thrown (error : Error).
Arguments Normal {A} value.
Arguments Thrown {A} error.

Definition Async (A : Type) : Type := Machine -> Completion A * Machine.

Definition ret {A} (a : A) : Async A := fun m => (Normal a, m).

Definition bind {A B} (c : Async A) (k : A -> Async B) : Async B :=
  fun m =>
    match c m with
    | (Normal a, m') => k a m'
    | (Thrown e, m') => (Thrown e, m')
    end.

Definition throw {A} (e : Error) : Async A := fun m => (Thrown e, m).

(** [try { body } catch (error) { handler }]. *)
Definition try_catch {A} (body : Async A) (handler : Error -> Async A) : Async A :=
  fun m =>
    match body m with
    | (Normal a, m') => (Normal a, m')
    | (Thrown e, m') => handler e m'
    end.

Notation "x <- c ;; k" := (bind c (fun x => k))
  (at level 100, c at next level, right associativity).
Notation "c ;; k" := (bind c (fun _ => k))
  (at level 100, right associativity).

Definition on_session (f : Session -> Session) : Async unit :=
  fun m =>
    (Normal tt,
     {| session := f (session m); disk := disk m; outbox := outbox m;
        requests := requests m |}).

Definition set_state (v : option SESSION_STATES) : Async unit :=
  on_session (fun s =>
    {| state := v; pin := pin s; visitDocuments := visitDocuments s;
       visitTexts := visitTexts s |}).

Definition set_pin (v : option jsstring) : Async unit :=
  on_session (fun s =>
    {| state := state s; pin := v; visitDocuments := visitDocuments s;
       visitTexts := visitTexts s |}).

Definition set_visitDocuments (v : list jsstring) : Async unit :=
  on_session (fun s =>
    {| state := state s; pin := pin s; visitDocuments := v;
       visitTexts := visitTexts s |}).

Definition set_visitTexts (v : list jsstring) : Async unit :=
  on_session (fun s =>
    {| state := state s; pin := pin s; visitDocuments := visitDocuments s;
       visitTexts := v |}).

(** [session.visitDocuments.push(...savedFiles)], [session.visitTexts.push(t)]. *)
Definition push_visitDocuments (savedFiles : list jsstring) : Async unit :=
  fun m => set_visitDocuments (visitDocuments (session m) ++ savedFiles) m.

Definition push_visitTexts (t : jsstring) : Async unit :=
  fun m => set_visitTexts (visitTexts (session m) ++ [t]) m.

(** [session.state === v], and [!session.state] for [v = None]. *)
Definition same_state (a b : option SESSION_STATES) : bool :=
  match a, b with
  | None, None => true
  | Some WAITING_PIN, Some WAITING_PIN => true
  | Some AUTHENTICATED, Some AUTHENTICATED => true
  | Some DOCUMENTING_VISIT, Some DOCUMENTING_VISIT => true
  | _, _ => false
  end.

Definition state_is (v : option SESSION_STATES) : Async bool :=
  fun m => (Normal (same_state (state (session m)) v), m).

Definition audioDir : jsstring := Eval vm_compute in js "./audio_files".
Definition mediaDir : jsstring := Eval vm_compute in js "./media_files".
Definition visitDocumentsDir : jsstring := Eval vm_compute in js "./visit_documents".

(** [path.join(dir, fileName)] names the file [fileName] of [dir]; the
    normalisation of the joined path is not modelled. *)
Definition path_join (dir fileName : jsstring) : jsstring :=
  dir ++ js "/" ++ fileName.

Definition writeFileSync (env : Env) (filePath : jsstring) (content : FileContent)
  : Async unit :=
  fun m =>
    match writeFileSync_error env with
    | Some e => (Thrown e, m)
    | None =>
      (Normal tt,
       {| session := session m; disk := <[filePath := content]> (disk m);
          outbox := outbox m; requests := requests m |})
    end.

(** [checkFFmpegAvailable] and [convertAudioToWav] always resolve: a failing
    ffmpeg makes them resolve to [false]. *)
Definition checkFFmpegAvailable (env : Env) : Async bool :=
  ret (ffmpeg_version_ok env).

Definition convertAudioToWav (env : Env) (inputPath outputPath : jsstring)
  : Async bool :=
  fun m =>
    if ffmpeg_converts env then
      (Normal true,
       {| session := session m; disk := <[outputPath := Wav inputPath]> (disk m);
          outbox := outbox m; requests := requests m |})
    else (Normal false, m).

Definition await_downloadMedia (env : Env) : Async (option (jsstring * jsstring)) :=
  match downloadMedia env with
  | DownloadFails e => throw e
  | NoMedia => ret None
  | Media mimetype data => ret (Some (mimetype, data))
  end.

(** [media.mimetype.split('/')[1] || fallback]. *)
Definition extension_or (fallback mimetype : jsstring) : jsstring :=
  default fallback (present_string (split_slash_1 mimetype)).

(** The names under which a payload is saved. *)
Definition originalFileName (env : Env) (message : Message) (mimetype : jsstring)
  : jsstring :=
  let originalExtension := extension_or (js "ogg") mimetype in
  js "audio_" ++ decimal (now_saved env) ++ js "_" ++ id message ++ js "."
    ++ originalExtension.

Definition wavFileName (env : Env) (message : Message) : jsstring :=
  js "audio_" ++ decimal (now_converted env) ++ js "_" ++ id message ++ js ".wav".

Definition mediaFileName (env : Env) (message : Message) (mimetype : jsstring)
  : jsstring :=
  let extension := extension_or (js "bin") mimetype in
  type message ++ js "_" ++ decimal (now_saved env) ++ js "_" ++ id message
    ++ js "." ++ extension.

Definition textFileName (env : Env) (message : Message) : jsstring :=
  js "text_" ++ decimal (now_saved env) ++ js "_" ++ id message ++ js ".txt".

(** [message.type === 'ptt' || message.type === 'audio']. *)
Definition is_audio (message : Message) : bool :=
  str_eq (type message) (js "ptt") || str_eq (type message) (js "audio").

(** [handleMediaMessage(message, session, isVisitDocument)].  The local
    [savedFiles] is only pushed to after the last statement that can throw, so
    a caught error leaves it empty. *)
Definition handleMediaMessage (env : Env) (message : Message)
    (isVisitDocument : bool) : Async (list jsstring) :=
  if is_audio message then
    try_catch
      (media <- await_downloadMedia env ;;
       match media with
       | Some (mimetype, data) =>
         let originalFileName := originalFileName env message mimetype in
         let targetDir := if isVisitDocument then visitDocumentsDir else audioDir in
         let originalPath := path_join targetDir originalFileName in
         writeFileSync env originalPath (Base64 data) ;;
         let savedFiles := [originalFileName] in
         ffmpegAvailable <- checkFFmpegAvailable env ;;
         savedFiles <-
           (if ffmpegAvailable : bool then
              let wavFileName := wavFileName env message in
              let wavPath := path_join targetDir wavFileName in
              converted <- convertAudioToWav env originalPath wavPath ;;
              if converted : bool then ret (savedFiles ++ [wavFileName])
              else ret savedFiles
            else ret savedFiles) ;;
         (if isVisitDocument then push_visitDocuments savedFiles else ret tt) ;;
         ret savedFiles
       | None => ret []
       end)
      (fun error => ret [])
  else if hasMedia message then
    try_catch
      (media <- await_downloadMedia env ;;
       match media with
       | Some (mimetype, data) =>
         if truthy mimetype then
           let mediaFileName := mediaFileName env message mimetype in
           let targetDir := if isVisitDocument then visitDocumentsDir else mediaDir in
           let mediaPath := path_join targetDir mediaFileName in
           writeFileSync env mediaPath (Base64 data) ;;
           let savedFiles := [mediaFileName] in
           (if isVisitDocument then push_visitDocuments [mediaFileName] else ret tt) ;;
           ret savedFiles
         else ret []
       | None => ret []
       end)
      (fun error => ret [])
  else ret [].

(** [sendBotMessage(chat, messageText)]: the attempt is recorded with its
    outcome; it throws when both ways of sending fail. *)
Definition sendBotMessage (env : Env) (chat : Chat) (messageText : jsstring)
  : Async unit :=
  fun m =>
    let outcome := sendMessage env (length (outbox m)) in
    let m' :=
      {| session := session m; disk := disk m;
         outbox := outbox m ++
           [{| to := serialized chat; text := messageText; delivery := outcome |}];
         requests := requests m |} in
    match outcome with
    | Undelivered error2 => (Thrown error2, m')
    | _ => (Normal tt, m')
    end.

(** ** The hand-off to the extraction API *)

Record ApiResult := {
  success : bool;
  data_of : option Dados;
  error_of : ErrorField
}.

(** The files of [session.visitDocuments] that exist on disk, with their
    names, in order. *)
Definition existing_files (disk : gmap jsstring FileContent)
    (fileNames : list jsstring) : list (jsstring * FileContent) :=
  omap (fun fileName =>
          let filePath := path_join visitDocumentsDir fileName in
          match disk !! filePath with
          | Some fileBuffer => Some (fileName, fileBuffer)
          | None => None
          end) fileNames.

(** [sendDocumentsToAPI(session, userId)]: one post; every failure is caught
    and returned as [{success: false, error}]. *)
Definition sendDocumentsToAPI `{Process} (env : Env) : Async ApiResult :=
  fun m =>
    let formData :=
      {| api_key := GEMINI_API_KEY;
         texts := visitTexts (session m);
         attached := existing_files (disk m) (visitDocuments (session m)) |} in
    let m' :=
      {| session := session m; disk := disk m; outbox := outbox m;
         requests := requests m ++ [formData] |} in
    match axios_post env with
    | Response sucesso dados erro =>
      if sucesso then
        (Normal {| success := true; data_of := dados; error_of := Missing |}, m')
      else
        (Normal {| success := false; data_of := None; error_of := erro |}, m')
    | Rejected error =>
      (Normal {| success := false; data_of := None;
                 error_of := Text (message_of error) |}, m')
    end.

(** [`${apiResult.error}`]. *)
Definition template (e : ErrorField) : jsstring :=
  match e with
  | Missing => js "undefined"
  | IsNull => js "null"
  | Text s => s
  end.

(** ** The conversation *)

(** The replies of the bot. *)
Definition greeting : jsstring :=
  Eval vm_compute in js "Olá! Envie o seu PIN para realizar o login.".

Definition menuMessage : jsstring :=
  Eval vm_compute in
    js "PIN aceito! ✅\n\nO que você deseja fazer?\n\n1️⃣ Ver visitas agendadas\n2️⃣ Documentar visita\n\nDigite 1 ou 2 para escolher uma opção.".

Definition pinInvalid : jsstring :=
  Eval vm_compute in js "PIN inválido. Por favor, envie um PIN de 6 dígitos.".

Definition visitsInDevelopment : jsstring :=
  Eval vm_compute in
    js "📅 Funcionalidade \x22Ver visitas agendadas\x22 em desenvolvimento.\n\nDigite 2 para documentar visita ou envie um novo PIN para reiniciar.".

Definition documentationMode : jsstring :=
  Eval vm_compute in
    js "📝 Modo documentação ativado!\n\nAberto a receber os documentos da visita:\n• Envie arquivos, fotos, áudios ou texto escrito\n• Digite \x220\x22 ou \x22sair\x22 quando terminar".

Definition invalidOption : jsstring :=
  Eval vm_compute in
    js "Opção inválida. Digite:\n1️⃣ Ver visitas agendadas\n2️⃣ Documentar visita".

Definition documentsReceived : jsstring :=
  Eval vm_compute in
    js "✅ Documento(s) recebido(s) e salvo(s)!\n\nContinue enviando mais documentos ou digite \x220\x22 ou \x22sair\x22 para finalizar.".

Definition textReceived : jsstring :=
  Eval vm_compute in
    js "✅ Texto recebido e salvo!\n\nContinue enviando mais documentos ou digite \x220\x22 ou \x22sair\x22 para finalizar.".

Definition processing : jsstring :=
  Eval vm_compute in
    js "⏳ Processando dados com IA...\n\nAguarde enquanto analiso os documentos da visita.".

Definition concluded : jsstring :=
  Eval vm_compute in
    js "\n✅ Documentação da visita concluída com sucesso!\n\nDigite um novo PIN para iniciar uma nova sessão.".

Definition reportNotSent : jsstring :=
  Eval vm_compute in
    js "❌ Erro ao enviar relatório. Tente novamente.\n\nDigite um novo PIN para iniciar uma nova sessão.".

Definition errorMessage (error : ErrorField) : jsstring :=
  js "❌ Erro ao processar documentos:\n" ++ template error
    ++ js "\n\nDigite um novo PIN para tentar novamente.".

(** [message.body ? message.body.trim() : '']. *)
Definition userMessage_of (message : Message) : jsstring :=
  if truthy (body message) then trim (body message) else [].

(** The finalize test of the documentation mode. *)
Definition finalizes (userMessage : jsstring) : bool :=
  str_eq (toLowerCase userMessage) (js "0")
  || str_eq (toLowerCase userMessage) (js "sair").

(** [try { await sendBotMessage(chat, text) } catch (error) { log }]. *)
Definition try_send (env : Env) (chat : Chat) (messageText : jsstring) : Async unit :=
  try_catch (sendBotMessage env chat messageText) (fun error => ret tt).

(** [formatReportForWhatsApp(apiResult.data)] as the conversation calls it. *)
Definition format_data `{Process} (data : Dados) : Async jsstring :=
  match data with
  | WellTyped reportData => ret (formatReportForWhatsApp reportData)
  | IllTyped typeError => throw typeError
  end.

(** The branch of the documentation mode that finalizes the visit.  The
    report is formatted outside any [try]: when the formatter throws, the
    error leaves the handler and the statements that reset the session are
    not reached. *)
Definition finalize_visit `{Process} (env : Env) (chat : Chat) : Async unit :=
  try_send env chat processing ;;
  apiResult <- sendDocumentsToAPI env ;;
  (match success apiResult, data_of apiResult with
   | true, Some data =>
     formattedReport <- format_data data ;;
     try_catch
       (sendBotMessage env chat formattedReport ;;
        sendBotMessage env chat concluded)
       (fun error => try_send env chat reportNotSent)
   | _, _ => try_send env chat (errorMessage (error_of apiResult))
   end) ;;
  set_state None ;;
  set_visitDocuments [] ;;
  set_visitTexts [].

(** The branch of the documentation mode that collects a text. *)
Definition collect_text (env : Env) (message : Message) (chat : Chat)
    (userMessage : jsstring) : Async unit :=
  if str_eq (type message) (js "chat") && truthy userMessage then
    let textFileName := textFileName env message in
    let textPath := path_join visitDocumentsDir textFileName in
    writeFileSync env textPath (Utf8 userMessage) ;;
    push_visitTexts userMessage ;;
    try_send env chat textReceived
  else ret tt.

(** The menu of an authenticated user. *)
Definition authenticated_menu (env : Env) (chat : Chat) (userMessage : jsstring)
  : Async unit :=
  if str_eq userMessage (js "1") then
    sendBotMessage env chat visitsInDevelopment
  else if str_eq userMessage (js "2") then
    set_state (Some DOCUMENTING_VISIT) ;;
    set_visitDocuments [] ;;
    set_visitTexts [] ;;
    sendBotMessage env chat documentationMode
  else if isValidPin userMessage then
    set_pin (Some userMessage) ;;
    set_state (Some AUTHENTICATED) ;;
    set_visitDocuments [] ;;
    set_visitTexts [] ;;
    sendBotMessage env chat menuMessage
  else
    sendBotMessage env chat invalidOption.

(** The PIN verification. *)
Definition pin_verification (env : Env) (chat : Chat) (userMessage : jsstring)
  : Async unit :=
  if isValidPin userMessage then
    set_pin (Some userMessage) ;;
    set_state (Some AUTHENTICATED) ;;
    sendBotMessage env chat menuMessage
  else
    sendBotMessage env chat pinInvalid.

(** The body of [handleBotConversation] once the session of the sender has
    been looked up: the ifs of the source, each ending in [return], in order. *)
Definition conversation `{Process} (env : Env) (message : Message) (chat : Chat)
  : Async unit :=
  let userMessage := userMessage_of message in
  if negb (truthy userMessage) && str_eq (type message) (js "chat") then ret tt
  else
    documenting <- state_is (Some DOCUMENTING_VISIT) ;;
    if negb (truthy userMessage) && negb (str_eq (type message) (js "chat"))
       && documenting
    then
      savedFiles <- handleMediaMessage env message true ;;
      if (0 <? length savedFiles)%nat then try_send env chat documentsReceived
      else ret tt
    else if negb (truthy userMessage) then ret tt
    else
      unset <- state_is None ;;
      if unset : bool then
        set_state (Some WAITING_PIN) ;;
        sendBotMessage env chat greeting
      else
        waiting <- state_is (Some WAITING_PIN) ;;
        if waiting : bool then pin_verification env chat userMessage
        else
          authenticated <- state_is (Some AUTHENTICATED) ;;
          if authenticated : bool then authenticated_menu env chat userMessage
          else
            documenting <- state_is (Some DOCUMENTING_VISIT) ;;
            if documenting : bool then
              if finalizes userMessage then finalize_visit env chat
              else collect_text env message chat userMessage
            else ret tt.

(** ** The session registry *)

(** What [saveMessageData] appends to the log of the day. *)
Record MessageData := {
  logged_id : jsstring;
  fromNumber : jsstring;
  logged_type : jsstring;
  logged_body : jsstring;
  groupId : jsstring;
  isOwnMessage : bool;
  logged_savedFiles : list jsstring
}.

(** The bot as a whole: [userSessions], the disk, what was sent and the log
    of the messages (its split into one file per day is not modelled). *)
Record World := {
  userSessions : gmap jsstring Session;
  world_disk : gmap jsstring FileContent;
  world_outbox : list Sent;
  world_requests : list FormData;
  messages : list MessageData
}.

Definition initial_world : World :=
  {| userSessions := ∅; world_disk := ∅; world_outbox := [];
     world_requests := []; messages := [] |}.

(** [getUserSession(userId)]: the session of the map, created on first use. *)
Definition getUserSession (userId : jsstring) (sessions : gmap jsstring Session)
  : Session * gmap jsstring Session :=
  match sessions !! userId with
  | Some s => (s, sessions)
  | None => (new_session, <[userId := new_session]> sessions)
  end.

(** A handler run on the session of [userId].  The handler mutates the
    session object that the map holds, so the map is updated with the session
    the handler leaves. *)
Definition on_sender {A} (userId : jsstring) (handler : Async A) (w : World)
  : Completion A * World :=
  let '(s, sessions) := getUserSession userId (userSessions w) in
  let '(completion, m) :=
    handler
      {| session := s; disk := world_disk w; outbox := world_outbox w;
         requests := world_requests w |} in
  (completion,
   {| userSessions := <[userId := session m]> sessions; world_disk := disk m;
      world_outbox := outbox m; world_requests := requests m;
      messages := messages w |}).

(** [handleBotConversation(message, chat, contact)], where [userId] is
    [contact.id.user]. *)
Definition handleBotConversation `{Process} (env : Env) (message : Message)
    (chat : Chat) (userId : jsstring) : World -> Completion unit * World :=
  on_sender userId (conversation env message chat).

(** One call of [processMessage]: the message, its chat and the user of its
    contact as [getChat] and [getContact] resolve them (or the error of one of
    them), and the answers of the world while the media is archived, while
    the message is logged and while the conversation runs. *)
Record Event := {
  event_message : Message;
  event_chat : Chat;
  event_user : jsstring;
  lookup_error : option Error;
  archive_env : Env;
  saveMessageData_error : option Error;
  event_env : Env
}.

Definition saveMessageData (e : Event) (savedFiles : list jsstring) (w : World)
  : World :=
  {| userSessions := userSessions w; world_disk := world_disk w;
     world_outbox := world_outbox w; world_requests := world_requests w;
     messages := messages w ++
       [{| logged_id := id (event_message e); fromNumber := event_user e;
           logged_type := type (event_message e);
           logged_body := body (event_message e);
           groupId := serialized (event_chat e);
           isOwnMessage := fromMe (event_message e);
           logged_savedFiles := savedFiles |}] |}.

(** The media of a message is saved to the audio or the media directory,
    whatever the state of the sender's session. *)
Definition archive_media (e : Event) (w : World)
  : Completion (list jsstring) * World :=
  if is_audio (event_message e) || hasMedia (event_message e) then
    on_sender (event_user e)
      (handleMediaMessage (archive_env e) (event_message e) false) w
  else (Normal [], w).

(** [processMessage(message, source)]: messages of chats that are not a group
    with grupo in its name are left alone; the media of the others is
    archived, the message is logged, and the conversation is run for a
    message that is not the bot's own, its errors being caught. *)
Definition processMessage `{Process} (e : Event) (w : World) : bool * World :=
  match lookup_error e with
  | Some error => (false, w)
  | None =>
    let message := event_message e in
    let chat := event_chat e in
    if negb (isGroup chat)
       || negb (includes (toLowerCase (chat_name chat)) (js "grupo"))
    then (false, w)
    else
      let '(archived, w1) := archive_media e w in
      match archived with
      | Thrown error => (false, w1)
      | Normal savedFiles =>
        match saveMessageData_error e with
        | Some error => (false, w1)
        | None =>
          let w2 := saveMessageData e savedFiles w1 in
          if negb (fromMe message) then
            (true,
             snd (handleBotConversation (event_env e) message chat
                    (event_user e) w2))
          else (true, w2)
        end
      end
  end.

Definition deliver `{Process} (w : World) (e : Event) : World :=
  snd (processMessage e w).

(** The messages handled in turn: each call of [processMessage] is over
    before the next one starts.  The client does not wait so; the handlers
    that overlap are [overlapped], further down. *)
Definition run `{Process} (w : World) (events : list Event) : World :=
  fold_left deliver events w.

(** [client.on('message', ...)] and [client.on('message_create', ...)], where
    [from] is [message.from]: the first handles every message that has a
    sender, the second only the bot's own messages. *)
Definition on_message `{Process} (from : jsstring) (e : Event) (w : World)
  : World :=
  if truthy from then snd (processMessage e w) else w.

Definition on_message_create `{Process} (from : jsstring) (e : Event) (w : World)
  : World :=
  if truthy from && fromMe (event_message e) then snd (processMessage e w)
  else w.

(** The conversation alone, for the messages of one sender, on that sender's
    machine; in [steps] the conversation of a message is over before the
    conversation of the next one starts. *)
Definition step `{Process} (m : Machine) (e : Event) : Machine :=
  snd (conversation (event_env e) (event_message e) (event_chat e) m).

Definition steps `{Process} (m : Machine) (events : list Event) : Machine :=
  fold_left step events m.

Definition initial_machine : Machine :=
  {| session := new_session; disk := ∅; outbox := []; requests := [] |}.

(** ** Handlers that overlap *)

(** The client starts the handler of a message when the message arrives,
    without waiting for the handlers of the messages before it.  An [async]
    function runs until its next [await] and goes on in a later turn of the
    event loop; in between, other handlers run.  A handler in progress is a
    [Task]: it has settled, or it is suspended at an [await], where [resume]
    is its code up to the next [await], run on the state as it is when the
    handler is resumed. *)
#[warnings="-register-all"] Inductive Task (S A : Type) : Type :=
| Settled (result : Completion A)
| Suspended (resume : S -> Task S A * S).
Arguments Settled {S A} result.
Arguments Suspended {S A} resume.

Definition Co (S A : Type) : Type := S -> Task S A * S.

Definition co_ret {S A} (a : A) : Co S A := fun s => (Settled (Normal a), s).

Definition co_throw {S A} (e : Error) : Co S A := fun s => (Settled (Thrown e), s).

(** Code that runs without an [await]. *)
Definition atomic {S A} (c : S -> Completion A * S) : Co S A :=
  fun s => let '(result, s') := c s in (Settled result, s').

(** [t], and [k] once [t] has settled. *)
Fixpoint and_then {S A B} (t : Task S A) (k : Completion A -> Co S B) : Co S B :=
  fun s =>
    match t with
    | Settled result => k result s
    | Suspended resume =>
      (Suspended (fun s' => let '(t', s'') := resume s' in and_then t' k s''), s)
    end.

Definition co_bind {S A B} (c : Co S A) (k : A -> Co S B) : Co S B :=
  fun s =>
    let '(t, s') := c s in
    and_then t (fun result =>
                  match result with
                  | Normal a => k a
                  | Thrown e => co_throw e
                  end) s'.

Definition co_try_catch {S A} (body : Co S A) (handler : Error -> Co S A)
  : Co S A :=
  fun s =>
    let '(t, s') := body s in
    and_then t (fun result =>
                  match result with
                  | Normal a => co_ret a
                  | Thrown e => handler e
                  end) s'.

(** [await c]: the callee [c] runs at once, up to its own first [await]; the
    caller is suspended until [c] has settled and goes on in a later turn. *)
Definition await {S A} (c : Co S A) : Co S A :=
  fun s =>
    let '(t, s') := c s in
    and_then t (fun result s1 => (Suspended (fun s2 => (Settled result, s2)), s1))
      s'.

Declare Scope co_scope.
Delimit Scope co_scope with co.
Notation "x <- c ;; k" := (co_bind c (fun x => k))
  (at level 100, c at next level, right associativity) : co_scope.
Notation "c ;; k" := (co_bind c (fun _ => k))
  (at level 100, right associativity) : co_scope.

(** A task resumed again and again, with nothing else running in between,
    until it has settled. *)
Fixpoint complete {S A} (t : Task S A) (s : S) : Completion A * S :=
  match t with
  | Settled result => (result, s)
  | Suspended resume => let '(t', s') := resume s in complete t' s'
  end.

Definition run_to_completion {S A} (c : Co S A) (s : S) : Completion A * S :=
  let '(t, s') := c s in complete t s'.

(** [sendBotMessage] with its awaits: the pause of half a second, then the
    attempts to send, which are recorded with their outcome when they are
    made. *)
Definition sendBotMessage_task (env : Env) (chat : Chat) (messageText : jsstring)
  : Co Machine unit :=
  (await (co_ret tt) ;;
   await (atomic (sendBotMessage env chat messageText)))%co.

Definition try_send_task (env : Env) (chat : Chat) (messageText : jsstring)
  : Co Machine unit :=
  co_try_catch (await (sendBotMessage_task env chat messageText))
    (fun error => co_ret tt).

(** [handleMediaMessage] with its awaits: the download, the check for ffmpeg
    and the conversion.  The payload is written, and the names are pushed to
    the documents of the session, when the handler is resumed after the
    download, on the session as it is then. *)
Definition handleMediaMessage_task (env : Env) (message : Message)
    (isVisitDocument : bool) : Co Machine (list jsstring) :=
  if is_audio message then
    co_try_catch
      (media <- await (atomic (await_downloadMedia env)) ;;
       match media with
       | Some (mimetype, data) =>
         let originalFileName := originalFileName env message mimetype in
         let targetDir := if isVisitDocument then visitDocumentsDir else audioDir in
         let originalPath := path_join targetDir originalFileName in
         atomic (writeFileSync env originalPath (Base64 data)) ;;
         let savedFiles := [originalFileName] in
         ffmpegAvailable <- await (atomic (checkFFmpegAvailable env)) ;;
         savedFiles <-
           (if ffmpegAvailable : bool then
              let wavFileName := wavFileName env message in
              let wavPath := path_join targetDir wavFileName in
              converted <-
                await (atomic (convertAudioToWav env originalPath wavPath)) ;;
              if converted : bool then co_ret (savedFiles ++ [wavFileName])
              else co_ret savedFiles
            else co_ret savedFiles) ;;
         atomic (if isVisitDocument then push_visitDocuments savedFiles
                 else ret tt) ;;
         co_ret savedFiles
       | None => co_ret []
       end)%co
      (fun error => co_ret [])
  else if hasMedia message then
    co_try_catch
      (media <- await (atomic (await_downloadMedia env)) ;;
       match media with
       | Some (mimetype, data) =>
         if truthy mimetype then
           let mediaFileName := mediaFileName env message mimetype in
           let targetDir := if isVisitDocument then visitDocumentsDir else mediaDir in
           let mediaPath := path_join targetDir mediaFileName in
           atomic (writeFileSync env mediaPath (Base64 data)) ;;
           let savedFiles := [mediaFileName] in
           atomic (if isVisitDocument then push_visitDocuments [mediaFileName]
                   else ret tt) ;;
           co_ret savedFiles
         else co_ret []
       | None => co_ret []
       end)%co
      (fun error => co_ret [])
  else co_ret [].

(** [sendDocumentsToAPI] with its await: the form is built from the session
    and posted when the function is called; the answer comes later. *)
Definition sendDocumentsToAPI_task `{Process} (env : Env) : Co Machine ApiResult :=
  await (atomic (sendDocumentsToAPI env)).

(** The branches of the conversation with their awaits.  Statements that
    have no [await] between them run together: so do the three that reset the
    session at the end of the hand-off, after the last reply has been
    awaited. *)
Definition finalize_visit_task `{Process} (env : Env) (chat : Chat)
  : Co Machine unit :=
  (try_send_task env chat processing ;;
   apiResult <- await (sendDocumentsToAPI_task env) ;;
   (match success apiResult, data_of apiResult with
    | true, Some data =>
      formattedReport <- atomic (format_data data) ;;
      co_try_catch
        (await (sendBotMessage_task env chat formattedReport) ;;
         await (sendBotMessage_task env chat concluded))
        (fun error => try_send_task env chat reportNotSent)
    | _, _ => try_send_task env chat (errorMessage (error_of apiResult))
    end) ;;
   atomic (set_state None) ;;
   atomic (set_visitDocuments []) ;;
   atomic (set_visitTexts []))%co.

Definition collect_text_task (env : Env) (message : Message) (chat : Chat)
    (userMessage : jsstring) : Co Machine unit :=
  if str_eq (type message) (js "chat") && truthy userMessage then
    let textFileName := textFileName env message in
    let textPath := path_join visitDocumentsDir textFileName in
    (atomic (writeFileSync env textPath (Utf8 userMessage)) ;;
     atomic (push_visitTexts userMessage) ;;
     try_send_task env chat textReceived)%co
  else co_ret tt.

Definition authenticated_menu_task (env : Env) (chat : Chat)
    (userMessage : jsstring) : Co Machine unit :=
  if str_eq userMessage (js "1") then
    await (sendBotMessage_task env chat visitsInDevelopment)
  else if str_eq userMessage (js "2") then
    (atomic (set_state (Some DOCUMENTING_VISIT)) ;;
     atomic (set_visitDocuments []) ;;
     atomic (set_visitTexts []) ;;
     await (sendBotMessage_task env chat documentationMode))%co
  else if isValidPin userMessage then
    (atomic (set_pin (Some userMessage)) ;;
     atomic (set_state (Some AUTHENTICATED)) ;;
     atomic (set_visitDocuments []) ;;
     atomic (set_visitTexts []) ;;
     await (sendBotMessage_task env chat menuMessage))%co
  else
    await (sendBotMessage_task env chat invalidOption).

Definition pin_verification_task (env : Env) (chat : Chat)
    (userMessage : jsstring) : Co Machine unit :=
  if isValidPin userMessage then
    (atomic (set_pin (Some userMessage)) ;;
     atomic (set_state (Some AUTHENTICATED)) ;;
     await (sendBotMessage_task env chat menuMessage))%co
  else
    await (sendBotMessage_task env chat pinInvalid).

(** [handleBotConversation] with its awaits, once the session of the sender
    has been looked up.  The state of the session is tested when the handler
    starts; what follows an [await] runs on the session as it is by then. *)
Definition conversation_task `{Process} (env : Env) (message : Message)
    (chat : Chat) : Co Machine unit :=
  let userMessage := userMessage_of message in
  if negb (truthy userMessage) && str_eq (type message) (js "chat") then co_ret tt
  else
    (documenting <- atomic (state_is (Some DOCUMENTING_VISIT)) ;;
     if negb (truthy userMessage) && negb (str_eq (type message) (js "chat"))
        && documenting
     then
       savedFiles <- await (handleMediaMessage_task env message true) ;;
       if (0 <? length savedFiles)%nat
       then try_send_task env chat documentsReceived
       else co_ret tt
     else if negb (truthy userMessage) then co_ret tt
     else
       unset <- atomic (state_is None) ;;
       if unset : bool then
         atomic (set_state (Some WAITING_PIN)) ;;
         await (sendBotMessage_task env chat greeting)
       else
         waiting <- atomic (state_is (Some WAITING_PIN)) ;;
         if waiting : bool then pin_verification_task env chat userMessage
         else
           authenticated <- atomic (state_is (Some AUTHENTICATED)) ;;
           if authenticated : bool
           then authenticated_menu_task env chat userMessage
           else
             documenting <- atomic (state_is (Some DOCUMENTING_VISIT)) ;;
             if documenting : bool then
               if finalizes userMessage then finalize_visit_task env chat
               else collect_text_task env message chat userMessage
             else co_ret tt)%co.

(** A task of a handler that works on the session of [userId], as a task on
    the registry.  The handler holds the session object of the map, so each
    stretch of it between two awaits runs on the session that the map holds
    when the stretch starts, and leaves its changes there. *)
Fixpoint as_sender {A} (userId : jsstring) (t : Task Machine A) : Task World A :=
  match t with
  | Settled result => Settled result
  | Suspended resume =>
    Suspended
      (fun w =>
         let '(s, sessions) := getUserSession userId (userSessions w) in
         let '(t', m) :=
           resume
             {| session := s; disk := world_disk w; outbox := world_outbox w;
                requests := world_requests w |} in
         (as_sender userId t',
          {| userSessions := <[userId := session m]> sessions;
             world_disk := disk m; world_outbox := outbox m;
             world_requests := requests m; messages := messages w |}))
  end.

Definition on_sender_task {A} (userId : jsstring) (c : Co Machine A) : Co World A :=
  fun w =>
    let '(s, sessions) := getUserSession userId (userSessions w) in
    let '(t, m) :=
      c {| session := s; disk := world_disk w; outbox := world_outbox w;
           requests := world_requests w |} in
    (as_sender userId t,
     {| userSessions := <[userId := session m]> sessions;
        world_disk := disk m; world_outbox := outbox m;
        world_requests := requests m; messages := messages w |}).

Definition handleBotConversation_task `{Process} (env : Env) (message : Message)
    (chat : Chat) (userId : jsstring) : Co World unit :=
  on_sender_task userId (conversation_task env message chat).

Definition archive_media_task (e : Event) : Co World (list jsstring) :=
  if is_audio (event_message e) || hasMedia (event_message e) then
    await (on_sender_task (event_user e)
             (handleMediaMessage_task (archive_env e) (event_message e) false))
  else co_ret [].

(** [processMessage] with its awaits: the chat and the contact, the media,
    the log, the conversation. *)
Definition processMessage_task `{Process} (e : Event) : Co World bool :=
  co_try_catch
    (await (match lookup_error e with
            | Some error => co_throw error
            | None => co_ret tt
            end) ;;
     let message := event_message e in
     let chat := event_chat e in
     if negb (isGroup chat)
        || negb (includes (toLowerCase (chat_name chat)) (js "grupo"))
     then co_ret false
     else
       savedFiles <- archive_media_task e ;;
       await (atomic (fun w =>
                        match saveMessageData_error e with
                        | Some error => (Thrown error, w)
                        | None => (Normal tt, saveMessageData e savedFiles w)
                        end)) ;;
       (if negb (fromMe message) then
          co_try_catch
            (await (handleBotConversation_task (event_env e) message chat
                      (event_user e)))
            (fun conversationError => co_ret tt)
        else co_ret tt) ;;
       co_ret true)%co
    (fun error => co_ret false).

Definition on_message_task `{Process} (from : jsstring) (e : Event) : Co World unit :=
  if truthy from then (await (processMessage_task e) ;; co_ret tt)%co
  else co_ret tt.

(** The event loop: a message arrives and its handler starts, or the handler
    that was started [i]-th is resumed, if it is suspended, and runs up to
    its next [await]. *)
Inductive Turn :=
| Arrives (from : jsstring) (e : Event)
| Resumes (i : nat).

Definition Loop : Type := list (Task World unit) * World.

Definition turn `{Process} (loop : Loop) (t : Turn) : Loop :=
  let '(handlers, w) := loop in
  match t with
  | Arrives from e =>
    let '(handler, w') := on_message_task from e w in
    (handlers ++ [handler], w')
  | Resumes i =>
    match handlers !! i with
    | Some (Suspended resume) =>
      let '(handler, w') := resume w in
      (<[i := handler]> handlers, w')
    | _ => loop
    end
  end.

Definition overlapped `{Process} (w : World) (turns : list Turn) : Loop :=
  fold_left turn turns ([], w).

(** The task [c] does, when it is not interrupted, what the function [f]
    does. *)
Definition refines {S A} (c : Co S A) (f : S -> Completion A * S) : Prop :=
  forall s, run_to_completion c s = f s.

Definition settled {S A} (t : Task S A) : bool :=
  match t with
  | Settled _ => true
  | Suspended _ => false
  end.

(** The turns in which the message [e] arrives as the [i]-th message and its
    handler is resumed thirty-two times on end, with no other handler in
    between; a handler that has settled is left as it is. *)
Definition in_turn (from : jsstring) (i : nat) (e : Event) : list Turn :=
  Arrives from e :: repeat (Resumes i) 32.

(** The messages handled in turn: the task of each message is resumed until
    it settles, with no other handler in between, before the task of the next
    message starts; for [processMessage] and for the conversation alone. *)
Definition messages_in_turn `{Process} (w : World) (events : list Event) : World :=
  fold_left (fun w e => snd (run_to_completion (processMessage_task e) w))
    events w.

Definition conversations_in_turn `{Process} (m : Machine) (events : list Event)
  : Machine :=
  fold_left
    (fun m e =>
       snd (run_to_completion
              (conversation_task (event_env e) (event_message e) (event_chat e))
              m))
    events m.

(** ** Vocabulary of the statements *)

(** Exactly six ASCII digits. *)
Definition six_ascii_digits (s : jsstring) : Prop :=
  length s = 6%nat /\ Forall (fun c => 48 <= c <= 57) s.

(** The record [sendBotMessage] leaves for a reply sent from machine [m]. *)
Definition reply (env : Env) (chat : Chat) (m : Machine) (messageText : jsstring)
  : Sent :=
  {| to := serialized chat; text := messageText;
     delivery := sendMessage env (length (outbox m)) |}.

(** The form [sendDocumentsToAPI] posts from machine [m]. *)
Definition handoff_form `{Process} (m : Machine) : FormData :=
  {| api_key := GEMINI_API_KEY; texts := visitTexts (session m);
     attached := existing_files (disk m) (visitDocuments (session m)) |}.

(** The session once the hand-off is over. *)
Definition reset_session (s : Session) : Session :=
  {| state := None; pin := pin s; visitDocuments := []; visitTexts := [] |}.

(** [s] with more documents, with one more text. *)
Definition add_documents (savedFiles : list jsstring) (s : Session) : Session :=
  {| state := state s; pin := pin s;
     visitDocuments := visitDocuments s ++ savedFiles;
     visitTexts := visitTexts s |}.

Definition add_text (t : jsstring) (s : Session) : Session :=
  {| state := state s; pin := pin s; visitDocuments := visitDocuments s;
     visitTexts := visitTexts s ++ [t] |}.

(** [u] is [kw] up to the case of its ASCII letters. *)
Definition matches_ignoring_case (u kw : jsstring) : Prop :=
  Forall2 (fun c k => c = k \/ (65 <= c <= 90 /\ c + 32 = k)) u kw.

(** A code unit that is no capital letter and no Latin-1 letter. *)
Definition plain (k : N) : Prop := (k < 65 \/ 90 < k) /\ k < 192.

(** The two finalize keywords of the documentation mode. *)
Definition finalize_keyword (u : jsstring) : Prop :=
  matches_ignoring_case u (js "0") \/ matches_ignoring_case u (js "sair").

(** A line of a medication entry: the label and the value when the value is
    there, nothing otherwise. *)
Definition sub_line (label : jsstring) (x : option jsstring) : jsstring :=
  match present_string x with
  | Some v => label ++ v ++ js "\n"
  | None => []
  end.

(** The report as the specification describes it: the title, then the
    sections of the fields that are there, in a fixed order.  Each section is
    [None] when its field is absent, and so is each line of the vital
    signs. *)
Definition patient_section (reportData : Report) : option jsstring :=
  option_map (fun p => js "👤 *Estado do Paciente:* " ++ p ++ js "\n\n")
    (present_string (patient_state reportData)).

Definition pressure_line (v : Vitals) : option jsstring :=
  match present_number (bp_systolic v), present_number (bp_diastolic v) with
  | Some s, Some d =>
    Some (js "• PA: " ++ toString s ++ js "/" ++ toString d ++ js " mmHg\n")
  | _, _ => None
  end.

Definition vital_line (label unit : jsstring) (value : option number)
  : option jsstring :=
  option_map (fun n => label ++ toString n ++ unit) (present_number value).

Definition vitals_section (reportData : Report) : option jsstring :=
  option_map
    (fun v =>
       js "🩺 *SINAIS VITAIS:*\n"
         ++ concat (omap (fun line => line)
                   [pressure_line v;
                             vital_line (js "• FC: ") (js " bpm\n") (hr v);
                             vital_line (js "• Temperatura: ") (js "°C\n")
                               (temp_c v);
                             vital_line (js "• SpO2: ") (js "%\n") (spo2 v)])
         ++ js "\n")
    (vitals reportData).

Definition list_section (title : jsstring) (field : option (list jsstring))
  : option jsstring :=
  option_map (fun items => title ++ concat (map bullet items) ++ js "\n")
    (present_list field).

(** An administered medication: its name, or N/A when the name is missing,
    then one line for each of dose, route and time that is there. *)
Definition medication_lines (med : Medication) : jsstring :=
  js "• *" ++ default (js "N/A") (present_string (name med)) ++ js "*\n"
    ++ sub_line (js "  Dose: ") (dose med)
    ++ sub_line (js "  Via: ") (route med)
    ++ sub_line (js "  Horário: ") (time med)
    ++ js "\n".

Definition administered_section (reportData : Report) : option jsstring :=
  option_map
    (fun meds =>
       js "💉 *MEDICAMENTOS ADMINISTRADOS:*\n"
         ++ concat (map medication_lines meds))
    (present_list (medications_administered reportData)).

Definition observations_section (reportData : Report) : option jsstring :=
  option_map (fun o => js "💭 *OBSERVAÇÕES:*\n" ++ o ++ js "\n\n")
    (present_string (observations reportData)).

Definition processed_section `{Process} (reportData : Report)
  : option jsstring :=
  option_map (fun d => js "⏰ *Processado em:* " ++ toLocaleString_ptBR d)
    (present_string (data_processamento reportData)).

Definition sections `{Process} (reportData : Report) : list (option jsstring) :=
  [patient_section reportData;
   vitals_section reportData;
   list_section (js "💊 *MEDICAMENTOS EM USO:*\n") (medications_in_use reportData);
   administered_section reportData;
   list_section (js "🧰 *MATERIAIS UTILIZADOS:*\n") (materials_used reportData);
   list_section (js "🔧 *INTERVENÇÕES REALIZADAS:*\n") (interventions reportData);
   list_section (js "📝 *RECOMENDAÇÕES:*\n") (recommendations reportData);
   observations_section reportData;
   processed_section reportData].

(** The moves of a session, read off the branches of the conversation. *)
Inductive transition : Session -> Session -> Prop :=
| stays s : transition s s
| greeted s :
    state s = None ->
    transition s
      {| state := Some WAITING_PIN; pin := pin s;
         visitDocuments := visitDocuments s; visitTexts := visitTexts s |}
| accepted s p :
    state s = Some WAITING_PIN -> isValidPin p = true ->
    transition s
      {| state := Some AUTHENTICATED; pin := Some p;
         visitDocuments := visitDocuments s; visitTexts := visitTexts s |}
| documents s :
    state s = Some AUTHENTICATED ->
    transition s
      {| state := Some DOCUMENTING_VISIT; pin := pin s; visitDocuments := [];
         visitTexts := [] |}
| restarted s p :
    state s = Some AUTHENTICATED -> isValidPin p = true ->
    transition s
      {| state := Some AUTHENTICATED; pin := Some p; visitDocuments := [];
         visitTexts := [] |}
| finalized s :
    state s = Some DOCUMENTING_VISIT -> transition s (reset_session s)
| noted s t :
    state s = Some DOCUMENTING_VISIT -> transition s (add_text t s)
| filed s savedFiles :
    state s = Some DOCUMENTING_VISIT -> transition s (add_documents savedFiles s).

(** The accumulators of a session are empty unless it is documenting. *)
Definition accumulators_idle (s : Session) : Prop :=
  state s <> Some DOCUMENTING_VISIT ->
  visitDocuments s = [] /\ visitTexts s = [].

(** Two sessions, two machines that differ at most in the stored PIN. *)
Definition same_but_pin (s1 s2 : Session) : Prop :=
  state s1 = state s2 /\ visitDocuments s1 = visitDocuments s2
  /\ visitTexts s1 = visitTexts s2.

Definition alike (m1 m2 : Machine) : Prop :=
  same_but_pin (session m1) (session m2) /\ disk m1 = disk m2
  /\ outbox m1 = outbox m2 /\ requests m1 = requests m2.

(** A message on which the session accepts a PIN. *)
Definition accepts_pin (s : Session) (message : Message) : Prop :=
  (state s = Some WAITING_PIN \/ state s = Some AUTHENTICATED)
  /\ isValidPin (userMessage_of message) = true.

(** Two events that differ at most in the text of the message. *)
Definition same_but_body (e1 e2 : Event) : Prop :=
  event_env e1 = event_env e2 /\ event_chat e1 = event_chat e2
  /\ event_user e1 = event_user e2
  /\ lookup_error e1 = lookup_error e2
  /\ archive_env e1 = archive_env e2
  /\ saveMessageData_error e1 = saveMessageData_error e2
  /\ id (event_message e1) = id (event_message e2)
  /\ type (event_message e1) = type (event_message e2)
  /\ hasMedia (event_message e1) = hasMedia (event_message e2)
  /\ fromMe (event_message e1) = fromMe (event_message e2).

(** Two sequences of events for one sender that are the same except for
    which valid PIN is sent where a PIN is accepted. *)
Inductive differ_in_accepted_pins `{Process}
  : Machine -> list Event -> list Event -> Prop :=
| differ_nil m : differ_in_accepted_pins m [] []
| differ_same m e l1 l2 :
    differ_in_accepted_pins (step m e) l1 l2 ->
    differ_in_accepted_pins m (e :: l1) (e :: l2)
| differ_pin m e1 e2 l1 l2 :
    accepts_pin (session m) (event_message e1) ->
    accepts_pin (session m) (event_message e2) ->
    same_but_body e1 e2 ->
    differ_in_accepted_pins (step m e1) l1 l2 ->
    differ_in_accepted_pins m (e1 :: l1) (e2 :: l2).

(** [env] with another answer of the extraction API. *)
Definition with_axios_post (a : Axios) (env : Env) : Env :=
  {| downloadMedia := downloadMedia env; now_saved := now_saved env;
     now_converted := now_converted env;
     writeFileSync_error := writeFileSync_error env;
     ffmpeg_version_ok := ffmpeg_version_ok env;
     ffmpeg_converts := ffmpeg_converts env;
     axios_post := a; sendMessage := sendMessage env |}.

(** [env] with other outcomes of the attempts to send. *)
Definition with_sendMessage (f : nat -> Delivery) (env : Env) : Env :=
  {| downloadMedia := downloadMedia env; now_saved := now_saved env;
     now_converted := now_converted env;
     writeFileSync_error := writeFileSync_error env;
     ffmpeg_version_ok := ffmpeg_version_ok env;
     ffmpeg_converts := ffmpeg_converts env;
     axios_post := axios_post env; sendMessage := f |}.

(** Every stored PIN is a valid PIN, and a session that is past the PIN check
    holds one. *)
Definition pin_recorded (s : Session) : Prop :=
  (forall p, pin s = Some p -> isValidPin p = true)
  /\ (state s = Some AUTHENTICATED \/ state s = Some DOCUMENTING_VISIT ->
      pin s <> None).

(** Every file of [d] is a file of [d']. *)
Definition keeps_files (d d' : gmap jsstring FileContent) : Prop :=
  forall filePath, is_Some (d !! filePath) -> is_Some (d' !! filePath).

(** Every document of the session is a file of the visit directory. *)
Definition documents_on_disk (d : gmap jsstring FileContent) (s : Session)
  : Prop :=
  Forall (fun fileName => is_Some (d !! path_join visitDocumentsDir fileName))
    (visitDocuments s).

(** The directory [handleMediaMessage] saves to. *)
Definition targetDir (message : Message) (isVisitDocument : bool) : jsstring :=
  if isVisitDocument then visitDocumentsDir
  else if is_audio message then audioDir else mediaDir.

(** The error [formatReportForWhatsApp] throws on the answer of the API, if
    it throws. *)
Definition formatter_throws (env : Env) : option Error :=
  match axios_post env with
  | Response true (Some (IllTyped typeError)) _ => Some typeError
  | _ => None
  end.

(** The replies of the hand-off when the outbox holds [n] messages: the
    notice that the data is being processed, then the report and the closing
    notice, or the notice that the report could not be sent as soon as one of
    the two is not delivered, or the error message; nothing more when the
    formatter throws. *)
Definition hand_off_replies `{Process} (env : Env) (chat : Chat) (n : nat)
  : list Sent :=
  let sent k messageText :=
    {| to := serialized chat; text := messageText;
       delivery := sendMessage env k |} in
  sent n processing ::
  match axios_post env with
  | Response true (Some (IllTyped _)) _ => []
  | Response true (Some (WellTyped data)) _ =>
    let report := sent (n + 1)%nat (formatReportForWhatsApp data) in
    match sendMessage env (n + 1)%nat with
    | Undelivered _ => [report; sent (n + 1 + 1)%nat reportNotSent]
    | _ =>
      let closing := sent (n + 1 + 1)%nat concluded in
      match sendMessage env (n + 1 + 1)%nat with
      | Undelivered _ =>
        [report; closing; sent (n + 1 + 1 + 1)%nat reportNotSent]
      | _ => [report; closing]
      end
    end
  | Response true None _ => [sent (n + 1)%nat (errorMessage Missing)]
  | Response false _ erro => [sent (n + 1)%nat (errorMessage erro)]
  | Rejected error =>
    [sent (n + 1)%nat (errorMessage (Text (message_of error)))]
  end.

(** How [sendBotMessage] completes from machine [m]: it throws the second
    error when both ways of sending fail. *)
Definition sent_or_thrown (env : Env) (m : Machine) : Completion unit :=
  match sendMessage env (length (outbox m)) with
  | Undelivered error2 => Thrown error2
  | _ => Normal tt
  end.

(** The result without its blank values: an empty string, the number zero
    and an empty list are replaced by a missing field. *)
Definition vitals_without_blanks (v : Vitals) : Vitals :=
  {| bp_systolic := present_number (bp_systolic v);
     bp_diastolic := present_number (bp_diastolic v);
     hr := present_number (hr v); temp_c := present_number (temp_c v);
     spo2 := present_number (spo2 v) |}.

Definition medication_without_blanks (med : Medication) : Medication :=
  {| name := present_string (name med); dose := present_string (dose med);
     route := present_string (route med); time := present_string (time med) |}.

Definition without_blanks (reportData : Report) : Report :=
  {| patient_state := present_string (patient_state reportData);
     vitals := option_map vitals_without_blanks (vitals reportData);
     medications_in_use := present_list (medications_in_use reportData);
     medications_administered :=
       option_map (map medication_without_blanks)
         (present_list (medications_administered reportData));
     materials_used := present_list (materials_used reportData);
     interventions := present_list (interventions reportData);
     recommendations := present_list (recommendations reportData);
     observations := present_string (observations reportData);
     data_processamento := present_string (data_processamento reportData) |}.

(** A string without a slash. *)
Definition no_slash (s : jsstring) : Prop := Forall (fun c => c <> 47) s.

(** What [handleMediaMessage] returns for a visit document; it does not
    depend on the machine it runs on. *)
Definition savedFiles_of (env : Env) (message : Message) : list jsstring :=
  match fst (handleMediaMessage env message true initial_machine) with
  | Normal savedFiles => savedFiles
  | Thrown _ => []
  end.

(** What is sent during a visit, between the text 2 and the finalize keyword:
    notes, which are chat messages with a text that is written to disk, and
    messages without text. *)
Definition visit_item (e : Event) : Prop :=
  let userMessage := trim (body (event_message e)) in
  userMessage = []
  \/ (type (event_message e) = js "chat"
      /\ ~ finalize_keyword userMessage
      /\ writeFileSync_error (event_env e) = None).

Definition note_of (e : Event) : list jsstring :=
  let userMessage := trim (body (event_message e)) in
  if truthy userMessage then [userMessage] else [].

Definition documents_of (e : Event) : list jsstring :=
  if truthy (trim (body (event_message e)))
     || str_eq (type (event_message e)) (js "chat")
  then []
  else savedFiles_of (event_env e) (event_message e).

Definition notes_of (items : list Event) : list jsstring :=
  flat_map note_of items.

Definition files_of (items : list Event) : list jsstring :=
  flat_map documents_of items.

(** ** Sample data *)

Module Sample.

#[export] Instance node : Process :=
  {| GEMINI_API_KEY := js "AIza-test-key";
     API_BASE_URL := js "http://localhost:8000";
     toLocaleString_ptBR := fun d => d |}.

(** A result in which nothing is set. *)
Definition empty_report : Report :=
  {| patient_state := None; vitals := None; medications_in_use := None;
     medications_administered := None; materials_used := None;
     interventions := None; recommendations := None; observations := None;
     data_processamento := None |}.

(** A result in which only [vitals.hr] is set, to 82. *)
Definition heart_rate_only : Report :=
  {| patient_state := None;
     vitals := Some {| bp_systolic := None; bp_diastolic := None;
                       hr := Some (number_of_Z 82); temp_c := None;
                       spo2 := None |};
     medications_in_use := None; medications_administered := None;
     materials_used := None; interventions := None; recommendations := None;
     observations := None; data_processamento := None |}.

(** An administered medication that has a name only. *)
Definition dipirona : Medication :=
  {| name := Some (js "Dipirona"); dose := None; route := None; time := None |}.

(** A medication without a name, with a dose. *)
Definition unnamed : Medication :=
  {| name := None; dose := Some (js "500 mg"); route := None; time := None |}.

(** A result with that medication and nothing else. *)
Definition dipirona_only : Report :=
  {| patient_state := None; vitals := None; medications_in_use := None;
     medications_administered := Some [dipirona]; materials_used := None;
     interventions := None; recommendations := None; observations := None;
     data_processamento := None |}.

Definition timed_out : Error :=
  {| message_of := js "timeout of 60000ms exceeded" |}.

(** A world in which everything works, ffmpeg is missing and the API answers
    with [heart_rate_only]. *)
Definition calm : Env :=
  {| downloadMedia := Media (js "image/jpeg") (js "/9j/4AAQSkZJRg==");
     now_saved := 1700000000000; now_converted := 1700000000250;
     writeFileSync_error := None; ffmpeg_version_ok := false;
     ffmpeg_converts := false;
     axios_post := Response true (Some (WellTyped heart_rate_only)) IsNull;
     sendMessage := fun _ => ViaChat |}.

Definition voice_env : Env :=
  {| downloadMedia := Media (js "audio/ogg; codecs=opus") (js "T2dnUwACAAAA");
     now_saved := 1700000000000; now_converted := 1700000000250;
     writeFileSync_error := None; ffmpeg_version_ok := true;
     ffmpeg_converts := false;
     axios_post := Response true (Some (WellTyped heart_rate_only)) IsNull;
     sendMessage := fun _ => ViaChat |}.

Definition group : Chat :=
  {| serialized := js "120363041234567890@g.us"; chat_name := js "Grupo Homecare";
     isGroup := true |}.

Definition chat_message (b : jsstring) : Message :=
  {| id := js "3EB0A1B2C3"; type := js "chat"; body := b; hasMedia := false;
     fromMe := false |}.

Definition image_message (caption : jsstring) : Message :=
  {| id := js "3EB0D4E5F6"; type := js "image"; body := caption; hasMedia := true;
     fromMe := false |}.

Definition voice_message : Message :=
  {| id := js "3EB0A7B8C9"; type := js "ptt"; body := []; hasMedia := true;
     fromMe := false |}.

Definition sender : jsstring := Eval vm_compute in js "5511999990000".

Definition event (e : Env) (msg : Message) : Event :=
  {| event_message := msg; event_chat := group; event_user := sender;
     lookup_error := None; archive_env := e; saveMessageData_error := None;
     event_env := e |}.

Definition machine (s : Session) : Machine :=
  {| session := s; disk := ∅; outbox := []; requests := [] |}.

(** The registry when the sample sender is its only user. *)
Definition world (s : Session) : World :=
  {| userSessions := {[ sender := s ]}; world_disk := ∅; world_outbox := [];
     world_requests := []; messages := [] |}.

Definition waiting : Session :=
  {| state := Some WAITING_PIN; pin := None; visitDocuments := [];
     visitTexts := [] |}.

Definition authenticated : Session :=
  {| state := Some AUTHENTICATED; pin := Some (js "111111"); visitDocuments := [];
     visitTexts := [] |}.

(** A documenting session that holds one picture and one note. *)
Definition documenting : Session :=
  {| state := Some DOCUMENTING_VISIT; pin := Some (js "111111");
     visitDocuments := [js "image_1699999999000_3EB0000001.jpeg"];
     visitTexts := [js "curativo trocado"] |}.

End Sample.
Import Sample.

(** * Properties *)

(** ** Strings and the PIN format *)

Lemma str_eq_true s t : str_eq s t = true <-> s = t.
Proof. unfold str_eq. apply bool_decide_eq_true. Qed.

Lemma str_eq_false s t : str_eq s t = false <-> s <> t.
Proof. unfold str_eq. apply bool_decide_eq_false. Qed.

Lemma isDigit_range c : isDigit c = true <-> 48 <= c <= 57.
Proof. unfold isDigit. rewrite andb_true_iff, !N.leb_le. tauto. Qed.

Lemma digits_exactly_Some n : forall s r,
  digits_exactly n s = Some r <->
  exists d, s = d ++ r /\ length d = n /\ Forall (fun c => isDigit c = true) d.
Proof.
  induction n as [|n IH]; intros s r; simpl.
  - split.
    + intros [= ->]. exists []. repeat split; constructor.
    + intros (d & -> & Hl & _). destruct d; [reflexivity | discriminate].
  - destruct s as [|c s].
    + split; [discriminate|]. intros (d & Hs & Hl & _).
      destruct d; [discriminate Hl | discriminate Hs].
    + destruct (isDigit c) eqn:Hc.
      * rewrite IH. split.
        -- intros (d & -> & Hl & Hd). exists (c :: d). simpl. repeat split; auto.
        -- intros (d & Hs & Hl & Hd). destruct d as [|c' d]; [discriminate Hl|].
           injection Hs as -> ->. injection Hl as Hl. inversion Hd; subst.
           exists d. auto.
      * split; [discriminate|]. intros (d & Hs & Hl & Hd).
        destruct d as [|c' d]; [discriminate Hl|]. injection Hs as -> ->.
        inversion Hd; subst. congruence.
Qed.

(** The regular expression accepts exactly the strings of six ASCII digits. *)
Lemma isValidPin_spec pin : isValidPin pin = true <-> six_ascii_digits pin.
Proof.
  unfold isValidPin, six_ascii_digits. split.
  - destruct (digits_exactly 6 pin) as [[|]|] eqn:E; try discriminate. intros _.
    apply digits_exactly_Some in E as (d & -> & Hl & Hd). rewrite app_nil_r.
    split; [exact Hl|]. eapply Forall_impl; [exact Hd|].
    intros c; apply isDigit_range.
  - intros [Hl Hd].
    assert (E : digits_exactly 6 pin = Some []).
    { apply digits_exactly_Some. exists pin. rewrite app_nil_r.
      repeat split; auto. eapply Forall_impl; [exact Hd|].
      intros c; apply isDigit_range. }
    rewrite E. reflexivity.
Qed.

Lemma valid_pin_truthy u : isValidPin u = true -> truthy u = true.
Proof. destruct u; [discriminate | reflexivity]. Qed.

Lemma valid_pin_not_option u :
  isValidPin u = true ->
  str_eq u (js "1") = false /\ str_eq u (js "2") = false.
Proof.
  intros Hu. split.
  - destruct (str_eq u (js "1")) eqn:E; [|reflexivity].
    apply str_eq_true in E. subst u. discriminate Hu.
  - destruct (str_eq u (js "2")) eqn:E; [|reflexivity].
    apply str_eq_true in E. subst u. discriminate Hu.
Qed.

Lemma userMessage_of_trim message : userMessage_of message = trim (body message).
Proof. unfold userMessage_of. destruct (body message); reflexivity. Qed.

Lemma truthy_false s : truthy s = false <-> s = [].
Proof. destruct s; simpl; split; congruence. Qed.

Lemma truthy_true s : truthy s = true <-> s <> [].
Proof. destruct s; simpl; split; congruence. Qed.

(** ** The dispatch of [handleBotConversation] *)

Section Conversation.
Context `{Process}.

Lemma bind_state_is {B} v (k : bool -> Async B) m :
  (b <- state_is v ;; k b) m = k (same_state (state (session m)) v) m.
Proof. reflexivity. Qed.

Ltac dispatch Hs :=
  repeat (rewrite bind_state_is; rewrite ?Hs; cbn [same_state negb andb]).

(** A message with text is handled by the branch of the session's state. *)
Lemma conversation_text env message chat m :
  truthy (userMessage_of message) = true ->
  conversation env message chat m =
  match state (session m) with
  | None => (set_state (Some WAITING_PIN) ;; sendBotMessage env chat greeting) m
  | Some WAITING_PIN => pin_verification env chat (userMessage_of message) m
  | Some AUTHENTICATED => authenticated_menu env chat (userMessage_of message) m
  | Some DOCUMENTING_VISIT =>
    if finalizes (userMessage_of message) then finalize_visit env chat m
    else collect_text env message chat (userMessage_of message) m
  end.
Proof.
  intros Hu. unfold conversation. cbn beta zeta. rewrite Hu. cbn [negb andb].
  destruct (state (session m)) as [[]|] eqn:Hs; dispatch Hs; try reflexivity.
  destruct (finalizes _); reflexivity.
Qed.

(** A message without text is a media message for a documenting session and
    is skipped otherwise. *)
Lemma conversation_empty env message chat m :
  truthy (userMessage_of message) = false ->
  conversation env message chat m =
  if str_eq (type message) (js "chat") then (Normal tt, m)
  else
    match state (session m) with
    | Some DOCUMENTING_VISIT =>
      (savedFiles <- handleMediaMessage env message true ;;
       if (0 <? length savedFiles)%nat then try_send env chat documentsReceived
       else ret tt) m
    | _ => (Normal tt, m)
    end.
Proof.
  intros Hu. unfold conversation. cbn beta zeta. rewrite Hu. cbn [negb andb].
  destruct (str_eq (type message) (js "chat")); [reflexivity|]. cbn [negb andb].
  destruct (state (session m)) as [[]|] eqn:Hs; dispatch Hs; reflexivity.
Qed.

Lemma sendBotMessage_snd env chat messageText m :
  snd (sendBotMessage env chat messageText m) =
  {| session := session m; disk := disk m;
     outbox := outbox m ++ [reply env chat m messageText];
     requests := requests m |}.
Proof. unfold sendBotMessage, reply. destruct (sendMessage env _); reflexivity. Qed.

Lemma try_send_eq env chat messageText m :
  try_send env chat messageText m =
  (Normal tt,
   {| session := session m; disk := disk m;
      outbox := outbox m ++ [reply env chat m messageText];
      requests := requests m |}).
Proof.
  unfold try_send, try_catch, sendBotMessage, reply.
  destruct (sendMessage env _); reflexivity.
Qed.

(** ** C8: the PIN check while waiting for a PIN *)

(** C8, as the monitor implements it.  While the session waits for a PIN, the
    text of a message is accepted exactly when, once trimmed of surrounding
    white space, it is six ASCII digits: then the PIN is stored, the menu is
    sent and the state is AUTHENTICATED.  Any other text that is not empty
    after trimming gets the invalid-PIN reply and leaves the session as it
    was; a message whose text is empty after trimming is skipped without a
    reply. *)
Theorem pin_accepted_iff_six_digits_after_trim env message chat m :
  state (session m) = Some WAITING_PIN ->
  let userMessage := trim (body message) in
  let m' := snd (conversation env message chat m) in
  (six_ascii_digits userMessage ->
     session m' =
       {| state := Some AUTHENTICATED; pin := Some userMessage;
          visitDocuments := visitDocuments (session m);
          visitTexts := visitTexts (session m) |}
     /\ outbox m' = outbox m ++ [reply env chat m menuMessage])
  /\ (userMessage <> [] -> ~ six_ascii_digits userMessage ->
      session m' = session m
      /\ outbox m' = outbox m ++ [reply env chat m pinInvalid])
  /\ (userMessage = [] -> m' = m).
Proof.
  intros Hs userMessage m'. subst userMessage m'.
  rewrite <- userMessage_of_trim. split; [|split].
  - intros Hpin. apply isValidPin_spec in Hpin.
    rewrite conversation_text, Hs by (apply valid_pin_truthy, Hpin).
    unfold pin_verification. rewrite Hpin.
    unfold bind, set_pin, set_state, on_session. cbn [session disk outbox requests].
    rewrite sendBotMessage_snd. split; reflexivity.
  - intros Hne Hnot. apply truthy_true in Hne.
    rewrite conversation_text, Hs by exact Hne.
    unfold pin_verification.
    destruct (isValidPin (userMessage_of message)) eqn:Hpin.
    + apply isValidPin_spec in Hpin. contradiction.
    + rewrite sendBotMessage_snd. split; reflexivity.
  - intros He. apply truthy_false in He.
    rewrite conversation_empty, Hs by exact He.
    destruct (str_eq _ _); reflexivity.
Qed.

End Conversation.

(** C8 as the specification words it fails on surrounding white space and on the
    empty text: the text [" 123456 "] is not six digits, yet the waiting
    session accepts it; and an empty text gets no invalid-PIN reply at all. *)
Lemma pin_with_surrounding_space_accepted :
  let padded := chat_message (js " 123456 ") in
  let empty := chat_message [] in
  length (body padded) = 8%nat
  /\ state (session (step (machine waiting) (event calm padded)))
     = Some AUTHENTICATED
  /\ pin (session (step (machine waiting) (event calm padded)))
     = Some (js "123456")
  /\ outbox (step (machine waiting) (event calm empty)) = [].
Proof. vm_compute. repeat split; reflexivity. Qed.

(** The bad PIN of the recovery scenario: [12a456] is refused and the session
    goes on waiting. *)
Lemma pin_accepted_iff_six_digits_after_trim_witness :
  let m := machine waiting in
  let message := chat_message (js "12a456") in
  state (session m) = Some WAITING_PIN
  /\ session (snd (conversation calm message group m)) = session m
  /\ outbox (snd (conversation calm message group m))
     = outbox m ++ [reply calm group m pinInvalid].
Proof.
  intros m message. split; [reflexivity|].
  apply (pin_accepted_iff_six_digits_after_trim calm message group m).
  - reflexivity.
  - vm_compute. discriminate.
  - rewrite <- isValidPin_spec. vm_compute. discriminate.
Defined.

(** ** C1: a valid PIN sent again *)

Section Reauthentication.
Context `{Process}.

(** C1, as the monitor implements it.  For every session in state AUTHENTICATED,
    a message whose trimmed text is a valid six-digit PIN is a
    re-authentication: the new PIN is stored, both accumulators are emptied,
    the menu is sent and the session ends in state AUTHENTICATED; nothing is
    written and nothing is posted. *)
Theorem valid_pin_reauthenticates env message chat m :
  state (session m) = Some AUTHENTICATED ->
  isValidPin (trim (body message)) = true ->
  let m' := snd (conversation env message chat m) in
  session m' =
    {| state := Some AUTHENTICATED; pin := Some (trim (body message));
       visitDocuments := []; visitTexts := [] |}
  /\ outbox m' = outbox m ++ [reply env chat m menuMessage]
  /\ disk m' = disk m /\ requests m' = requests m.
Proof.
  intros Hs Hpin m'. subst m'. rewrite <- userMessage_of_trim in *.
  rewrite conversation_text, Hs by (apply valid_pin_truthy, Hpin).
  unfold authenticated_menu.
  destruct (valid_pin_not_option _ Hpin) as [-> ->]. rewrite Hpin.
  unfold bind, set_pin, set_state, set_visitDocuments, set_visitTexts, on_session.
  cbn [session disk outbox requests].
  rewrite sendBotMessage_snd. repeat split; reflexivity.
Qed.

End Reauthentication.

(** C1 as the specification words it fails for a documenting session: the PIN is
    taken as one more note, nothing is cleared, the reply is the receipt of
    a text and the session goes on documenting. *)
Lemma valid_pin_while_documenting_is_a_note :
  let m' := step (machine documenting) (event calm (chat_message (js "123456"))) in
  isValidPin (trim (js "123456")) = true
  /\ state (session m') = Some DOCUMENTING_VISIT
  /\ visitDocuments (session m') = visitDocuments documenting
  /\ visitTexts (session m') = visitTexts documenting ++ [js "123456"]
  /\ pin (session m') = pin documenting
  /\ map text (outbox m') = [textReceived].
Proof. vm_compute. repeat split; reflexivity. Qed.

Lemma valid_pin_reauthenticates_witness :
  let m := machine authenticated in
  let message := chat_message (js "654321") in
  let m' := snd (conversation calm message group m) in
  state (session m) = Some AUTHENTICATED
  /\ isValidPin (trim (body message)) = true
  /\ session m' =
       {| state := Some AUTHENTICATED; pin := Some (trim (body message));
          visitDocuments := []; visitTexts := [] |}
  /\ outbox m' = outbox m ++ [reply calm group m menuMessage]
  /\ disk m' = disk m /\ requests m' = requests m.
Proof.
  intros m message m'. split; [reflexivity|]. split; [reflexivity|].
  apply (valid_pin_reauthenticates calm message group m); reflexivity.
Defined.

(** ** The hand-off: C2, C3 and C6 *)

Lemma lower_eq c k :
  plain k -> lower c = k <-> c = k \/ (65 <= c <= 90 /\ c + 32 = k).
Proof.
  unfold plain, lower. intros Hk.
  destruct (65 <=? c) eqn:E1; destruct (c <=? 90) eqn:E2;
    destruct (192 <=? c) eqn:E3; destruct (c <=? 222) eqn:E4;
    destruct (c =? 215) eqn:E5; cbn [andb negb];
    rewrite ?N.leb_le, ?N.leb_gt, ?N.eqb_eq, ?N.eqb_neq in *; lia.
Qed.

Lemma toLowerCase_eq u : forall kw,
  Forall plain kw -> toLowerCase u = kw <-> matches_ignoring_case u kw.
Proof.
  unfold matches_ignoring_case, toLowerCase.
  induction u as [|c u IH]; intros kw Hkw; simpl.
  - split.
    + intros <-. constructor.
    + intros Hm. inversion Hm. reflexivity.
  - destruct kw as [|k kw].
    + split; [discriminate | intros Hm; inversion Hm].
    + inversion Hkw as [|? ? Hk Hkw']; subst. split.
      * intros [= Hc Hu]. constructor.
        -- apply lower_eq; assumption.
        -- apply IH; assumption.
      * intros Hm. inversion Hm as [|? ? ? ? Hc Hu]; subst. f_equal.
        -- apply lower_eq; assumption.
        -- apply IH; assumption.
Qed.

(** The finalize test holds exactly for 0 and for sair in any case. *)
Lemma finalizes_spec u : finalizes u = true <-> finalize_keyword u.
Proof.
  unfold finalizes, finalize_keyword.
  rewrite orb_true_iff, !str_eq_true.
  rewrite !toLowerCase_eq; [reflexivity| |];
    vm_compute; repeat constructor; discriminate.
Qed.

Lemma finalizes_truthy u : finalizes u = true -> truthy u = true.
Proof. destruct u; [discriminate | reflexivity]. Qed.

(** Unfolds the media handler down to the answers of the world. *)
Ltac run_media :=
  unfold handleMediaMessage, try_catch, bind, await_downloadMedia, writeFileSync,
    checkFFmpegAvailable, convertAudioToWav, push_visitDocuments,
    set_visitDocuments, on_session, ret, throw;
  cbn [session disk outbox requests state pin visitDocuments visitTexts].

Section Handoff.
Context `{Process}.

(** What the hand-off does: one form is posted, and the session is reset
    unless the formatter throws. *)
Lemma finalize_visit_outcome env chat m :
  finalize_visit env chat m =
  (match formatter_throws env with
   | Some typeError => Thrown typeError
   | None => Normal tt
   end,
   {| session :=
        match formatter_throws env with
        | Some _ => session m
        | None => reset_session (session m)
        end;
      disk := disk m;
      outbox := outbox m ++ hand_off_replies env chat (length (outbox m));
      requests := requests m ++ [handoff_form m] |}).
Proof.
  unfold finalize_visit, handoff_form, reset_session, hand_off_replies,
    formatter_throws.
  unfold bind at 1. rewrite try_send_eq.
  unfold bind at 1. unfold sendDocumentsToAPI. cbn [session disk outbox requests].
  destruct (axios_post env) as [[] [[d|typeError]|] e|err];
    cbn [success data_of error_of].
  3-7: unfold bind at 1; rewrite try_send_eq; unfold reply;
    cbn [session disk outbox requests bind set_state set_visitDocuments
         set_visitTexts on_session];
    rewrite ?length_app; cbn [length]; rewrite <- ?app_assoc; reflexivity.
  2: { unfold bind, format_data, throw, reply. cbn [session disk outbox requests].
       destruct m as [s d o r]; reflexivity. }
  unfold try_catch, bind, try_send, try_catch, sendBotMessage, reply, format_data,
    ret.
  cbn [session disk outbox requests].
  rewrite ?length_app; cbn [length].
  repeat (match goal with
          | |- context [ match sendMessage env ?k with _ => _ end ] =>
            destruct (sendMessage env k)
          end;
          cbn [session disk outbox requests]; rewrite ?length_app; cbn [length]);
    cbn [set_state set_visitDocuments set_visitTexts on_session session disk
         outbox requests state pin visitDocuments visitTexts];
    rewrite <- ?app_assoc; reflexivity.
Qed.

(** What collecting a text does. *)
Lemma collect_text_eq env message chat userMessage m :
  collect_text env message chat userMessage m =
  if str_eq (type message) (js "chat") && truthy userMessage then
    match writeFileSync_error env with
    | Some e => (Thrown e, m)
    | None =>
      (Normal tt,
       {| session := add_text userMessage (session m);
          disk := <[path_join visitDocumentsDir (textFileName env message)
                    := Utf8 userMessage]> (disk m);
          outbox := outbox m ++ [reply env chat m textReceived];
          requests := requests m |})
    end
  else (Normal tt, m).
Proof.
  unfold collect_text. destruct (_ && _); [|reflexivity].
  unfold bind at 1. unfold writeFileSync.
  destruct (writeFileSync_error env); [reflexivity|].
  unfold bind, push_visitTexts, set_visitTexts, on_session.
  cbn [session disk outbox requests]. rewrite try_send_eq. reflexivity.
Qed.

(** [handleMediaMessage] never throws, sends nothing, posts nothing and
    touches the session only by pushing the saved files when asked to. *)
Lemma handleMediaMessage_frame env message flag m :
  exists savedFiles d,
    handleMediaMessage env message flag m =
    (Normal savedFiles,
     {| session := add_documents (if flag then savedFiles else []) (session m);
        disk := d; outbox := outbox m; requests := requests m |}).
Proof.
  destruct m as [[st p docs txts] dsk out reqs]. unfold add_documents. run_media.
  destruct (is_audio message), (hasMedia message),
    (downloadMedia env) as [e| |mt dt], flag, (writeFileSync_error env),
    (ffmpeg_version_ok env), (ffmpeg_converts env);
    cbn [session disk outbox requests state pin visitDocuments visitTexts];
    try destruct (truthy mt);
    cbn [session disk outbox requests state pin visitDocuments visitTexts];
    do 2 eexists; first [reflexivity | rewrite app_nil_r; reflexivity].
Qed.

(** C2, as the monitor implements it.  For every documenting session, a message
    that carries a finalize keyword completes normally and leaves the
    session reset: state [null] (not AUTHENTICATED), the PIN kept, both
    accumulators empty; one form has been posted and no file has been
    written.  This holds for a report that the formatter renders, for
    success without data, for a failure flag and for a rejected request,
    whatever is or is not delivered to the chat; it leaves out the answer
    on which the formatter throws. *)
Theorem finalize_resets_session env message chat m :
  state (session m) = Some DOCUMENTING_VISIT ->
  finalizes (trim (body message)) = true ->
  formatter_throws env = None ->
  let r := conversation env message chat m in
  fst r = Normal tt
  /\ session (snd r) =
       {| state := None; pin := pin (session m); visitDocuments := [];
          visitTexts := [] |}
  /\ disk (snd r) = disk m
  /\ requests (snd r) = requests m ++ [handoff_form m].
Proof.
  intros Hs Hf Hformat r. subst r. rewrite <- userMessage_of_trim in Hf.
  rewrite conversation_text, Hs, Hf by (apply finalizes_truthy, Hf).
  rewrite finalize_visit_outcome, Hformat.
  repeat split; reflexivity.
Qed.

(** C3, as the monitor implements it.  For every documenting session, a message
    whose trimmed text is 0 or sair in any case triggers the hand-off and is
    not captured: the form posted is the one built from the accumulators as
    they were, no file is written, and both accumulators end empty, or are
    left as they were when the formatter throws on the answer of the API.  No
    other message posts anything. *)
Theorem handoff_iff_finalize_keyword env message chat m :
  state (session m) = Some DOCUMENTING_VISIT ->
  let userMessage := trim (body message) in
  let m' := snd (conversation env message chat m) in
  (finalize_keyword userMessage ->
     requests m' = requests m ++ [handoff_form m]
     /\ disk m' = disk m
     /\ (formatter_throws env = None ->
         visitTexts (session m') = [] /\ visitDocuments (session m') = [])
     /\ (formatter_throws env <> None -> session m' = session m))
  /\ (~ finalize_keyword userMessage -> requests m' = requests m).
Proof.
  intros Hs userMessage m'. subst userMessage m'.
  rewrite <- userMessage_of_trim. split.
  - intros Hk. apply finalizes_spec in Hk.
    rewrite conversation_text, Hs, Hk by (apply finalizes_truthy, Hk).
    rewrite finalize_visit_outcome. cbn [snd session disk requests].
    destruct (formatter_throws env);
      repeat split; try reflexivity; try discriminate; congruence.
  - intros Hk. rewrite <- finalizes_spec in Hk. apply not_true_is_false in Hk.
    destruct (truthy (userMessage_of message)) eqn:Hu.
    + rewrite conversation_text, Hs, Hk, collect_text_eq by exact Hu.
      destruct (_ && _); [|reflexivity].
      destruct (writeFileSync_error env); reflexivity.
    + rewrite conversation_empty, Hs by exact Hu.
      destruct (str_eq _ _); [reflexivity|].
      destruct (handleMediaMessage_frame env message true m) as (sf & d & E).
      unfold bind. rewrite E.
      destruct (0 <? length sf)%nat; [rewrite try_send_eq|]; reflexivity.
Qed.

(** C6, as the monitor implements it.  A rejected request and a failure flag are
    returned in the same shape, [{success: false, error}], and reported with
    the same template: when the message of the rejection equals the text of
    the flagged error, the result of the call and the whole outcome of the
    hand-off are the same. *)
Theorem transport_failure_reported_as_application_failure
    env chat m (error : Error) (dados : option Dados) :
  let rejected := with_axios_post (Rejected error) env in
  let flagged :=
    with_axios_post (Response false dados (Text (message_of error))) env in
  sendDocumentsToAPI rejected m = sendDocumentsToAPI flagged m
  /\ fst (sendDocumentsToAPI rejected m)
     = Normal {| success := false; data_of := None;
                 error_of := Text (message_of error) |}
  /\ finalize_visit rejected chat m = finalize_visit flagged chat m.
Proof.
  intros rejected flagged. split; [reflexivity|]. split; [reflexivity|].
  unfold finalize_visit, bind, try_send, try_catch, sendBotMessage,
    sendDocumentsToAPI.
  reflexivity.
Qed.

End Handoff.

(** C2 as the specification words it fails on the final state: for a report,
    for a failure flag and for a rejected request, the hand-off leaves the
    session in state [null], from which the next text is greeted with the PIN
    prompt, and not in state AUTHENTICATED. *)
Lemma finalize_leaves_state_null :
  let zero := chat_message (js "0") in
  let flagged := with_axios_post (Response false None (Text (js "sem dados"))) calm in
  let rejected := with_axios_post (Rejected timed_out) calm in
  state (session (step (machine documenting) (event calm zero))) = None
  /\ state (session (step (machine documenting) (event flagged zero))) = None
  /\ state (session (step (machine documenting) (event rejected zero))) = None
  /\ map text (outbox (steps (machine documenting)
                         [event calm zero; event calm (chat_message (js "2"))]))
     = [processing; formatReportForWhatsApp heart_rate_only; concluded; greeting].
Proof. vm_compute. repeat split; reflexivity. Qed.

Lemma finalize_resets_session_witness :
  let m := machine documenting in
  let message := chat_message (js "Sair") in
  let r := conversation (with_axios_post (Rejected timed_out) calm) message group m in
  state (session m) = Some DOCUMENTING_VISIT
  /\ finalizes (trim (body message)) = true
  /\ fst r = Normal tt
  /\ session (snd r) =
       {| state := None; pin := pin (session m); visitDocuments := [];
          visitTexts := [] |}
  /\ disk (snd r) = disk m
  /\ requests (snd r) = requests m ++ [handoff_form m].
Proof.
  intros m message r. split; [reflexivity|]. split; [reflexivity|].
  apply (finalize_resets_session _ message group m); reflexivity.
Defined.

(** C3 as the specification words it fails on the word exit, which is no
    finalize keyword: it is filed as a note and nothing is posted.  It also
    fails on surrounding white space: the text ["sair "] is not the keyword,
    yet it finalizes. *)
Lemma exit_is_captured_as_a_note :
  let m' := step (machine documenting) (event calm (chat_message (js "exit"))) in
  let m'' := step (machine documenting) (event calm (chat_message (js "sair "))) in
  requests m' = []
  /\ state (session m') = Some DOCUMENTING_VISIT
  /\ visitTexts (session m') = visitTexts documenting ++ [js "exit"]
  /\ str_eq (toLowerCase (js "sair ")) (js "sair") = false
  /\ length (requests m'') = 1%nat.
Proof. vm_compute. repeat split; reflexivity. Qed.

Lemma handoff_iff_finalize_keyword_witness :
  let m := machine documenting in
  let message := chat_message (js "exit") in
  state (session m) = Some DOCUMENTING_VISIT
  /\ requests (snd (conversation calm message group m)) = requests m.
Proof.
  intros m message. split; [reflexivity|].
  apply (handoff_iff_finalize_keyword calm message group m); [reflexivity|].
  rewrite <- finalizes_spec. vm_compute. discriminate.
Defined.

(** C6 as the specification words it fails: a request that times out and a
    failure flagged by the API with the same text give the same result and
    the same replies. *)
Lemma timeout_indistinguishable_from_flagged_failure :
  let rejected := with_axios_post (Rejected timed_out) calm in
  let flagged :=
    with_axios_post (Response false None (Text (message_of timed_out))) calm in
  let zero := chat_message (js "0") in
  fst (sendDocumentsToAPI rejected (machine documenting))
  = fst (sendDocumentsToAPI flagged (machine documenting))
  /\ outbox (step (machine documenting) (event rejected zero))
     = outbox (step (machine documenting) (event flagged zero))
  /\ map text (outbox (step (machine documenting) (event rejected zero)))
     = [processing; errorMessage (Text (message_of timed_out))].
Proof. vm_compute. repeat split; reflexivity. Qed.

(** ** The media store: C4 and C7 *)

Lemma is_audio_not_chat message :
  is_audio message = true -> str_eq (type message) (js "chat") = false.
Proof.
  unfold is_audio. rewrite orb_true_iff, !str_eq_true, str_eq_false.
  intros [-> | ->]; discriminate.
Qed.

Section MediaStore.
Context `{Process}.

(** An audio payload that is saved and not converted. *)
Lemma handleMediaMessage_raw_audio env message m mimetype data :
  is_audio message = true ->
  downloadMedia env = Media mimetype data ->
  writeFileSync_error env = None ->
  ffmpeg_version_ok env && ffmpeg_converts env = false ->
  handleMediaMessage env message true m =
  (Normal [originalFileName env message mimetype],
   {| session := add_documents [originalFileName env message mimetype] (session m);
      disk := <[path_join visitDocumentsDir (originalFileName env message mimetype)
                := Base64 data]> (disk m);
      outbox := outbox m; requests := requests m |}).
Proof.
  intros Ha Hd Hw Hf. run_media. rewrite Ha, Hd, Hw.
  destruct (ffmpeg_version_ok env);
    [destruct (ffmpeg_converts env); [discriminate|]|]; reflexivity.
Qed.

(** An audio payload that is saved and converted. *)
Lemma handleMediaMessage_converted_audio env message m mimetype data :
  is_audio message = true ->
  downloadMedia env = Media mimetype data ->
  writeFileSync_error env = None ->
  ffmpeg_version_ok env && ffmpeg_converts env = true ->
  let raw := originalFileName env message mimetype in
  let wav := wavFileName env message in
  handleMediaMessage env message true m =
  (Normal [raw; wav],
   {| session := add_documents [raw; wav] (session m);
      disk := <[path_join visitDocumentsDir wav
                := Wav (path_join visitDocumentsDir raw)]>
                (<[path_join visitDocumentsDir raw := Base64 data]> (disk m));
      outbox := outbox m; requests := requests m |}).
Proof.
  intros Ha Hd Hw Hf. apply andb_true_iff in Hf as [Hv Hc].
  run_media. rewrite Ha, Hd, Hw, Hv, Hc. reflexivity.
Qed.

(** A picture or a document that is saved. *)
Lemma handleMediaMessage_other_media env message m mimetype data :
  is_audio message = false ->
  hasMedia message = true ->
  downloadMedia env = Media mimetype data ->
  truthy mimetype = true ->
  writeFileSync_error env = None ->
  handleMediaMessage env message true m =
  (Normal [mediaFileName env message mimetype],
   {| session := add_documents [mediaFileName env message mimetype] (session m);
      disk := <[path_join visitDocumentsDir (mediaFileName env message mimetype)
                := Base64 data]> (disk m);
      outbox := outbox m; requests := requests m |}).
Proof.
  intros Ha Hm Hd Ht Hw. run_media. rewrite Ha, Hm, Hd, Ht, Hw. reflexivity.
Qed.

(** The media branch of the conversation once the files are saved. *)
Lemma conversation_media env message chat m savedFiles m1 :
  state (session m) = Some DOCUMENTING_VISIT ->
  trim (body message) = [] ->
  str_eq (type message) (js "chat") = false ->
  handleMediaMessage env message true m = (Normal savedFiles, m1) ->
  savedFiles <> [] ->
  conversation env message chat m =
  (Normal tt,
   {| session := session m1; disk := disk m1;
      outbox := outbox m1 ++ [reply env chat m1 documentsReceived];
      requests := requests m1 |}).
Proof.
  intros Hs Hb Ht Hm Hne. rewrite <- userMessage_of_trim in Hb.
  rewrite conversation_empty, Ht, Hs by (apply truthy_false, Hb).
  unfold bind. rewrite Hm.
  destruct savedFiles; [contradiction|]. cbn [length Nat.ltb Nat.leb].
  apply try_send_eq.
Qed.

(** C7.  For every audio message that reaches a documenting session with no
    text, whose payload is downloaded and written, if ffmpeg is missing or
    the conversion fails then the media handler returns normally with the
    name of the raw payload alone, and the conversation completes normally:
    exactly one reference, the name of the raw payload, is pushed to the
    documents, the raw payload is on disk under that name and the receipt is
    sent. *)
Theorem audio_kept_when_transcoding_fails env message chat m mimetype data :
  state (session m) = Some DOCUMENTING_VISIT ->
  is_audio message = true ->
  trim (body message) = [] ->
  downloadMedia env = Media mimetype data ->
  writeFileSync_error env = None ->
  ffmpeg_version_ok env = false \/ ffmpeg_converts env = false ->
  let raw := originalFileName env message mimetype in
  fst (handleMediaMessage env message true m) = Normal [raw]
  /\ conversation env message chat m =
     (Normal tt,
      {| session := add_documents [raw] (session m);
         disk := <[path_join visitDocumentsDir raw := Base64 data]> (disk m);
         outbox := outbox m ++ [reply env chat m documentsReceived];
         requests := requests m |}).
Proof.
  intros Hs Ha Hb Hd Hw Hf raw.
  assert (Hf' : ffmpeg_version_ok env && ffmpeg_converts env = false).
  { destruct Hf as [-> | ->]; [reflexivity | apply andb_false_r]. }
  pose proof (handleMediaMessage_raw_audio env message m mimetype data
                Ha Hd Hw Hf') as Hm.
  split; [rewrite Hm; reflexivity|].
  erewrite conversation_media;
    [ | exact Hs | exact Hb | apply is_audio_not_chat, Ha | exact Hm
      | discriminate ].
  reflexivity.
Qed.

(** X25.  A media message without text is collected.  For every media
    message (audio, or any other type with media and a MIME type) that
    reaches a documenting session with no text after trimming, and whose
    payload is downloaded and written: the conversation completes normally;
    the payload is written to the visit directory under the name made for
    it, and for an audio that ffmpeg converts the converted copy is there
    beside it; exactly these names are pushed to the documents, the payload
    first; the receipt is sent; state, PIN, notes and requests are as
    before. *)
Theorem media_without_text_is_collected env message chat m mimetype data :
  state (session m) = Some DOCUMENTING_VISIT ->
  trim (body message) = [] ->
  type message <> js "chat" ->
  is_audio message = true \/ (hasMedia message = true /\ mimetype <> []) ->
  downloadMedia env = Media mimetype data ->
  writeFileSync_error env = None ->
  let payload :=
    if is_audio message then originalFileName env message mimetype
    else mediaFileName env message mimetype in
  let converted :=
    is_audio message && ffmpeg_version_ok env && ffmpeg_converts env in
  let copy := wavFileName env message in
  let written :=
    <[path_join visitDocumentsDir payload := Base64 data]> (disk m) in
  conversation env message chat m =
  (Normal tt,
   {| session :=
        add_documents (if converted then [payload; copy] else [payload])
          (session m);
      disk :=
        if converted
        then <[path_join visitDocumentsDir copy
               := Wav (path_join visitDocumentsDir payload)]> written
        else written;
      outbox := outbox m ++ [reply env chat m documentsReceived];
      requests := requests m |}).
Proof.
  intros Hs Hb Ht Hkind Hd Hw payload converted copy written.
  subst payload converted copy written. apply str_eq_false in Ht.
  destruct (is_audio message) eqn:Ha; cbn [andb].
  - destruct (ffmpeg_version_ok env && ffmpeg_converts env) eqn:Hf.
    + erewrite conversation_media;
        [ | exact Hs | exact Hb | exact Ht
          | apply handleMediaMessage_converted_audio; eassumption | discriminate ].
      reflexivity.
    + erewrite conversation_media;
        [ | exact Hs | exact Hb | exact Ht
          | apply handleMediaMessage_raw_audio; eassumption | discriminate ].
      reflexivity.
  - destruct Hkind as [? | [Hm Hmt]]; [discriminate|]. apply truthy_true in Hmt.
    erewrite conversation_media;
      [ | exact Hs | exact Hb | exact Ht
        | apply handleMediaMessage_other_media; eassumption | discriminate ].
    reflexivity.
Qed.

End MediaStore.

(** C4 fails for a picture with a caption: in a documenting session the
    conversation leaves the machine as it was, so the picture is neither
    referenced nor acknowledged, although the same picture without its
    caption is collected and the instructions of the documentation mode ask
    for pictures.  Through [processMessage] the picture is archived in the
    media directory like the media of any message, but it is not in the
    visit directory and the session is unchanged. *)
Lemma captioned_picture_is_dropped :
  let m := machine documenting in
  let picture := image_message (js "ferida no calcanhar") in
  let saved := mediaFileName calm picture (js "image/jpeg") in
  let w' := deliver (world documenting) (event calm picture) in
  let uncaptioned := deliver (world documenting) (event calm (image_message [])) in
  hasMedia picture = true
  /\ downloadMedia calm = Media (js "image/jpeg") (js "/9j/4AAQSkZJRg==")
  /\ conversation calm picture group m = (Normal tt, m)
  /\ userSessions w' !! sender = Some documenting
  /\ world_outbox w' = []
  /\ world_disk w' !! path_join visitDocumentsDir saved = None
  /\ world_disk w' !! path_join mediaDir saved
     = Some (Base64 (js "/9j/4AAQSkZJRg=="))
  /\ userSessions uncaptioned !! sender
     = Some (add_documents [saved] documenting)
  /\ world_disk uncaptioned !! path_join visitDocumentsDir saved
     = Some (Base64 (js "/9j/4AAQSkZJRg=="))
  /\ map text (world_outbox uncaptioned) = [documentsReceived].
Proof. vm_compute. repeat split; reflexivity. Qed.

Lemma media_without_text_is_collected_witness :
  let m := machine documenting in
  let picture := image_message [] in
  let payload := mediaFileName calm picture (js "image/jpeg") in
  conversation calm picture group m =
  (Normal tt,
   {| session := add_documents [payload] (session m);
      disk := <[path_join visitDocumentsDir payload
                := Base64 (js "/9j/4AAQSkZJRg==")]> (disk m);
      outbox := outbox m ++ [reply calm group m documentsReceived];
      requests := requests m |}).
Proof.
  intros m picture payload.
  apply (media_without_text_is_collected calm picture group m
           (js "image/jpeg") (js "/9j/4AAQSkZJRg==")).
  - reflexivity.
  - reflexivity.
  - discriminate.
  - right. split; [reflexivity | discriminate].
  - reflexivity.
  - reflexivity.
Defined.

(** The scenario of the missing transcoder: a voice note, ffmpeg answering
    but failing to convert. *)
Lemma audio_kept_when_transcoding_fails_witness :
  let m := machine documenting in
  let raw := originalFileName voice_env voice_message (js "audio/ogg; codecs=opus") in
  fst (handleMediaMessage voice_env voice_message true m) = Normal [raw]
  /\ conversation voice_env voice_message group m =
     (Normal tt,
      {| session := add_documents [raw] (session m);
         disk := <[path_join visitDocumentsDir raw := Base64 (js "T2dnUwACAAAA")]>
                   (disk m);
         outbox := outbox m ++ [reply voice_env group m documentsReceived];
         requests := requests m |}).
Proof.
  intros m raw.
  apply (audio_kept_when_transcoding_fails voice_env voice_message group m
           (js "audio/ogg; codecs=opus") (js "T2dnUwACAAAA")).
  - reflexivity.
  - reflexivity.
  - reflexivity.
  - reflexivity.
  - reflexivity.
  - right. reflexivity.
Defined.

(** ** The moves of a session *)

Section Moves.
Context `{Process}.

Lemma greeting_snd env chat m :
  snd ((set_state (Some WAITING_PIN) ;; sendBotMessage env chat greeting) m) =
  {| session :=
       {| state := Some WAITING_PIN; pin := pin (session m);
          visitDocuments := visitDocuments (session m);
          visitTexts := visitTexts (session m) |};
     disk := disk m;
     outbox := outbox m ++ [reply env chat m greeting];
     requests := requests m |}.
Proof.
  unfold bind, set_state, on_session. cbn [session disk outbox requests].
  rewrite sendBotMessage_snd. reflexivity.
Qed.

Lemma pin_verification_snd env chat userMessage m :
  snd (pin_verification env chat userMessage m) =
  if isValidPin userMessage then
    {| session :=
         {| state := Some AUTHENTICATED; pin := Some userMessage;
            visitDocuments := visitDocuments (session m);
            visitTexts := visitTexts (session m) |};
       disk := disk m;
       outbox := outbox m ++ [reply env chat m menuMessage];
       requests := requests m |}
  else
    {| session := session m; disk := disk m;
       outbox := outbox m ++ [reply env chat m pinInvalid];
       requests := requests m |}.
Proof.
  unfold pin_verification. destruct (isValidPin userMessage).
  - unfold bind, set_pin, set_state, on_session.
    cbn [session disk outbox requests]. rewrite sendBotMessage_snd. reflexivity.
  - rewrite sendBotMessage_snd. reflexivity.
Qed.

Lemma authenticated_menu_snd env chat userMessage m :
  snd (authenticated_menu env chat userMessage m) =
  if str_eq userMessage (js "1") then
    {| session := session m; disk := disk m;
       outbox := outbox m ++ [reply env chat m visitsInDevelopment];
       requests := requests m |}
  else if str_eq userMessage (js "2") then
    {| session :=
         {| state := Some DOCUMENTING_VISIT; pin := pin (session m);
            visitDocuments := []; visitTexts := [] |};
       disk := disk m;
       outbox := outbox m ++ [reply env chat m documentationMode];
       requests := requests m |}
  else if isValidPin userMessage then
    {| session :=
         {| state := Some AUTHENTICATED; pin := Some userMessage;
            visitDocuments := []; visitTexts := [] |};
       disk := disk m;
       outbox := outbox m ++ [reply env chat m menuMessage];
       requests := requests m |}
  else
    {| session := session m; disk := disk m;
       outbox := outbox m ++ [reply env chat m invalidOption];
       requests := requests m |}.
Proof.
  unfold authenticated_menu.
  destruct (str_eq userMessage (js "1")); [rewrite sendBotMessage_snd; reflexivity|].
  destruct (str_eq userMessage (js "2")).
  { unfold bind, set_state, set_visitDocuments, set_visitTexts, on_session.
    cbn [session disk outbox requests]. rewrite sendBotMessage_snd. reflexivity. }
  destruct (isValidPin userMessage); [|rewrite sendBotMessage_snd; reflexivity].
  unfold bind, set_pin, set_state, set_visitDocuments, set_visitTexts, on_session.
  cbn [session disk outbox requests]. rewrite sendBotMessage_snd. reflexivity.
Qed.

(** Every message moves the session of its sender along [transition]. *)
Lemma conversation_transition env message chat m :
  transition (session m) (session (snd (conversation env message chat m))).
Proof.
  destruct (truthy (userMessage_of message)) eqn:Hu.
  - rewrite conversation_text by exact Hu.
    destruct (state (session m)) as [[]|] eqn:Hs.
    + rewrite pin_verification_snd.
      destruct (isValidPin _) eqn:Hp; [apply accepted; assumption | apply stays].
    + rewrite authenticated_menu_snd.
      destruct (str_eq _ (js "1")); [apply stays|].
      destruct (str_eq _ (js "2")); [apply documents; assumption|].
      destruct (isValidPin _) eqn:Hp; [apply restarted; assumption | apply stays].
    + destruct (finalizes _).
      * rewrite finalize_visit_outcome. cbn [snd session].
        destruct (formatter_throws env); [apply stays | apply finalized; assumption].
      * rewrite collect_text_eq. destruct (_ && _); [|apply stays].
        destruct (writeFileSync_error env); [apply stays|].
        apply noted. assumption.
    + rewrite greeting_snd. apply greeted. assumption.
  - rewrite conversation_empty by exact Hu.
    destruct (str_eq _ _); [apply stays|].
    destruct (state (session m)) as [[]|] eqn:Hs; try apply stays.
    destruct (handleMediaMessage_frame env message true m) as (sf & d & E).
    unfold bind. rewrite E.
    destruct (0 <? length sf)%nat; [rewrite try_send_eq|];
      apply filed; assumption.
Qed.

Lemma transition_idle s s' :
  transition s s' -> accumulators_idle s -> accumulators_idle s'.
Proof.
  unfold accumulators_idle.
  destruct 1 as [s|s Hs|s p Hs Hp|s Hs|s p Hs Hp|s Hs|s t Hs|s sf Hs];
    cbn [state visitDocuments visitTexts reset_session add_text add_documents];
    intros Hidle Hne; try (apply Hidle; congruence); try (split; reflexivity);
    try contradiction.
Qed.

Lemma transition_leaves_documenting s s' :
  transition s s' ->
  state s = Some DOCUMENTING_VISIT -> state s' <> Some DOCUMENTING_VISIT ->
  s' = reset_session s.
Proof.
  destruct 1 as [s|s Hs|s p Hs Hp|s Hs|s p Hs Hp|s Hs|s t Hs|s sf Hs];
    cbn [state add_text add_documents]; intros Hd Hne;
    try congruence; try contradiction.
Qed.

(** A handler that keeps the accumulators idle keeps them idle in the
    registry. *)
Lemma on_sender_idle {A} userId (handler : Async A) w :
  (forall m, accumulators_idle (session m) ->
             accumulators_idle (session (snd (handler m)))) ->
  map_Forall (fun _ s => accumulators_idle s) (userSessions w) ->
  map_Forall (fun _ s => accumulators_idle s)
    (userSessions (snd (on_sender userId handler w))).
Proof.
  intros Hh Hw. unfold on_sender, getUserSession.
  destruct (userSessions w !! userId) as [s|] eqn:Hl.
  - specialize (Hh {| session := s; disk := world_disk w;
                      outbox := world_outbox w; requests := world_requests w |}).
    destruct (handler _) as [c m']. cbn [snd userSessions session] in *.
    apply map_Forall_insert_2; [|exact Hw]. apply Hh. exact (Hw _ _ Hl).
  - specialize (Hh {| session := new_session; disk := world_disk w;
                      outbox := world_outbox w; requests := world_requests w |}).
    destruct (handler _) as [c m']. cbn [snd userSessions session] in *.
    apply map_Forall_insert_2.
    + apply Hh. intros _. split; reflexivity.
    + apply map_Forall_insert_2; [|exact Hw]. intros _. split; reflexivity.
Qed.

Lemma archive_idle env message m :
  accumulators_idle (session m) ->
  accumulators_idle (session (snd (handleMediaMessage env message false m))).
Proof.
  destruct (handleMediaMessage_frame env message false m) as (sf & d & ->).
  unfold accumulators_idle, add_documents.
  cbn [snd session state visitDocuments visitTexts]. rewrite app_nil_r. auto.
Qed.

Lemma deliver_idle w e :
  map_Forall (fun _ s => accumulators_idle s) (userSessions w) ->
  map_Forall (fun _ s => accumulators_idle s) (userSessions (deliver w e)).
Proof.
  intros Hw. unfold deliver, processMessage.
  destruct (lookup_error e); [exact Hw|].
  destruct (_ || _); [exact Hw|].
  assert (H1 : map_Forall (fun _ s => accumulators_idle s)
                 (userSessions (snd (archive_media e w)))).
  { unfold archive_media. destruct (_ || _); [|exact Hw].
    apply on_sender_idle; [|exact Hw]. intros m. apply archive_idle. }
  destruct (archive_media e w) as [archived w1]. cbn [snd] in H1.
  destruct archived as [savedFiles|error]; [|exact H1].
  destruct (saveMessageData_error e); [exact H1|].
  destruct (negb _); [|exact H1]. cbn [snd].
  unfold handleBotConversation. apply on_sender_idle; [|exact H1].
  intros m. apply transition_idle, conversation_transition.
Qed.

Lemma run_idle events : forall w,
  map_Forall (fun _ s => accumulators_idle s) (userSessions w) ->
  map_Forall (fun _ s => accumulators_idle s) (userSessions (run w events)).
Proof.
  induction events as [|e events IH]; intros w Hw; [exact Hw|].
  apply IH, deliver_idle, Hw.
Qed.

(** Handled in turn, the messages leave the accumulators of every session
    empty unless the session is documenting. *)
Lemma accumulators_idle_in_turn :
  (forall events userId s,
     userSessions (run initial_world events) !! userId = Some s ->
     state s <> Some DOCUMENTING_VISIT ->
     visitDocuments s = [] /\ visitTexts s = [])
  /\ (forall m e,
        state (session m) = Some DOCUMENTING_VISIT ->
        state (session (step m e)) <> Some DOCUMENTING_VISIT ->
        visitDocuments (session (step m e)) = []
        /\ visitTexts (session (step m e)) = []).
Proof.
  split.
  - intros events userId s Hl.
    assert (Hall : map_Forall (fun _ s => accumulators_idle s)
                     (userSessions (run initial_world events))).
    { apply run_idle. cbn. apply map_Forall_empty. }
    exact (Hall _ _ Hl).
  - intros m e Hd Hne.
    unfold step in *.
    rewrite (transition_leaves_documenting _ _
               (conversation_transition _ _ _ m) Hd Hne).
    split; reflexivity.
Qed.

End Moves.

(** ** The stored PIN is never read: C10 *)

Ltac split_alike m1 m2 Ha :=
  destruct m1 as [[st1 p1 docs1 txts1] dsk1 out1 reqs1];
  destruct m2 as [[st2 p2 docs2 txts2] dsk2 out2 reqs2];
  destruct Ha as ((Hst & Hdocs & Htxts) & Hdsk & Hout & Hreqs);
  cbn [session disk outbox requests state pin visitDocuments visitTexts] in *;
  subst st2 docs2 txts2 dsk2 out2 reqs2.

Ltac close_alike :=
  unfold alike, same_but_pin, reply, add_text, add_documents;
  cbn [fst snd session disk outbox requests state pin visitDocuments visitTexts];
  repeat split; congruence.

Section StoredPin.
Context `{Process}.

Lemma alike_refl m : alike m m.
Proof. close_alike. Qed.

Lemma finalize_visit_alike env chat m1 m2 :
  alike m1 m2 ->
  alike (snd (finalize_visit env chat m1)) (snd (finalize_visit env chat m2)).
Proof.
  intros Ha. split_alike m1 m2 Ha.
  unfold finalize_visit, bind, try_send, try_catch, sendBotMessage,
    sendDocumentsToAPI, set_state, set_visitDocuments, set_visitTexts, on_session,
    format_data, ret, throw.
  cbn [session disk outbox requests state pin visitDocuments visitTexts].
  destruct (axios_post env) as [[] [[d|typeError]|] e|err];
    cbn [success data_of error_of];
    repeat (match goal with
            | |- context [ sendMessage env ?k ] => destruct (sendMessage env k)
            end;
            cbn [session disk outbox requests state pin visitDocuments visitTexts]);
    close_alike.
Qed.

Lemma handleMediaMessage_alike env message flag m1 m2 :
  alike m1 m2 ->
  fst (handleMediaMessage env message flag m1)
  = fst (handleMediaMessage env message flag m2)
  /\ alike (snd (handleMediaMessage env message flag m1))
       (snd (handleMediaMessage env message flag m2)).
Proof.
  intros Ha. split_alike m1 m2 Ha. run_media.
  destruct (is_audio message), (hasMedia message),
    (downloadMedia env) as [e| |mt dt], flag, (writeFileSync_error env),
    (ffmpeg_version_ok env), (ffmpeg_converts env);
    cbn [session disk outbox requests state pin visitDocuments visitTexts];
    try destruct (truthy mt);
    cbn [fst snd session disk outbox requests state pin visitDocuments visitTexts];
    (split; [reflexivity | close_alike]).
Qed.

(** The same message takes machines that differ in the stored PIN to
    machines that differ in the stored PIN. *)
Lemma step_alike m1 m2 e : alike m1 m2 -> alike (step m1 e) (step m2 e).
Proof.
  intros Ha. unfold step.
  generalize (event_env e) (event_message e) (event_chat e).
  intros env message chat.
  assert (Hst : state (session m1) = state (session m2)) by apply Ha.
  destruct (truthy (userMessage_of message)) eqn:Hu.
  - rewrite !conversation_text by exact Hu. rewrite <- Hst.
    destruct (state (session m1)) as [[]|].
    + rewrite !pin_verification_snd. destruct (isValidPin _).
      all: destruct Ha as ((? & ? & ?) & ? & ? & ?); close_alike.
    + rewrite !authenticated_menu_snd.
      destruct (str_eq _ (js "1")); [|destruct (str_eq _ (js "2"));
        [|destruct (isValidPin _)]].
      all: destruct Ha as ((? & ? & ?) & ? & ? & ?); close_alike.
    + destruct (finalizes _); [apply finalize_visit_alike, Ha|].
      rewrite !collect_text_eq. destruct (_ && _); [|exact Ha].
      destruct (writeFileSync_error env); [exact Ha|].
      destruct Ha as ((? & ? & ?) & ? & ? & ?); close_alike.
    + rewrite !greeting_snd.
      destruct Ha as ((? & ? & ?) & ? & ? & ?); close_alike.
  - rewrite !conversation_empty by exact Hu. rewrite <- Hst.
    destruct (str_eq _ _); [exact Ha|].
    destruct (state (session m1)) as [[]|]; try exact Ha.
    destruct (handleMediaMessage_alike env message true m1 m2 Ha) as [Hf Hs].
    unfold bind.
    destruct (handleMediaMessage env message true m1) as [c1 n1].
    destruct (handleMediaMessage env message true m2) as [c2 n2].
    cbn [fst snd] in Hf, Hs. subst c2. destruct c1 as [sf|err]; [|exact Hs].
    destruct (0 <? length sf)%nat; [|exact Hs].
    rewrite !try_send_eq.
    destruct Hs as ((? & ? & ?) & ? & ? & ?); close_alike.
Qed.

(** Two valid PINs sent where a PIN is accepted lead to machines that differ
    in the stored PIN only. *)
Lemma step_alike_pin m1 m2 e1 e2 :
  alike m1 m2 ->
  accepts_pin (session m1) (event_message e1) ->
  accepts_pin (session m1) (event_message e2) ->
  same_but_body e1 e2 ->
  alike (step m1 e1) (step m2 e2).
Proof.
  intros Ha [Hs1 Hp1] [_ Hp2] (Henv & Hchat & _).
  unfold step. rewrite <- Henv, <- Hchat.
  assert (Hst : state (session m1) = state (session m2)) by apply Ha.
  rewrite !conversation_text by (apply valid_pin_truthy; assumption).
  rewrite <- Hst. destruct Hs1 as [-> | ->].
  - rewrite !pin_verification_snd, Hp1, Hp2.
    destruct Ha as ((? & ? & ?) & ? & ? & ?); close_alike.
  - rewrite !authenticated_menu_snd.
    destruct (valid_pin_not_option _ Hp1) as [-> ->].
    destruct (valid_pin_not_option _ Hp2) as [-> ->].
    rewrite Hp1, Hp2.
    destruct Ha as ((? & ? & ?) & ? & ? & ?); close_alike.
Qed.

(** A message posts nothing, or the form built with the key of the process. *)
Lemma step_requests m e :
  requests (step m e) = requests m
  \/ requests (step m e) = requests m ++ [handoff_form m].
Proof.
  unfold step. generalize (event_env e) (event_message e) (event_chat e).
  intros env message chat.
  destruct (truthy (userMessage_of message)) eqn:Hu.
  - rewrite conversation_text by exact Hu.
    destruct (state (session m)) as [[]|].
    + rewrite pin_verification_snd. destruct (isValidPin _); left; reflexivity.
    + rewrite authenticated_menu_snd.
      destruct (str_eq _ (js "1")); [|destruct (str_eq _ (js "2"));
        [|destruct (isValidPin _)]]; left; reflexivity.
    + destruct (finalizes _).
      * rewrite finalize_visit_outcome. right. reflexivity.
      * rewrite collect_text_eq. destruct (_ && _); [|left; reflexivity].
        destruct (writeFileSync_error env); left; reflexivity.
    + rewrite greeting_snd. left. reflexivity.
  - rewrite conversation_empty by exact Hu.
    destruct (str_eq _ _); [left; reflexivity|].
    destruct (state (session m)) as [[]|]; try (left; reflexivity).
    destruct (handleMediaMessage_frame env message true m) as (sf & d & E).
    unfold bind. rewrite E.
    destruct (0 <? length sf)%nat; [rewrite try_send_eq|]; left; reflexivity.
Qed.

Lemma steps_api_key events : forall m,
  Forall (fun form => api_key form = GEMINI_API_KEY) (requests m) ->
  Forall (fun form => api_key form = GEMINI_API_KEY) (requests (steps m events)).
Proof.
  induction events as [|e events IH]; intros m Hm; [exact Hm|].
  apply IH. destruct (step_requests m e) as [-> | ->]; [exact Hm|].
  apply Forall_app. split; [exact Hm|]. repeat constructor.
Qed.

(** C10.  The stored PIN is never read.  Two runs for one sender whose messages
    are the same, except that where a PIN is accepted they may carry
    different valid PINs, and which start from machines that differ at most
    in the stored PIN, send the same replies, post the same forms and write
    the same files; and every form posted carries the key of the process. *)
Theorem accepted_pin_never_observed m1 m2 l1 l2 :
  alike m1 m2 ->
  differ_in_accepted_pins m1 l1 l2 ->
  outbox (steps m1 l1) = outbox (steps m2 l2)
  /\ requests (steps m1 l1) = requests (steps m2 l2)
  /\ disk (steps m1 l1) = disk (steps m2 l2)
  /\ (Forall (fun form => api_key form = GEMINI_API_KEY) (requests m1) ->
      Forall (fun form => api_key form = GEMINI_API_KEY) (requests (steps m1 l1))).
Proof.
  intros Ha Hd.
  assert (Hfinal : alike (steps m1 l1) (steps m2 l2)).
  { revert m2 Ha. induction Hd as [m|m e l1 l2 Hd IH|m e1 e2 l1 l2 H1 H2 Hb Hd IH];
      intros m2 Ha; cbn [steps fold_left].
    - exact Ha.
    - apply IH, step_alike, Ha.
    - apply IH, step_alike_pin; assumption. }
  destruct Hfinal as (_ & Hdisk & Hout & Hreq).
  repeat split; try assumption. apply steps_api_key.
Qed.

End StoredPin.

(** The happy path with two different PINs: hello, a PIN, 2, a note, 0. *)
Lemma accepted_pin_never_observed_witness :
  let run_with p :=
    [event calm (chat_message (js "hello")); event calm (chat_message p);
     event calm (chat_message (js "2"));
     event calm (chat_message (js "paciente bem")); event calm (chat_message (js "0"))] in
  let l1 := run_with (js "123456") in
  let l2 := run_with (js "654321") in
  outbox (steps initial_machine l1) = outbox (steps initial_machine l2)
  /\ requests (steps initial_machine l1) = requests (steps initial_machine l2)
  /\ disk (steps initial_machine l1) = disk (steps initial_machine l2)
  /\ (Forall (fun form => api_key form = GEMINI_API_KEY) (requests initial_machine) ->
      Forall (fun form => api_key form = GEMINI_API_KEY)
        (requests (steps initial_machine l1))).
Proof.
  intros run_with l1 l2.
  apply (accepted_pin_never_observed initial_machine initial_machine l1 l2).
  - apply alike_refl.
  - apply differ_same. apply differ_pin.
    + split; [left; reflexivity | reflexivity].
    + split; [left; reflexivity | reflexivity].
    + repeat split; reflexivity.
    + apply differ_same, differ_same, differ_same, differ_nil.
Defined.

(** ** The report: C9 *)

Lemma forEach_concat {A} (line : A -> jsstring) l : forall message,
  forEach l line message = message ++ concat (map line l).
Proof.
  unfold forEach. induction l as [|a l IH]; intros message; cbn.
  - rewrite app_nil_r. reflexivity.
  - rewrite IH, <- app_assoc. reflexivity.
Qed.

Lemma present_string_idem x : present_string (present_string x) = present_string x.
Proof. destruct x as [[|c s]|]; reflexivity. Qed.

Lemma present_number_idem x : present_number (present_number x) = present_number x.
Proof.
  destruct x as [n|]; [|reflexivity]. cbn.
  destruct (nonzero n) eqn:Hn; [|reflexivity]. cbn. rewrite Hn. reflexivity.
Qed.

Lemma present_list_idem {A} (x : option (list A)) :
  present_list (present_list x) = present_list x.
Proof. destruct x as [[|a l]|]; reflexivity. Qed.

Lemma add_patient_state_appends reportData message :
  add_patient_state reportData message
  = message ++ add_patient_state reportData [].
Proof.
  unfold add_patient_state. destruct (present_string _);
    rewrite ?app_nil_l, ?app_nil_r; reflexivity.
Qed.

Lemma add_vitals_appends reportData message :
  add_vitals reportData message = message ++ add_vitals reportData [].
Proof.
  unfold add_vitals, add_blood_pressure, add_heart_rate, add_temperature,
    add_saturation.
  destruct (vitals reportData) as [v|]; [|rewrite app_nil_r; reflexivity].
  cbv zeta.
  destruct (present_number (bp_systolic v)), (present_number (bp_diastolic v)),
    (present_number (hr v)), (present_number (temp_c v)),
    (present_number (spo2 v));
    rewrite ?app_nil_l, <- ?app_assoc; reflexivity.
Qed.

Lemma add_list_appends title x message :
  add_list title x message = message ++ add_list title x [].
Proof.
  unfold add_list. destruct (present_list x) as [l|];
    [|rewrite app_nil_r; reflexivity].
  rewrite !forEach_concat, app_nil_l, <- !app_assoc. reflexivity.
Qed.

Lemma add_medications_administered_appends reportData message :
  add_medications_administered reportData message
  = message ++ add_medications_administered reportData [].
Proof.
  unfold add_medications_administered. destruct (present_list _) as [l|];
    [|rewrite app_nil_r; reflexivity].
  rewrite !forEach_concat, app_nil_l, <- !app_assoc. reflexivity.
Qed.

Lemma add_observations_appends reportData message :
  add_observations reportData message = message ++ add_observations reportData [].
Proof.
  unfold add_observations. destruct (present_string _);
    rewrite ?app_nil_l, ?app_nil_r; reflexivity.
Qed.

Lemma medication_entry_without_blanks med :
  medication_entry (medication_without_blanks med) = medication_entry med.
Proof.
  unfold medication_entry, medication_without_blanks. cbn [name dose route time].
  rewrite !present_string_idem. reflexivity.
Qed.

Section Formatter.
Context `{Process}.

Lemma add_processed_appends reportData message :
  add_processed reportData message = message ++ add_processed reportData [].
Proof.
  unfold add_processed. destruct (present_string _);
    rewrite ?app_nil_l, ?app_nil_r; reflexivity.
Qed.


Lemma medication_entry_lines med :
  medication_entry med =
  js "• *" ++ default (js "N/A") (present_string (name med)) ++ js "*\n"
    ++ sub_line (js "  Dose: ") (dose med)
    ++ sub_line (js "  Via: ") (route med)
    ++ sub_line (js "  Horário: ") (time med)
    ++ js "\n".
Proof.
  unfold medication_entry, sub_line.
  destruct (present_string (dose med)), (present_string (route med)),
    (present_string (time med));
    rewrite <- ?app_assoc, ?app_nil_l; reflexivity.
Qed.

(** C9, as the monitor implements it.  For every result, the report is the
    title followed by the sections of the fields that are there, in the order
    of the formatter, each as the specification renders it: a field that is
    absent contributes no text at all, no heading and no placeholder, whatever
    the other fields hold, and so does each line of the vital signs.  An
    administered medication is rendered as its name, or N/A when the name is
    absent, followed by one line for each of dose, route and time that is
    present: a missing dose, route or time gives no line and no placeholder.
    In particular a result in which nothing is set is rendered as the title,
    and a result in which only the heart rate is set, to 82, as the title, the
    heading of the vital signs and the heart-rate line. *)
Theorem absent_fields_are_omitted (reportData : Report) :
  formatReportForWhatsApp reportData
  = report_title
      ++ concat (omap (fun section => section) (sections reportData))
  /\ formatReportForWhatsApp empty_report = report_title
  /\ formatReportForWhatsApp heart_rate_only
     = report_title ++ js "🩺 *SINAIS VITAIS:*\n" ++ js "• FC: 82 bpm\n" ++ js "\n".
Proof.
  split; [|split; reflexivity].
  unfold formatReportForWhatsApp. cbv zeta.
  rewrite add_processed_appends, add_observations_appends.
  rewrite (add_list_appends (js "📝 *RECOMENDAÇÕES:*\n")).
  rewrite (add_list_appends (js "🔧 *INTERVENÇÕES REALIZADAS:*\n")).
  rewrite (add_list_appends (js "🧰 *MATERIAIS UTILIZADOS:*\n")).
  rewrite add_medications_administered_appends.
  rewrite (add_list_appends (js "💊 *MEDICAMENTOS EM USO:*\n")).
  rewrite add_vitals_appends, (add_patient_state_appends _ report_title).
  rewrite <- !app_assoc. f_equal.
  assert (Hlist : forall title field,
             add_list title field [] = default [] (list_section title field)).
  { intros title field. unfold add_list, list_section.
    destruct (present_list field) as [items|]; [|reflexivity].
    cbn [option_map from_option Datatypes.id].
    rewrite forEach_concat, app_nil_l, <- app_assoc. reflexivity. }
  assert (Hpatient : add_patient_state reportData []
                     = default [] (patient_section reportData)).
  { unfold add_patient_state, patient_section.
    destruct (present_string (patient_state reportData));
      cbn [option_map from_option Datatypes.id]; rewrite ?app_nil_l; reflexivity. }
  assert (Hvitals : add_vitals reportData []
                    = default [] (vitals_section reportData)).
  { unfold add_vitals, vitals_section, add_blood_pressure, add_heart_rate,
      add_temperature, add_saturation, pressure_line, vital_line.
    destruct (vitals reportData) as [v|]; [|reflexivity].
    cbv zeta. cbn [option_map from_option Datatypes.id].
    destruct (present_number (bp_systolic v)), (present_number (bp_diastolic v)),
      (present_number (hr v)), (present_number (temp_c v)),
      (present_number (spo2 v));
      cbn [option_map from_option Datatypes.id omap list_omap concat];
      rewrite ?app_nil_l, ?app_nil_r, <- ?app_assoc; reflexivity. }
  assert (Hmeds : add_medications_administered reportData []
                  = default [] (administered_section reportData)).
  { unfold add_medications_administered, administered_section.
    destruct (present_list (medications_administered reportData)) as [meds|];
      [|reflexivity].
    cbn [option_map from_option Datatypes.id]. rewrite forEach_concat, app_nil_l.
    do 2 f_equal. apply map_ext, medication_entry_lines. }
  assert (Hobservations : add_observations reportData []
                          = default [] (observations_section reportData)).
  { unfold add_observations, observations_section.
    destruct (present_string (observations reportData));
      cbn [option_map from_option Datatypes.id]; rewrite ?app_nil_l; reflexivity. }
  assert (Hprocessed : add_processed reportData []
                       = default [] (processed_section reportData)).
  { unfold add_processed, processed_section.
    destruct (present_string (data_processamento reportData));
      cbn [option_map from_option Datatypes.id]; rewrite ?app_nil_l; reflexivity. }
  rewrite !Hlist, Hpatient, Hvitals, Hmeds, Hobservations, Hprocessed.
  unfold sections. cbn [omap list_omap].
  destruct (patient_section reportData), (vitals_section reportData),
    (list_section (js "💊 *MEDICAMENTOS EM USO:*\n") (medications_in_use reportData)),
    (administered_section reportData),
    (list_section (js "🧰 *MATERIAIS UTILIZADOS:*\n") (materials_used reportData)),
    (list_section (js "🔧 *INTERVENÇÕES REALIZADAS:*\n") (interventions reportData)),
    (list_section (js "📝 *RECOMENDAÇÕES:*\n") (recommendations reportData)),
    (observations_section reportData), (processed_section reportData);
    cbn [from_option Datatypes.id concat]; rewrite ?app_nil_l, ?app_nil_r, <- ?app_assoc;
    reflexivity.
Qed.

End Formatter.

(** C9 as the specification words it fails on the sub-fields of a medication:
    with the name present and dose, route and time missing, the entry is the
    name alone, with no placeholder for any of them; the placeholder N/A
    stands for a missing name. *)
Lemma missing_dose_has_no_placeholder :
  name dipirona = Some (js "Dipirona") /\ dose dipirona = None
  /\ formatReportForWhatsApp dipirona_only
     = report_title ++ js "💉 *MEDICAMENTOS ADMINISTRADOS:*\n"
         ++ js "• *Dipirona*\n" ++ js "\n"
  /\ medication_entry unnamed
     = js "• *N/A*\n" ++ js "  Dose: 500 mg\n" ++ js "\n".
Proof. vm_compute. repeat split; reflexivity. Qed.

(** ** Scenarios *)

(** The happy path through [processMessage]: a greeting, the PIN, option 2, a
    voice note and the keyword 0.  The form posted carries one file and no
    note, and the session ends reset, with the PIN kept. *)
Example happy_path :
  let events :=
    [event calm (chat_message (js "hello"));
     event calm (chat_message (js "123456"));
     event calm (chat_message (js "2"));
     event voice_env voice_message;
     event calm (chat_message (js "0"))] in
  let w := run initial_world events in
  map text (world_outbox w)
  = [greeting; menuMessage; documentationMode; documentsReceived; processing;
     formatReportForWhatsApp heart_rate_only; concluded]
  /\ map (fun form => (length (texts form), length (attached form)))
       (world_requests w) = [(0%nat, 1%nat)]
  /\ userSessions w !! sender
     = Some {| state := None; pin := Some (js "123456"); visitDocuments := [];
               visitTexts := [] |}.
Proof. vm_compute. repeat split; reflexivity. Qed.

(** A bad PIN, then a good one. *)
Example bad_pin_then_recovery :
  let events :=
    [event calm (chat_message (js "oi"));
     event calm (chat_message (js "12a456"));
     event calm (chat_message (js "654321"))] in
  let w := run initial_world events in
  map text (world_outbox w) = [greeting; pinInvalid; menuMessage]
  /\ (state <$> userSessions w !! sender) = Some (Some AUTHENTICATED).
Proof. vm_compute. repeat split; reflexivity. Qed.

(** Messages of a chat that is not a group, and the bot's own messages, do
    not reach the conversation. *)
Example other_chats_are_left_alone :
  let direct :=
    {| serialized := js "5511999990000@c.us"; chat_name := js "Grupo";
       isGroup := false |} in
  let hello := chat_message (js "hello") in
  let own :=
    {| id := id hello; type := type hello; body := body hello;
       hasMedia := false; fromMe := true |} in
  let elsewhere :=
    {| event_message := hello; event_chat := direct; event_user := sender;
       lookup_error := None; archive_env := calm; saveMessageData_error := None;
       event_env := calm |} in
  processMessage elsewhere initial_world = (false, initial_world)
  /\ world_outbox (deliver initial_world (event calm own)) = []
  /\ userSessions (deliver initial_world (event calm own)) = ∅.
Proof. vm_compute. repeat split; reflexivity. Qed.

(** * Further properties of the monitor *)

(** ** Strings *)

Lemma digit_is_no_white_space c : isDigit c = true -> isWhiteSpace c = false.
Proof.
  intros Hc. apply isDigit_range in Hc. unfold isWhiteSpace.
  repeat match goal with
         | |- context [ c =? ?k ] =>
           replace (c =? k) with false by (symmetry; apply N.eqb_neq; lia)
         end.
  replace (8192 <=? c) with false by (symmetry; apply N.leb_gt; lia).
  reflexivity.
Qed.

Lemma trimStart_id s :
  Forall (fun c => isWhiteSpace c = false) s -> trimStart s = s.
Proof. destruct 1 as [|c s Hc Hs]; [reflexivity|]. simpl. rewrite Hc. reflexivity. Qed.

Lemma trim_id s : Forall (fun c => isWhiteSpace c = false) s -> trim s = s.
Proof.
  intros Hs. unfold trim, trimEnd. rewrite (trimStart_id s Hs).
  rewrite trimStart_id; [apply rev_involutive|].
  apply Forall_rev. exact Hs.
Qed.

(** X1.  A PIN is valid exactly when it is six ASCII digits.  A valid PIN is
    left as it is by [trim], and it is neither of the two menu options nor a
    finalize keyword, so the order in which the conversation tests a text
    never matters for a PIN. *)
Theorem valid_pin_format pin :
  (isValidPin pin = true <-> six_ascii_digits pin)
  /\ (isValidPin pin = true ->
      trim pin = pin /\ finalizes pin = false
      /\ str_eq pin (js "1") = false /\ str_eq pin (js "2") = false).
Proof.
  split; [apply isValidPin_spec|]. intros Hp.
  pose proof (proj1 (isValidPin_spec pin) Hp) as [Hlen Hdigits].
  split; [|split; [|apply valid_pin_not_option, Hp]].
  - apply trim_id. eapply Forall_impl; [exact Hdigits|].
    intros c Hc. apply digit_is_no_white_space, isDigit_range, Hc.
  - destruct (finalizes pin) eqn:Hf; [|reflexivity].
    apply finalizes_spec in Hf as [Hk | Hk];
      apply Forall2_length in Hk; rewrite Hlen in Hk; discriminate Hk.
Qed.

(** ** The registry *)

(** X2.  [getUserSession] returns the session the map holds for the user
    afterwards; a user that had none gets the fresh session; the sessions of
    the other users are as before; and asking again changes nothing. *)
Theorem getUserSession_round_trip (userId : jsstring)
    (sessions : gmap jsstring Session) :
  let s := fst (getUserSession userId sessions) in
  let sessions' := snd (getUserSession userId sessions) in
  sessions' !! userId = Some s
  /\ (sessions !! userId = None -> s = new_session)
  /\ (forall s0, sessions !! userId = Some s0 -> s = s0 /\ sessions' = sessions)
  /\ (forall other, other <> userId -> sessions' !! other = sessions !! other)
  /\ getUserSession userId sessions' = (s, sessions').
Proof.
  unfold getUserSession. destruct (sessions !! userId) as [s0|] eqn:Hl;
    cbn [fst snd].
  - rewrite Hl. repeat split; congruence.
  - rewrite lookup_insert_eq. repeat split; try congruence.
    intros other Hne. apply lookup_insert_ne. congruence.
Qed.

Lemma on_sender_other {A} (userId : jsstring) (handler : Async A) w
    (other : jsstring) :
  other <> userId ->
  userSessions (snd (on_sender userId handler w)) !! other
  = userSessions w !! other.
Proof.
  intros Hne. unfold on_sender, getUserSession.
  destruct (userSessions w !! userId); destruct (handler _) as [c m'];
    cbn [snd userSessions]; rewrite ?lookup_insert_ne by congruence; reflexivity.
Qed.

Lemma on_sender_present {A} (userId : jsstring) (handler : Async A) w :
  is_Some (userSessions (snd (on_sender userId handler w)) !! userId).
Proof.
  unfold on_sender, getUserSession.
  destruct (userSessions w !! userId); destruct (handler _) as [c m'];
    cbn [snd userSessions]; rewrite lookup_insert_eq; eauto.
Qed.

Lemma archive_media_other e w (other : jsstring) :
  other <> event_user e ->
  userSessions (snd (archive_media e w)) !! other = userSessions w !! other.
Proof.
  intros Hne. unfold archive_media. destruct (_ || _); [|reflexivity].
  apply on_sender_other, Hne.
Qed.

Section Registry.
Context `{Process}.

(** X3.  A message changes no session but the one of its sender: after
    [processMessage], the session of every other user is what it was, whether
    it existed or not. *)
Theorem other_sessions_untouched e w (other : jsstring) :
  other <> event_user e ->
  userSessions (snd (processMessage e w)) !! other = userSessions w !! other.
Proof.
  intros Hne. unfold processMessage.
  destruct (lookup_error e); [reflexivity|].
  destruct (_ || _); [reflexivity|].
  pose proof (archive_media_other e w other Hne) as Ha.
  destruct (archive_media e w) as [archived w1]. cbn [snd] in Ha.
  destruct archived as [savedFiles|error]; [|exact Ha].
  destruct (saveMessageData_error e); [exact Ha|].
  destruct (negb _); cbn [snd]; [|exact Ha].
  unfold handleBotConversation. rewrite on_sender_other by exact Hne.
  exact Ha.
Qed.

End Registry.

Lemma other_sessions_untouched_witness :
  let e := event calm (chat_message (js "hello")) in
  let other := js "5511888880000" in
  other <> event_user e
  /\ userSessions (snd (processMessage e (world documenting))) !! other
     = userSessions (world documenting) !! other.
Proof.
  intros e other.
  assert (Hne : other <> event_user e) by (vm_compute; discriminate).
  split; [exact Hne|].
  apply (other_sessions_untouched e (world documenting) other Hne).
Defined.

(** Archiving the media of a message sends nothing, posts nothing, logs
    nothing, never throws and leaves the session of the sender as it is. *)
Lemma archive_media_frame e w :
  (exists savedFiles, fst (archive_media e w) = Normal savedFiles)
  /\ world_outbox (snd (archive_media e w)) = world_outbox w
  /\ world_requests (snd (archive_media e w)) = world_requests w
  /\ messages (snd (archive_media e w)) = messages w
  /\ (forall s, userSessions w !! event_user e = Some s ->
                userSessions (snd (archive_media e w)) !! event_user e = Some s).
Proof.
  unfold archive_media. destruct (_ || _); [|repeat split; eauto].
  unfold on_sender, getUserSession.
  destruct (userSessions w !! event_user e) as [s|] eqn:Hl.
  - destruct (handleMediaMessage_frame (archive_env e) (event_message e) false
                {| session := s; disk := world_disk w; outbox := world_outbox w;
                   requests := world_requests w |}) as (sf & d & ->).
    cbn [fst snd userSessions world_outbox world_requests messages session
         outbox requests].
    repeat split; eauto. intros s0 [= <-]. rewrite lookup_insert_eq.
    destruct s. unfold add_documents. cbn. rewrite app_nil_r. reflexivity.
  - destruct (handleMediaMessage_frame (archive_env e) (event_message e) false
                {| session := new_session; disk := world_disk w;
                   outbox := world_outbox w; requests := world_requests w |})
      as (sf & d & ->).
    cbn [fst snd userSessions world_outbox world_requests messages session
         outbox requests].
    repeat split; eauto. intros s0 [=].
Qed.

Section OwnMessages.
Context `{Process}.

(** What [processMessage] leaves for one of the bot's own messages: the
    world as it was, or with the media archived, or with the message logged
    as well. *)
Lemma own_message_outcome e w :
  fromMe (event_message e) = true ->
  let archived := snd (archive_media e w) in
  snd (processMessage e w) = w
  \/ snd (processMessage e w) = archived
  \/ exists savedFiles,
       snd (processMessage e w) = saveMessageData e savedFiles archived.
Proof.
  intros Hme. unfold processMessage.
  destruct (lookup_error e); [left; reflexivity|].
  destruct (_ || _); [left; reflexivity|].
  cbv zeta. destruct (archive_media e w) as [archived w1]. cbn [snd].
  destruct archived as [savedFiles|error]; [|right; left; reflexivity].
  destruct (saveMessageData_error e); [right; left; reflexivity|].
  rewrite Hme. right. right. exists savedFiles. reflexivity.
Qed.

(** X4.  The bot never answers its own messages: for a message with [fromMe]
    set, [processMessage] sends nothing, posts nothing and leaves the session
    of the sender as it is. *)
Theorem own_message_is_never_answered e w :
  fromMe (event_message e) = true ->
  world_outbox (snd (processMessage e w)) = world_outbox w
  /\ world_requests (snd (processMessage e w)) = world_requests w
  /\ (forall s, userSessions w !! event_user e = Some s ->
                userSessions (snd (processMessage e w)) !! event_user e = Some s).
Proof.
  intros Hme. destruct (archive_media_frame e w) as (_ & Ho & Hr & _ & Hs).
  destruct (own_message_outcome e w Hme) as [-> | [-> | [savedFiles ->]]];
    cbn [saveMessageData world_outbox world_requests userSessions];
    repeat split; auto.
Qed.

(** X5.  [processMessage] returns [true] exactly when it has logged the
    message: then the log has gained one entry, which records the message,
    its sender and its chat; when it returns [false] the log is as before and
    nothing has been sent or posted. *)
Theorem processed_iff_logged e w :
  (fst (processMessage e w) = true ->
   exists savedFiles,
     messages (snd (processMessage e w)) =
     messages w ++
       [{| logged_id := id (event_message e); fromNumber := event_user e;
           logged_type := type (event_message e);
           logged_body := body (event_message e);
           groupId := serialized (event_chat e);
           isOwnMessage := fromMe (event_message e);
           logged_savedFiles := savedFiles |}])
  /\ (fst (processMessage e w) = false ->
      messages (snd (processMessage e w)) = messages w
      /\ world_outbox (snd (processMessage e w)) = world_outbox w
      /\ world_requests (snd (processMessage e w)) = world_requests w).
Proof.
  unfold processMessage.
  destruct (lookup_error e); [split; [discriminate | auto]|].
  destruct (_ || _); [split; [discriminate | auto]|].
  destruct (archive_media_frame e w) as (_ & Ho & Hr & Hm & _).
  destruct (archive_media e w) as [archived w1]. cbn [snd] in *.
  destruct archived as [savedFiles|error]; [|split; [discriminate | auto]].
  destruct (saveMessageData_error e); [split; [discriminate | auto]|].
  split; [|destruct (negb _); discriminate].
  intros _. exists savedFiles. rewrite <- Hm.
  destruct (negb _); cbn [snd]; [|reflexivity].
  unfold handleBotConversation, on_sender.
  destruct (getUserSession _ _) as [s sessions].
  destruct (conversation _ _ _ _) as [c m']. reflexivity.
Qed.

(** X6.  The handler of [message_create] never makes the bot speak: it sends
    nothing and posts nothing, and it leaves the world untouched for a
    message that is not the bot's own, which the handler of [message] alone
    processes. *)
Theorem message_create_never_replies from e w :
  world_outbox (on_message_create from e w) = world_outbox w
  /\ world_requests (on_message_create from e w) = world_requests w
  /\ (fromMe (event_message e) = false -> on_message_create from e w = w).
Proof.
  unfold on_message_create. destruct (truthy from); cbn [andb]; [|auto].
  destruct (fromMe (event_message e)) eqn:Hme; [|auto].
  destruct (archive_media_frame e w) as (_ & Ho & Hr & _).
  destruct (own_message_outcome e w Hme) as [-> | [-> | [savedFiles ->]]];
    cbn [saveMessageData world_outbox world_requests];
    repeat split; auto; discriminate.
Qed.

End OwnMessages.

Lemma own_message_is_never_answered_witness :
  let own :=
    {| id := js "3EB0FFFF01"; type := js "chat"; body := js "123456";
       hasMedia := false; fromMe := true |} in
  let e := event calm own in
  fromMe (event_message e) = true
  /\ world_outbox (snd (processMessage e (world waiting)))
     = world_outbox (world waiting)
  /\ world_requests (snd (processMessage e (world waiting)))
     = world_requests (world waiting)
  /\ (forall s, userSessions (world waiting) !! event_user e = Some s ->
        userSessions (snd (processMessage e (world waiting))) !! event_user e
        = Some s).
Proof.
  intros own e. split; [reflexivity|].
  apply (own_message_is_never_answered e (world waiting)). reflexivity.
Defined.

(** ** The media store *)

Lemma keeps_files_refl d : keeps_files d d.
Proof. intros k Hk. exact Hk. Qed.

Lemma keeps_files_insert d k x : keeps_files d (<[k := x]> d).
Proof. intros j Hj. apply lookup_insert_is_Some'. right. exact Hj. Qed.

Lemma keeps_files_trans d1 d2 d3 :
  keeps_files d1 d2 -> keeps_files d2 d3 -> keeps_files d1 d3.
Proof. intros H12 H23 k Hk. apply H23, H12, Hk. Qed.

(** What the media store does, for every answer of the world. *)
Lemma handleMediaMessage_store env message flag m :
  exists savedFiles d,
    handleMediaMessage env message flag m =
    (Normal savedFiles,
     {| session := add_documents (if flag then savedFiles else []) (session m);
        disk := d; outbox := outbox m; requests := requests m |})
    /\ keeps_files (disk m) d
    /\ Forall (fun f => is_Some (d !! path_join (targetDir message flag) f))
         savedFiles
    /\ (length savedFiles
        <= if is_audio message && ffmpeg_version_ok env && ffmpeg_converts env
           then 2 else 1)%nat.
Proof.
  destruct m as [[st p docs txts] dsk out reqs].
  unfold add_documents, targetDir. run_media.
  destruct (is_audio message), (hasMedia message),
    (downloadMedia env) as [e| |mt dt], flag, (writeFileSync_error env),
    (ffmpeg_version_ok env), (ffmpeg_converts env);
    cbn [session disk outbox requests state pin visitDocuments visitTexts];
    try destruct (truthy mt);
    cbn [session disk outbox requests state pin visitDocuments visitTexts];
    do 2 eexists;
    (split; [first [reflexivity | rewrite app_nil_r; reflexivity]|]);
    (split; [first [apply keeps_files_refl | apply keeps_files_insert
                   | eapply keeps_files_trans; apply keeps_files_insert]|]);
    (split; [repeat constructor; rewrite ?lookup_insert_is_Some'; auto
            | cbn; lia]).
Qed.

(** X7.  Whatever goes wrong while a payload is saved is absorbed: when the
    download fails or gives nothing, when the write throws, when a message
    that is no audio has no media or its media has no MIME type, the media
    handler returns the empty list and leaves the machine as it was. *)
Theorem media_failures_are_absorbed env message flag m :
  (exists error, downloadMedia env = DownloadFails error)
  \/ downloadMedia env = NoMedia
  \/ (exists error, writeFileSync_error env = Some error)
  \/ (is_audio message = false
      /\ (hasMedia message = false
          \/ exists data, downloadMedia env = Media [] data)) ->
  handleMediaMessage env message flag m = (Normal [], m).
Proof.
  intros Hfail. run_media.
  destruct Hfail as [[error He] | [He | [[error He] | [Ha Hm]]]].
  - rewrite He. destruct (is_audio message), (hasMedia message); reflexivity.
  - rewrite He. destruct (is_audio message), (hasMedia message); reflexivity.
  - rewrite He.
    destruct (is_audio message), (hasMedia message),
      (downloadMedia env) as [e| |mt dt]; try reflexivity.
    destruct (truthy mt); reflexivity.
  - rewrite Ha. destruct Hm as [-> | [data ->]]; [reflexivity|].
    destruct (hasMedia message); reflexivity.
Qed.

(** X8.  For every answer of the world the media handler returns normally,
    with at most two names, and two only for an audio that ffmpeg converted;
    it sends nothing and posts nothing; it changes the session only by
    pushing the names it returns, and only when asked to; it removes no file;
    and every name it returns is a file of the directory it saves to. *)
Theorem saved_media_are_files env message flag m :
  let r := handleMediaMessage env message flag m in
  exists savedFiles,
    fst r = Normal savedFiles
    /\ (length savedFiles
        <= if is_audio message && ffmpeg_version_ok env && ffmpeg_converts env
           then 2 else 1)%nat
    /\ session (snd r)
       = add_documents (if flag then savedFiles else []) (session m)
    /\ outbox (snd r) = outbox m
    /\ requests (snd r) = requests m
    /\ keeps_files (disk m) (disk (snd r))
    /\ Forall (fun f =>
                 is_Some (disk (snd r) !! path_join (targetDir message flag) f))
         savedFiles.
Proof.
  intros r. subst r.
  destruct (handleMediaMessage_store env message flag m)
    as (savedFiles & d & -> & Hkeep & Hfiles & Hlen).
  exists savedFiles. cbn [fst snd session disk outbox requests].
  repeat split; assumption.
Qed.

Lemma media_failures_are_absorbed_witness :
  let env :=
    {| downloadMedia := DownloadFails timed_out; now_saved := 1700000000000;
       now_converted := 1700000000250; writeFileSync_error := None;
       ffmpeg_version_ok := true; ffmpeg_converts := true;
       axios_post := axios_post voice_env; sendMessage := fun _ => ViaChat |} in
  handleMediaMessage env voice_message true (machine documenting)
  = (Normal [], machine documenting).
Proof.
  intros env.
  apply (media_failures_are_absorbed env voice_message true (machine documenting)).
  left. exists timed_out. reflexivity.
Defined.

(** ** The form posted to the API *)

Lemma existing_files_names (d : gmap jsstring FileContent) fileNames :
  map fst (existing_files d fileNames)
  = filter (fun fileName =>
              is_Some (d !! path_join visitDocumentsDir fileName)) fileNames.
Proof.
  unfold existing_files. induction fileNames as [|f l IH]; [reflexivity|].
  cbn [omap list_omap]. rewrite filter_cons.
  destruct (d !! path_join visitDocumentsDir f) as [c|] eqn:Hl.
  - rewrite decide_True by eauto. cbn [map fst]. f_equal. exact IH.
  - rewrite decide_False by (intros [? ?]; discriminate). exact IH.
Qed.

Lemma existing_files_contents (d : gmap jsstring FileContent) fileNames :
  Forall (fun entry => d !! path_join visitDocumentsDir (fst entry)
                       = Some (snd entry))
    (existing_files d fileNames).
Proof.
  unfold existing_files. induction fileNames as [|f l IH]; [constructor|].
  cbn [omap list_omap].
  destruct (d !! path_join visitDocumentsDir f) as [c|] eqn:Hl; [|exact IH].
  constructor; [exact Hl | exact IH].
Qed.

Section Form.
Context `{Process}.

(** X9.  [sendDocumentsToAPI] never throws and posts exactly one form, which
    carries the key of the process, the notes of the session in order, and
    the documents of the session that exist in the visit directory, in order
    and with the content the disk holds: a document whose file is missing is
    skipped.  Session, disk and outbox are left as they are. *)
Theorem posted_form_holds_notes_and_existing_documents env m :
  let r := sendDocumentsToAPI env m in
  let form := handoff_form m in
  (exists result, fst r = Normal result)
  /\ snd r =
     {| session := session m; disk := disk m; outbox := outbox m;
        requests := requests m ++ [form] |}
  /\ api_key form = GEMINI_API_KEY
  /\ texts form = visitTexts (session m)
  /\ map fst (attached form)
     = filter (fun fileName =>
                 is_Some (disk m !! path_join visitDocumentsDir fileName))
         (visitDocuments (session m))
  /\ Forall (fun entry =>
               disk m !! path_join visitDocumentsDir (fst entry)
               = Some (snd entry)) (attached form).
Proof.
  intros r form. subst r form. unfold sendDocumentsToAPI, handoff_form.
  cbn [api_key texts attached].
  split; [|split; [|split; [reflexivity|split; [reflexivity|split]]]].
  - destruct (axios_post env) as [[] d e|err]; eexists; reflexivity.
  - destruct (axios_post env) as [[] d e|err]; reflexivity.
  - apply existing_files_names.
  - apply existing_files_contents.
Qed.

End Form.

(** ** The branches of the conversation *)

Lemma sendBotMessage_eq env chat messageText m :
  sendBotMessage env chat messageText m =
  (sent_or_thrown env m,
   {| session := session m; disk := disk m;
      outbox := outbox m ++ [reply env chat m messageText];
      requests := requests m |}).
Proof.
  unfold sendBotMessage, sent_or_thrown, reply.
  destruct (sendMessage env _); reflexivity.
Qed.

Section Branches.
Context `{Process}.

(** X10.  The first text of a sender is only greeted: whatever it says, even
    a valid PIN, the session goes from [null] to WAITING_PIN, the greeting is
    the one reply, and nothing else changes.  The state is set before the
    greeting is sent, so it is set even when the greeting cannot be delivered
    and the handler throws. *)
Theorem first_text_is_greeted env message chat m :
  state (session m) = None ->
  trim (body message) <> [] ->
  conversation env message chat m =
  (sent_or_thrown env m,
   {| session :=
        {| state := Some WAITING_PIN; pin := pin (session m);
           visitDocuments := visitDocuments (session m);
           visitTexts := visitTexts (session m) |};
      disk := disk m;
      outbox := outbox m ++ [reply env chat m greeting];
      requests := requests m |}).
Proof.
  intros Hs Hu. rewrite <- userMessage_of_trim in Hu. apply truthy_true in Hu.
  rewrite conversation_text, Hs by exact Hu.
  unfold bind, set_state, on_session. cbn [session disk outbox requests].
  rewrite sendBotMessage_eq. reflexivity.
Qed.

(** X11.  The menu of an authenticated session.  The text 1 gets the notice
    that the schedule is not available and changes nothing; the text 2 opens
    the documentation mode with both accumulators emptied and gets the
    instructions; a text that is none of 1, 2 and a valid PIN gets the
    invalid-option reply and changes nothing.  In each case the handler
    throws exactly when the reply cannot be delivered. *)
Theorem menu_options env message chat m :
  state (session m) = Some AUTHENTICATED ->
  let userMessage := trim (body message) in
  let result (s : Session) (messageText : jsstring) :=
    (sent_or_thrown env m,
     {| session := s; disk := disk m;
        outbox := outbox m ++ [reply env chat m messageText];
        requests := requests m |}) in
  (userMessage = js "1" ->
   conversation env message chat m = result (session m) visitsInDevelopment)
  /\ (userMessage = js "2" ->
      conversation env message chat m =
      result {| state := Some DOCUMENTING_VISIT; pin := pin (session m);
                visitDocuments := []; visitTexts := [] |} documentationMode)
  /\ (userMessage <> [] -> userMessage <> js "1" -> userMessage <> js "2" ->
      isValidPin userMessage = false ->
      conversation env message chat m = result (session m) invalidOption).
Proof.
  intros Hs userMessage result. subst userMessage result.
  rewrite <- userMessage_of_trim. split; [|split].
  - intros Hu. rewrite conversation_text, Hs by (rewrite Hu; reflexivity).
    unfold authenticated_menu. rewrite Hu.
    replace (str_eq (js "1") (js "1")) with true by reflexivity.
    rewrite sendBotMessage_eq. reflexivity.
  - intros Hu. rewrite conversation_text, Hs by (rewrite Hu; reflexivity).
    unfold authenticated_menu. rewrite Hu.
    replace (str_eq (js "2") (js "1")) with false by reflexivity.
    replace (str_eq (js "2") (js "2")) with true by reflexivity.
    unfold bind, set_state, set_visitDocuments, set_visitTexts, on_session.
    cbn [session disk outbox requests]. rewrite sendBotMessage_eq. reflexivity.
  - intros Hne H1 H2 Hp. apply truthy_true in Hne.
    apply str_eq_false in H1, H2.
    rewrite conversation_text, Hs by exact Hne.
    unfold authenticated_menu. rewrite H1, H2, Hp, sendBotMessage_eq.
    reflexivity.
Qed.

(** X12.  In the documentation mode a text that is no finalize keyword is
    captured only when the message is a chat message: then the trimmed text
    is written to a file of the visit directory, pushed to the notes and
    acknowledged; if the write throws, the handler throws and nothing is
    recorded or sent.  A message of another type that carries such a text,
    like a captioned picture, is dropped without a reply. *)
Theorem note_capture env message chat m :
  state (session m) = Some DOCUMENTING_VISIT ->
  let userMessage := trim (body message) in
  userMessage <> [] ->
  ~ finalize_keyword userMessage ->
  (type message = js "chat" -> writeFileSync_error env = None ->
   conversation env message chat m =
   (Normal tt,
    {| session := add_text userMessage (session m);
       disk := <[path_join visitDocumentsDir (textFileName env message)
                 := Utf8 userMessage]> (disk m);
       outbox := outbox m ++ [reply env chat m textReceived];
       requests := requests m |}))
  /\ (forall error,
        type message = js "chat" -> writeFileSync_error env = Some error ->
        conversation env message chat m = (Thrown error, m))
  /\ (type message <> js "chat" ->
      conversation env message chat m = (Normal tt, m)).
Proof.
  intros Hs userMessage Hne Hk. subst userMessage.
  rewrite <- userMessage_of_trim in *.
  rewrite <- finalizes_spec in Hk. apply not_true_is_false in Hk.
  apply truthy_true in Hne.
  rewrite conversation_text, Hs, Hk, collect_text_eq by exact Hne.
  rewrite Hne. split; [|split].
  - intros Ht Hw. rewrite Ht, Hw. reflexivity.
  - intros error Ht Hw. rewrite Ht, Hw. reflexivity.
  - intros Ht. apply str_eq_false in Ht. rewrite Ht. reflexivity.
Qed.

(** X13.  A message whose text is empty after trimming is skipped, without a
    reply and without any change, unless it is a message of a type other
    than chat sent to a documenting session. *)
Theorem empty_text_is_skipped env message chat m :
  trim (body message) = [] ->
  type message = js "chat" \/ state (session m) <> Some DOCUMENTING_VISIT ->
  conversation env message chat m = (Normal tt, m).
Proof.
  intros Hu Hcase. rewrite <- userMessage_of_trim in Hu.
  rewrite conversation_empty by (apply truthy_false, Hu).
  destruct Hcase as [-> | Hs]; [reflexivity|].
  destruct (str_eq _ _); [reflexivity|].
  destruct (state (session m)) as [[]|]; try reflexivity. contradiction.
Qed.

End Branches.

Lemma first_text_is_greeted_witness :
  let m := machine new_session in
  let message := chat_message (js "123456") in
  state (session m) = None
  /\ trim (body message) <> []
  /\ conversation calm message group m =
     (sent_or_thrown calm m,
      {| session :=
           {| state := Some WAITING_PIN; pin := pin (session m);
              visitDocuments := visitDocuments (session m);
              visitTexts := visitTexts (session m) |};
         disk := disk m;
         outbox := outbox m ++ [reply calm group m greeting];
         requests := requests m |}).
Proof.
  intros m message.
  assert (Hu : trim (body message) <> []) by (vm_compute; discriminate).
  split; [reflexivity|]. split; [exact Hu|].
  apply (first_text_is_greeted calm message group m eq_refl Hu).
Defined.

Lemma menu_options_witness :
  let m := machine authenticated in
  let message := chat_message (js " 2 ") in
  state (session m) = Some AUTHENTICATED
  /\ trim (body message) = js "2"
  /\ conversation calm message group m =
     (sent_or_thrown calm m,
      {| session :=
           {| state := Some DOCUMENTING_VISIT; pin := pin (session m);
              visitDocuments := []; visitTexts := [] |};
         disk := disk m;
         outbox := outbox m ++ [reply calm group m documentationMode];
         requests := requests m |}).
Proof.
  intros m message.
  assert (Hu : trim (body message) = js "2") by (vm_compute; reflexivity).
  split; [reflexivity|]. split; [exact Hu|].
  destruct (menu_options calm message group m eq_refl) as (_ & Htwo & _).
  exact (Htwo Hu).
Defined.

Lemma note_capture_witness :
  let m := machine documenting in
  let message := chat_message (js " pressao 12 por 8 ") in
  state (session m) = Some DOCUMENTING_VISIT
  /\ trim (body message) <> []
  /\ ~ finalize_keyword (trim (body message))
  /\ conversation calm message group m =
     (Normal tt,
      {| session := add_text (trim (body message)) (session m);
         disk := <[path_join visitDocumentsDir (textFileName calm message)
                   := Utf8 (trim (body message))]> (disk m);
         outbox := outbox m ++ [reply calm group m textReceived];
         requests := requests m |}).
Proof.
  intros m message.
  assert (Hu : trim (body message) <> []) by (vm_compute; discriminate).
  assert (Hk : ~ finalize_keyword (trim (body message)))
    by (rewrite <- finalizes_spec; vm_compute; discriminate).
  split; [reflexivity|]. split; [exact Hu|]. split; [exact Hk|].
  destruct (note_capture calm message group m eq_refl Hu Hk) as (Hnote & _).
  apply Hnote; reflexivity.
Defined.

Lemma empty_text_is_skipped_witness :
  let m := machine documenting in
  let message := chat_message (js "   ") in
  trim (body message) = []
  /\ type message = js "chat"
  /\ conversation calm message group m = (Normal tt, m).
Proof.
  intros m message.
  assert (Hu : trim (body message) = []) by (vm_compute; reflexivity).
  split; [exact Hu|]. split; [reflexivity|].
  apply (empty_text_is_skipped calm message group m Hu). left. reflexivity.
Defined.

(** ** The hand-off and the effects of one message *)

Section Effects.
Context `{Process}.

Lemma hand_off_replies_length env chat n :
  (1 <= length (hand_off_replies env chat n) <= 4)%nat
  /\ (formatter_throws env = None ->
      (2 <= length (hand_off_replies env chat n))%nat).
Proof.
  unfold hand_off_replies, formatter_throws.
  destruct (axios_post env) as [[] [[d|typeError]|] e|err]; cbn [length];
    try (split; [lia | intros _; lia]).
  - destruct (sendMessage env (n + 1)%nat); cbn [length];
      try (split; [lia | intros _; lia]);
      destruct (sendMessage env (n + 1 + 1)%nat); cbn [length];
      split; try lia; intros _; lia.
  - split; [lia | discriminate].
Qed.

(** X14.  The hand-off.  For a documenting session and a finalize keyword
    one form is posted, built from the accumulators as they were, and no file
    is written.  Unless the formatter throws on the answer of the API, the
    conversation completes normally, whatever is or is not delivered, the
    session is reset, and the replies are: the processing notice; then, for a
    report, the report and the closing notice, replaced by the notice that
    the report could not be sent from the first of the two that is not
    delivered; for anything else one error message, which reads undefined
    when the API flags success without data; between two and four replies.
    When the formatter throws, its error leaves the conversation after the
    processing notice alone, and the session is left as it was, still
    documenting and with its accumulators. *)
Theorem hand_off_replies_sent env message chat m :
  state (session m) = Some DOCUMENTING_VISIT ->
  finalizes (trim (body message)) = true ->
  let replies := hand_off_replies env chat (length (outbox m)) in
  let outcome (completion : Completion unit) (s : Session) :=
    (completion,
     {| session := s; disk := disk m; outbox := outbox m ++ replies;
        requests := requests m ++ [handoff_form m] |}) in
  (formatter_throws env = None ->
   conversation env message chat m
   = outcome (Normal tt) (reset_session (session m))
   /\ (2 <= length replies <= 4)%nat)
  /\ (forall typeError,
        formatter_throws env = Some typeError ->
        conversation env message chat m
        = outcome (Thrown typeError) (session m)
        /\ map text replies = [processing])
  /\ (forall erro, axios_post env = Response true None erro ->
        map text replies = [processing; errorMessage Missing]).
Proof.
  intros Hs Hf replies outcome. subst replies outcome.
  rewrite <- userMessage_of_trim in Hf.
  rewrite conversation_text, Hs, Hf by (apply finalizes_truthy, Hf).
  rewrite finalize_visit_outcome.
  destruct (hand_off_replies_length env chat (length (outbox m)))
    as [[Hmin Hmax] Hmore].
  split; [|split].
  - intros Hformat. rewrite Hformat. split; [reflexivity|].
    split; [apply Hmore, Hformat | exact Hmax].
  - intros typeError Hformat. rewrite Hformat. split; [reflexivity|].
    unfold hand_off_replies, formatter_throws in *.
    destruct (axios_post env) as [[] [[d|e0]|] e|err]; try discriminate.
    reflexivity.
  - intros erro He. unfold hand_off_replies. rewrite He. reflexivity.
Qed.

(** X15.  What one message can do, whatever its sender's state: it appends
    at most four replies to the outbox, posts at most one form, the one built
    from the accumulators as they were, and removes no file.  Outside the
    documentation mode it sends at most one reply, posts nothing and writes
    nothing. *)
Theorem effects_of_one_message env message chat m :
  let m' := snd (conversation env message chat m) in
  exists replies,
    outbox m' = outbox m ++ replies
    /\ (length replies <= 4)%nat
    /\ (requests m' = requests m \/ requests m' = requests m ++ [handoff_form m])
    /\ keeps_files (disk m) (disk m')
    /\ (state (session m) <> Some DOCUMENTING_VISIT ->
        (length replies <= 1)%nat /\ requests m' = requests m
        /\ disk m' = disk m).
Proof.
  intros m'. subst m'.
  assert (Hnil : forall (n : Machine) (P : Prop),
             exists replies,
               outbox n = outbox n ++ replies /\ (length replies <= 4)%nat
               /\ (requests n = requests n
                   \/ requests n = requests n ++ [handoff_form n])
               /\ keeps_files (disk n) (disk n)
               /\ (P -> (length replies <= 1)%nat /\ requests n = requests n
                        /\ disk n = disk n)).
  { intros n P. exists []. rewrite app_nil_r. cbn [length].
    repeat split; auto using keeps_files_refl; lia. }
  assert (Hone : forall (P : Prop) s messageText,
             let n :=
               {| session := s; disk := disk m;
                  outbox := outbox m ++ [reply env chat m messageText];
                  requests := requests m |} in
             exists replies,
               outbox n = outbox m ++ replies
               /\ (length replies <= 4)%nat
               /\ (requests n = requests m
                   \/ requests n = requests m ++ [handoff_form m])
               /\ keeps_files (disk m) (disk n)
               /\ (P -> (length replies <= 1)%nat /\ requests n = requests m
                        /\ disk n = disk m)).
  { intros P s messageText n. exists [reply env chat m messageText].
    cbn [length]. repeat split; auto using keeps_files_refl; lia. }
  destruct (truthy (userMessage_of message)) eqn:Hu.
  - rewrite conversation_text by exact Hu.
    destruct (state (session m)) as [[]|] eqn:Hs.
    + rewrite pin_verification_snd. destruct (isValidPin _); apply Hone.
    + rewrite authenticated_menu_snd.
      destruct (str_eq _ (js "1")); [|destruct (str_eq _ (js "2"));
        [|destruct (isValidPin _)]]; apply Hone.
    + destruct (finalizes _).
      * rewrite finalize_visit_outcome. cbn [snd outbox requests disk].
        exists (hand_off_replies env chat (length (outbox m))).
        repeat split; auto using keeps_files_refl; try contradiction.
        apply hand_off_replies_length.
      * rewrite collect_text_eq. destruct (_ && _); [|apply Hnil].
        destruct (writeFileSync_error env); [apply Hnil|].
        cbn [snd outbox requests disk].
        exists [reply env chat m textReceived]. cbn [length].
        repeat split; auto using keeps_files_insert; try contradiction; lia.
    + rewrite greeting_snd. apply Hone.
  - rewrite conversation_empty by exact Hu.
    destruct (str_eq _ _); [apply Hnil|].
    destruct (state (session m)) as [[]|] eqn:Hs; try apply Hnil.
    destruct (handleMediaMessage_store env message true m)
      as (sf & d & E & Hkeep & _).
    unfold bind. rewrite E.
    destruct (0 <? length sf)%nat; [rewrite try_send_eq|];
      cbn [snd outbox requests disk].
    + exists [reply env chat
                {| session := add_documents sf (session m); disk := d;
                   outbox := outbox m; requests := requests m |}
                documentsReceived].
      cbn [length]. repeat split; auto; try contradiction; lia.
    + exists []. rewrite app_nil_r. cbn [length].
      repeat split; auto; try contradiction; lia.
Qed.

(** X16.  Whether replies are delivered never changes what the bot records:
    with any other outcomes of the attempts to send, the conversation leaves
    the same session, the same files and the same posted forms. *)
Theorem delivery_changes_only_the_outbox env (f : nat -> Delivery) message chat m :
  let m1 := snd (conversation env message chat m) in
  let m2 := snd (conversation (with_sendMessage f env) message chat m) in
  session m1 = session m2 /\ disk m1 = disk m2 /\ requests m1 = requests m2.
Proof.
  intros m1 m2. subst m1 m2.
  destruct (truthy (userMessage_of message)) eqn:Hu.
  - rewrite !conversation_text by exact Hu.
    destruct (state (session m)) as [[]|] eqn:Hs.
    + rewrite !pin_verification_snd. destruct (isValidPin _); auto.
    + rewrite !authenticated_menu_snd.
      destruct (str_eq _ (js "1")); [|destruct (str_eq _ (js "2"));
        [|destruct (isValidPin _)]]; auto.
    + destruct (finalizes _).
      * rewrite !finalize_visit_outcome.
        change (formatter_throws (with_sendMessage f env))
          with (formatter_throws env).
        auto.
      * rewrite !collect_text_eq. destruct (_ && _); [|auto].
        cbn [writeFileSync_error with_sendMessage].
        destruct (writeFileSync_error env); auto.
    + rewrite !greeting_snd. auto.
  - rewrite !conversation_empty by exact Hu.
    destruct (str_eq _ _); [auto|].
    destruct (state (session m)) as [[]|] eqn:Hs; auto.
    change (handleMediaMessage (with_sendMessage f env) message true)
      with (handleMediaMessage env message true).
    unfold bind.
    destruct (handleMediaMessage env message true m) as [[sf|err] m1]; [|auto].
    destruct (0 <? length sf)%nat; [rewrite !try_send_eq|]; auto.
Qed.

End Effects.

Lemma hand_off_replies_sent_witness :
  let broken : Error := {| message_of := js "x.forEach is not a function" |} in
  let env := with_axios_post (Response true (Some (IllTyped broken)) IsNull) calm in
  let m := machine documenting in
  let message := chat_message (js "SAIR") in
  state (session m) = Some DOCUMENTING_VISIT
  /\ finalizes (trim (body message)) = true
  /\ formatter_throws env = Some broken
  /\ conversation env message group m =
     (Thrown broken,
      {| session := session m;
         disk := disk m;
         outbox := outbox m ++ hand_off_replies env group (length (outbox m));
         requests := requests m ++ [handoff_form m] |})
  /\ map text (hand_off_replies env group (length (outbox m))) = [processing].
Proof.
  intros broken env m message.
  assert (Hf : finalizes (trim (body message)) = true)
    by (vm_compute; reflexivity).
  split; [reflexivity|]. split; [exact Hf|]. split; [reflexivity|].
  destruct (hand_off_replies_sent env message group m eq_refl Hf)
    as (_ & Hthrown & _).
  exact (Hthrown broken eq_refl).
Defined.

(** ** Invariants of the registry *)

Lemma add_documents_nil s : add_documents [] s = s.
Proof. destruct s. unfold add_documents. cbn. rewrite app_nil_r. reflexivity. Qed.

Lemma documents_on_disk_keeps d d' s :
  keeps_files d d' -> documents_on_disk d s -> documents_on_disk d' s.
Proof.
  intros Hk Hd. unfold documents_on_disk in *.
  eapply Forall_impl; [exact Hd|]. intros f Hf. apply Hk, Hf.
Qed.

(** A handler that removes no file and keeps the documents of its session on
    disk keeps the documents of every session on disk. *)
Lemma on_sender_documents {A} (userId : jsstring) (handler : Async A) w :
  (forall m, keeps_files (disk m) (disk (snd (handler m)))
             /\ (documents_on_disk (disk m) (session m) ->
                 documents_on_disk (disk (snd (handler m)))
                   (session (snd (handler m))))) ->
  map_Forall (fun _ s => documents_on_disk (world_disk w) s) (userSessions w) ->
  let w' := snd (on_sender userId handler w) in
  map_Forall (fun _ s => documents_on_disk (world_disk w') s) (userSessions w').
Proof.
  intros Hh Hw. unfold on_sender, getUserSession.
  destruct (userSessions w !! userId) as [s|] eqn:Hl.
  - destruct (Hh {| session := s; disk := world_disk w; outbox := world_outbox w;
                    requests := world_requests w |}) as [Hk Hd].
    destruct (handler _) as [c m']. cbn [snd userSessions world_disk session disk] in *.
    apply map_Forall_insert_2; [apply Hd, (Hw _ _ Hl)|].
    intros u s' Hu. eapply documents_on_disk_keeps; [exact Hk|]. exact (Hw _ _ Hu).
  - destruct (Hh {| session := new_session; disk := world_disk w;
                    outbox := world_outbox w; requests := world_requests w |})
      as [Hk Hd].
    destruct (handler _) as [c m']. cbn [snd userSessions world_disk session disk] in *.
    apply map_Forall_insert_2; [apply Hd; constructor|].
    apply map_Forall_insert_2.
    + eapply documents_on_disk_keeps; [exact Hk|]. constructor.
    + intros u s' Hu. eapply documents_on_disk_keeps; [exact Hk|].
      exact (Hw _ _ Hu).
Qed.

(** A handler that keeps a property of its session keeps it in the
    registry. *)
Lemma on_sender_sessions {A} (P : Session -> Prop) (userId : jsstring)
    (handler : Async A) w :
  P new_session ->
  (forall m, P (session m) -> P (session (snd (handler m)))) ->
  map_Forall (fun _ s => P s) (userSessions w) ->
  map_Forall (fun _ s => P s) (userSessions (snd (on_sender userId handler w))).
Proof.
  intros Hnew Hh Hw. unfold on_sender, getUserSession.
  destruct (userSessions w !! userId) as [s|] eqn:Hl.
  - specialize (Hh {| session := s; disk := world_disk w;
                      outbox := world_outbox w; requests := world_requests w |}).
    destruct (handler _) as [c m']. cbn [snd userSessions session] in *.
    apply map_Forall_insert_2; [|exact Hw]. apply Hh. exact (Hw _ _ Hl).
  - specialize (Hh {| session := new_session; disk := world_disk w;
                      outbox := world_outbox w; requests := world_requests w |}).
    destruct (handler _) as [c m']. cbn [snd userSessions session] in *.
    apply map_Forall_insert_2; [apply Hh, Hnew|].
    apply map_Forall_insert_2; [exact Hnew | exact Hw].
Qed.

Lemma transition_pin_recorded s s' :
  transition s s' -> pin_recorded s -> pin_recorded s'.
Proof.
  unfold pin_recorded.
  destruct 1 as [s|s Hs|s p Hs Hp|s Hs|s p Hs Hp|s Hs|s t Hs|s sf Hs];
    cbn [state pin reset_session add_text add_documents];
    intros [Hvalid Hset]; split; auto;
    try (intros q [= <-]; exact Hp);
    try (intros [? | ?]; discriminate);
    try (intros _; discriminate);
    try (intros _; apply Hset; auto).
Qed.

Section Invariants.
Context `{Process}.

Lemma conversation_documents env message chat m :
  keeps_files (disk m) (disk (snd (conversation env message chat m)))
  /\ (documents_on_disk (disk m) (session m) ->
      documents_on_disk (disk (snd (conversation env message chat m)))
        (session (snd (conversation env message chat m)))).
Proof.
  assert (Hempty : forall d, documents_on_disk d
            {| state := None; pin := None; visitDocuments := [];
               visitTexts := [] |}) by (intros d; constructor).
  destruct (truthy (userMessage_of message)) eqn:Hu.
  - rewrite conversation_text by exact Hu.
    destruct (state (session m)) as [[]|] eqn:Hs.
    + rewrite pin_verification_snd.
      destruct (isValidPin _); split; auto using keeps_files_refl.
    + rewrite authenticated_menu_snd.
      destruct (str_eq _ (js "1")); [|destruct (str_eq _ (js "2"));
        [|destruct (isValidPin _)]];
        split; auto using keeps_files_refl; intros _; constructor.
    + destruct (finalizes _).
      * rewrite finalize_visit_outcome. cbn [snd session disk].
        split; [apply keeps_files_refl|].
        destruct (formatter_throws env); [auto | intros _; constructor].
      * rewrite collect_text_eq. destruct (_ && _);
          [|split; auto using keeps_files_refl].
        destruct (writeFileSync_error env);
          [split; auto using keeps_files_refl|].
        cbn [snd session disk]. split; [apply keeps_files_insert|].
        intros Hd. unfold documents_on_disk, add_text in *.
        cbn [visitDocuments].
        eapply Forall_impl; [exact Hd|]. intros f Hf.
        apply keeps_files_insert, Hf.
    + rewrite greeting_snd. split; auto using keeps_files_refl.
  - rewrite conversation_empty by exact Hu.
    destruct (str_eq _ _); [split; auto using keeps_files_refl|].
    destruct (state (session m)) as [[]|] eqn:Hs;
      try solve [split; auto using keeps_files_refl].
    destruct (handleMediaMessage_store env message true m)
      as (sf & d & E & Hkeep & Hfiles & _).
    unfold bind. rewrite E.
    assert (Hdocs : documents_on_disk (disk m) (session m) ->
                    documents_on_disk d (add_documents sf (session m))).
    { intros Hd. unfold documents_on_disk, add_documents.
      cbn [visitDocuments]. apply Forall_app. split; [|exact Hfiles].
      exact (documents_on_disk_keeps _ _ _ Hkeep Hd). }
    destruct (0 <? length sf)%nat; [rewrite try_send_eq|];
      cbn [ret snd session disk]; split; assumption.
Qed.

Lemma archive_documents env message m :
  keeps_files (disk m) (disk (snd (handleMediaMessage env message false m)))
  /\ (documents_on_disk (disk m) (session m) ->
      documents_on_disk (disk (snd (handleMediaMessage env message false m)))
        (session (snd (handleMediaMessage env message false m)))).
Proof.
  destruct (handleMediaMessage_store env message false m)
    as (sf & d & -> & Hkeep & _).
  cbn [snd session disk]. rewrite add_documents_nil.
  split; [exact Hkeep | apply documents_on_disk_keeps, Hkeep].
Qed.

Lemma deliver_documents w e :
  map_Forall (fun _ s => documents_on_disk (world_disk w) s) (userSessions w) ->
  map_Forall (fun _ s => documents_on_disk (world_disk (deliver w e)) s)
    (userSessions (deliver w e)).
Proof.
  intros Hw. unfold deliver, processMessage.
  destruct (lookup_error e); [exact Hw|].
  destruct (_ || _); [exact Hw|].
  assert (H1 : map_Forall
                 (fun _ s =>
                    documents_on_disk (world_disk (snd (archive_media e w))) s)
                 (userSessions (snd (archive_media e w)))).
  { unfold archive_media. destruct (_ || _); [|exact Hw].
    apply on_sender_documents; [|exact Hw]. intros m. apply archive_documents. }
  destruct (archive_media e w) as [archived w1]. cbn [snd] in H1.
  destruct archived as [savedFiles|error]; [|exact H1].
  destruct (saveMessageData_error e); [exact H1|].
  destruct (negb _); [|exact H1]. cbn [snd].
  unfold handleBotConversation.
  apply (on_sender_documents (event_user e)
           (conversation (event_env e) (event_message e) (event_chat e))
           (saveMessageData e savedFiles w1)); [|exact H1].
  intros m. apply conversation_documents.
Qed.

Lemma deliver_sessions (P : Session -> Prop) w e :
  P new_session ->
  (forall s s', transition s s' -> P s -> P s') ->
  map_Forall (fun _ s => P s) (userSessions w) ->
  map_Forall (fun _ s => P s) (userSessions (deliver w e)).
Proof.
  intros Hnew Hstep Hw. unfold deliver, processMessage.
  destruct (lookup_error e); [exact Hw|].
  destruct (_ || _); [exact Hw|].
  assert (H1 : map_Forall (fun _ s => P s)
                 (userSessions (snd (archive_media e w)))).
  { unfold archive_media. destruct (_ || _); [|exact Hw].
    apply on_sender_sessions; [exact Hnew| |exact Hw]. intros m Hm.
    destruct (handleMediaMessage_frame (archive_env e) (event_message e) false m)
      as (sf & d & ->).
    cbn [snd session]. rewrite add_documents_nil. exact Hm. }
  destruct (archive_media e w) as [archived w1]. cbn [snd] in H1.
  destruct archived as [savedFiles|error]; [|exact H1].
  destruct (saveMessageData_error e); [exact H1|].
  destruct (negb _); [|exact H1]. cbn [snd].
  unfold handleBotConversation.
  apply on_sender_sessions; [exact Hnew| |exact H1].
  intros m. apply Hstep, conversation_transition.
Qed.

(** X17.  Nobody gets past the PIN check without a PIN: after any sequence
    of messages, from any senders, a PIN stored in a session is six ASCII
    digits, and a session in state AUTHENTICATED or DOCUMENTING_VISIT holds
    such a PIN. *)
Theorem authenticated_sessions_hold_a_valid_pin events (userId : jsstring) s :
  userSessions (run initial_world events) !! userId = Some s ->
  (forall p, pin s = Some p -> six_ascii_digits p)
  /\ (state s = Some AUTHENTICATED \/ state s = Some DOCUMENTING_VISIT ->
      exists p, pin s = Some p /\ six_ascii_digits p).
Proof.
  intros Hl.
  assert (Hall : forall events w,
             map_Forall (fun _ s => pin_recorded s) (userSessions w) ->
             map_Forall (fun _ s => pin_recorded s)
               (userSessions (run w events))).
  { clear. induction events as [|e events IH]; intros w Hw; [exact Hw|].
    apply IH, deliver_sessions; [|apply transition_pin_recorded|exact Hw].
    split; [discriminate | intros [? | ?]; discriminate]. }
  destruct (Hall events initial_world (map_Forall_empty _) _ _ Hl)
    as [Hvalid Hset].
  split.
  - intros p Hp. apply isValidPin_spec, Hvalid, Hp.
  - intros Hst. destruct (pin s) as [p|] eqn:Hp.
    + exists p. split; [reflexivity|]. apply isValidPin_spec, Hvalid. reflexivity.
    + destruct (Hset Hst). reflexivity.
Qed.

(** X18.  No collected document is lost before the hand-off: after any
    sequence of messages, from any senders, every document of every session
    is a file of the visit directory, so the form built for the session
    attaches all its documents, in order.  (The disk is changed by the bot
    only.) *)
Theorem collected_documents_are_all_attached events (userId : jsstring) s :
  let w := run initial_world events in
  userSessions w !! userId = Some s ->
  documents_on_disk (world_disk w) s
  /\ map fst (existing_files (world_disk w) (visitDocuments s))
     = visitDocuments s.
Proof.
  intros w Hl. subst w.
  assert (Hall : forall events w,
             map_Forall (fun _ s => documents_on_disk (world_disk w) s)
               (userSessions w) ->
             map_Forall
               (fun _ s => documents_on_disk (world_disk (run w events)) s)
               (userSessions (run w events))).
  { clear. induction events as [|e events IH]; intros w Hw; [exact Hw|].
    apply IH, deliver_documents, Hw. }
  pose proof (Hall events initial_world (map_Forall_empty _) _ _ Hl) as Hd.
  split; [exact Hd|].
  rewrite existing_files_names. unfold documents_on_disk in Hd.
  induction Hd as [|f l Hf Hrest IH]; [reflexivity|].
  rewrite filter_cons, decide_True by exact Hf. f_equal. exact IH.
Qed.

End Invariants.

Lemma authenticated_sessions_hold_a_valid_pin_witness :
  let events :=
    [event calm (chat_message (js "oi"));
     event calm (chat_message (js "123456"));
     event calm (chat_message (js "2"))] in
  let s :=
    {| state := Some DOCUMENTING_VISIT; pin := Some (js "123456");
       visitDocuments := []; visitTexts := [] |} in
  userSessions (run initial_world events) !! sender = Some s
  /\ six_ascii_digits (js "123456")
  /\ exists p, pin s = Some p /\ six_ascii_digits p.
Proof.
  intros events s.
  assert (Hl : userSessions (run initial_world events) !! sender = Some s)
    by (vm_compute; reflexivity).
  split; [exact Hl|].
  destruct (authenticated_sessions_hold_a_valid_pin events sender s Hl)
    as [Hvalid Hset].
  split; [apply Hvalid; reflexivity | apply Hset; right; reflexivity].
Defined.

Lemma collected_documents_are_all_attached_witness :
  let events :=
    [event calm (chat_message (js "oi"));
     event calm (chat_message (js "123456"));
     event calm (chat_message (js "2"));
     event calm (image_message [])] in
  let w := run initial_world events in
  let s :=
    {| state := Some DOCUMENTING_VISIT; pin := Some (js "123456");
       visitDocuments := [js "image_1700000000000_3EB0D4E5F6.jpeg"];
       visitTexts := [] |} in
  userSessions w !! sender = Some s
  /\ documents_on_disk (world_disk w) s
  /\ map fst (existing_files (world_disk w) (visitDocuments s))
     = visitDocuments s.
Proof.
  intros events w s. subst w.
  assert (Hl : userSessions (run initial_world events) !! sender = Some s)
    by (vm_compute; reflexivity).
  split; [exact Hl|].
  pose proof (collected_documents_are_all_attached events sender s) as Hdocs.
  cbv zeta in Hdocs. exact (Hdocs Hl).
Defined.

(** ** The chats the monitor works for *)

Lemma starts_with_spec sub : forall s,
  starts_with sub s = true <-> exists post, s = sub ++ post.
Proof.
  induction sub as [|c sub IH]; intros s.
  - split; [intros _; exists s; reflexivity | reflexivity].
  - destruct s as [|d s]; cbn [starts_with].
    + split; [discriminate | intros [post Hs]; discriminate Hs].
    + rewrite andb_true_iff, N.eqb_eq, IH. split.
      * intros [-> [post ->]]. exists post. reflexivity.
      * intros [post [= -> ->]]. split; [reflexivity | exists post; reflexivity].
Qed.

Lemma includes_spec sub : forall s,
  includes s sub = true <-> exists pre post, s = pre ++ sub ++ post.
Proof.
  induction s as [|d s IH]; cbn [includes]; rewrite orb_true_iff, starts_with_spec.
  - split.
    + intros [[post Hs] | Hf]; [|discriminate Hf]. exists [], post. exact Hs.
    + intros (pre & post & Hs). left. destruct pre as [|c pre]; [|discriminate Hs].
      exists post. exact Hs.
  - rewrite IH. split.
    + intros [[post Hs] | (pre & post & ->)].
      * exists [], post. exact Hs.
      * exists (d :: pre), post. reflexivity.
    + intros (pre & post & Hs). destruct pre as [|c pre].
      * left. exists post. exact Hs.
      * right. injection Hs as -> ->. exists pre, post. reflexivity.
Qed.

Section TargetGroups.
Context `{Process}.

Lemma outside_target_groups e w :
  negb (isGroup (event_chat e))
  || negb (includes (toLowerCase (chat_name (event_chat e))) (js "grupo")) = true ->
  processMessage e w = (false, w).
Proof.
  intros Hc. unfold processMessage. destruct (lookup_error e); [reflexivity|].
  rewrite Hc. reflexivity.
Qed.

(** X19.  The monitor works for groups named grupo only: when
    [processMessage] returns [true] or changes anything, or the handler of
    [message] changes anything, the chat of the message is a group and its
    name contains grupo, in any letter case (the name in lower case contains
    it).  Messages of other chats are not archived, not logged and not
    answered. *)
Theorem only_target_groups_are_processed from e w :
  fst (processMessage e w) = true \/ snd (processMessage e w) <> w
  \/ on_message from e w <> w ->
  isGroup (event_chat e) = true
  /\ exists pre post,
       toLowerCase (chat_name (event_chat e)) = pre ++ js "grupo" ++ post.
Proof.
  intros Hdone.
  destruct (negb (isGroup (event_chat e))
            || negb (includes (toLowerCase (chat_name (event_chat e)))
                       (js "grupo"))) eqn:Hc.
  - exfalso. pose proof (outside_target_groups e w Hc) as Hout.
    unfold on_message in Hdone. rewrite Hout in Hdone. cbn [fst snd] in Hdone.
    destruct Hdone as [Ht | [Hw | Hw]]; [discriminate Ht | apply Hw; reflexivity|].
    destruct (truthy from); apply Hw; reflexivity.
  - apply orb_false_iff in Hc as [Hg Hn].
    apply negb_false_iff in Hg, Hn. split; [exact Hg|].
    apply includes_spec, Hn.
Qed.

End TargetGroups.

Lemma only_target_groups_are_processed_witness :
  let e := event calm (chat_message (js "bom dia")) in
  fst (processMessage e initial_world) = true
  /\ isGroup (event_chat e) = true
  /\ exists pre post,
       toLowerCase (chat_name (event_chat e)) = pre ++ js "grupo" ++ post.
Proof.
  intros e.
  assert (Ht : fst (processMessage e initial_world) = true)
    by (vm_compute; reflexivity).
  split; [exact Ht|].
  apply (only_target_groups_are_processed [] e initial_world).
  left. exact Ht.
Defined.

(** ** The names of the saved files *)

Lemma upto_slash_no_slash s rest :
  no_slash s -> (rest = [] \/ exists r, rest = 47 :: r) ->
  upto_slash (s ++ rest) = s.
Proof.
  intros Hs Hr. induction Hs as [|c s Hc Hs IH]; cbn [app upto_slash].
  - destruct Hr as [-> | [r ->]]; reflexivity.
  - replace (c =? 47) with false by (symmetry; apply N.eqb_neq, Hc).
    rewrite IH. reflexivity.
Qed.

Lemma split_slash_1_no_slash s : no_slash s -> split_slash_1 s = None.
Proof.
  induction 1 as [|c s Hc Hs IH]; [reflexivity|]. cbn [split_slash_1].
  replace (c =? 47) with false by (symmetry; apply N.eqb_neq, Hc). exact IH.
Qed.

Lemma split_slash_1_subtype kind subtype rest :
  no_slash kind -> no_slash subtype ->
  (rest = [] \/ exists r, rest = 47 :: r) ->
  split_slash_1 (kind ++ 47 :: subtype ++ rest) = Some subtype.
Proof.
  intros Hk Hs Hr. induction Hk as [|c kind Hc Hk IH]; cbn [app split_slash_1].
  - cbn. rewrite upto_slash_no_slash by assumption. reflexivity.
  - replace (c =? 47) with false by (symmetry; apply N.eqb_neq, Hc). exact IH.
Qed.

(** X20.  The extension of a saved file is the whole subtype of the MIME
    type of its payload, parameters included: what stands between the first
    slash and the second slash or the end.  Nothing is cut at a semicolon, so
    a voice note of type audio/ogg; codecs=opus is saved with the extension
    ogg; codecs=opus.  The fallback, ogg for audio and bin for other media,
    is used only when the MIME type has no slash or an empty subtype. *)
Theorem extension_is_the_subtype env message kind subtype :
  no_slash kind -> no_slash subtype ->
  let mimetype := kind ++ js "/" ++ subtype in
  originalFileName env message mimetype =
    js "audio_" ++ decimal (now_saved env) ++ js "_" ++ id message ++ js "."
      ++ (if truthy subtype then subtype else js "ogg")
  /\ mediaFileName env message mimetype =
     type message ++ js "_" ++ decimal (now_saved env) ++ js "_" ++ id message
       ++ js "." ++ (if truthy subtype then subtype else js "bin")
  /\ originalFileName env message kind =
     js "audio_" ++ decimal (now_saved env) ++ js "_" ++ id message ++ js ".ogg"
  /\ mediaFileName env message kind =
     type message ++ js "_" ++ decimal (now_saved env) ++ js "_" ++ id message
       ++ js ".bin".
Proof.
  intros Hk Hs mimetype.
  assert (E : forall fallback,
             extension_or fallback mimetype
             = if truthy subtype then subtype else fallback).
  { intros fallback. unfold extension_or, mimetype.
    change (js "/" ++ subtype) with (47 :: subtype).
    rewrite <- (app_nil_r subtype) at 1.
    rewrite split_slash_1_subtype by auto.
    unfold present_string. destruct (truthy subtype); reflexivity. }
  assert (E' : forall fallback, extension_or fallback kind = fallback).
  { intros fallback. unfold extension_or.
    rewrite split_slash_1_no_slash by exact Hk. reflexivity. }
  unfold originalFileName, mediaFileName. cbv zeta. rewrite !E, !E'.
  repeat split; reflexivity.
Qed.

Lemma extension_is_the_subtype_witness :
  let kind := js "audio" in
  let subtype := js "ogg; codecs=opus" in
  no_slash kind /\ no_slash subtype
  /\ originalFileName voice_env voice_message (js "audio/ogg; codecs=opus")
     = js "audio_1700000000000_3EB0A7B8C9.ogg; codecs=opus".
Proof.
  intros kind subtype.
  assert (Hk : no_slash kind) by (vm_compute; repeat constructor; discriminate).
  assert (Hs : no_slash subtype)
    by (vm_compute; repeat constructor; discriminate).
  split; [exact Hk|]. split; [exact Hs|].
  destruct (extension_is_the_subtype voice_env voice_message kind subtype Hk Hs)
    as (Hname & _).
  refine (eq_trans _ (eq_trans Hname _)); vm_compute; reflexivity.
Defined.

(** ** The shape of the report *)

Section ReportShape.
Context `{Process}.

(** X21.  The report is the title followed by its sections in one fixed
    order: patient state, vital signs, medications in use, medications
    administered, materials, interventions, recommendations, observations,
    processing date.  Each block of the formatter only appends to the
    message, and what it appends does not depend on what the message holds
    already; so every report starts with the title and no section changes
    another. *)
Theorem report_is_title_then_sections reportData :
  formatReportForWhatsApp reportData =
  report_title
    ++ add_patient_state reportData []
    ++ add_vitals reportData []
    ++ add_list (js "💊 *MEDICAMENTOS EM USO:*\n") (medications_in_use reportData) []
    ++ add_medications_administered reportData []
    ++ add_list (js "🧰 *MATERIAIS UTILIZADOS:*\n") (materials_used reportData) []
    ++ add_list (js "🔧 *INTERVENÇÕES REALIZADAS:*\n") (interventions reportData) []
    ++ add_list (js "📝 *RECOMENDAÇÕES:*\n") (recommendations reportData) []
    ++ add_observations reportData []
    ++ add_processed reportData [].
Proof.
  unfold formatReportForWhatsApp. cbv zeta.
  rewrite add_processed_appends, add_observations_appends.
  rewrite (add_list_appends (js "📝 *RECOMENDAÇÕES:*\n")).
  rewrite (add_list_appends (js "🔧 *INTERVENÇÕES REALIZADAS:*\n")).
  rewrite (add_list_appends (js "🧰 *MATERIAIS UTILIZADOS:*\n")).
  rewrite add_medications_administered_appends.
  rewrite (add_list_appends (js "💊 *MEDICAMENTOS EM USO:*\n")).
  rewrite add_vitals_appends, add_patient_state_appends.
  rewrite <- !app_assoc. reflexivity.
Qed.

(** X22.  A section that lists items holds its heading, then one line per
    item, in the order of the list, then an empty line; the section of the
    administered medications holds its heading and one entry per medication,
    each closed by an empty line.  A section whose list is empty is left
    out with its heading. *)
Theorem list_sections_have_one_line_per_item title (items : list jsstring)
    (meds : list Medication) reportData :
  medications_administered reportData = Some meds ->
  add_list title (Some items) [] =
    (if (0 <? length items)%nat
     then title ++ concat (map bullet items) ++ js "\n" else [])
  /\ add_medications_administered reportData [] =
     (if (0 <? length meds)%nat
      then js "💉 *MEDICAMENTOS ADMINISTRADOS:*\n"
             ++ concat (map medication_entry meds)
      else []).
Proof.
  intros Hm. unfold add_list, add_medications_administered. rewrite Hm. split.
  - destruct items as [|a l]; [reflexivity|].
    cbn [present_list length Nat.ltb Nat.leb].
    rewrite forEach_concat, app_nil_l, <- app_assoc. reflexivity.
  - destruct meds as [|a l]; [reflexivity|].
    cbn [present_list length Nat.ltb Nat.leb].
    rewrite forEach_concat, app_nil_l. reflexivity.
Qed.

(** X23.  Blank values are rendered like missing ones: an empty string, the
    number zero and an empty list give the same report as a missing field.
    So a vital sign of value zero is never printed, and the blood pressure
    is printed only when both of its values are there and not zero. *)
Theorem blank_values_are_omitted reportData :
  formatReportForWhatsApp (without_blanks reportData)
  = formatReportForWhatsApp reportData.
Proof.
  unfold formatReportForWhatsApp. cbv zeta.
  assert (Hp : forall message,
             add_patient_state (without_blanks reportData) message
             = add_patient_state reportData message).
  { intros message. unfold add_patient_state, without_blanks.
    cbn [patient_state]. rewrite present_string_idem. reflexivity. }
  assert (Hv : forall message,
             add_vitals (without_blanks reportData) message
             = add_vitals reportData message).
  { intros message. unfold add_vitals, without_blanks. cbn [vitals].
    destruct (vitals reportData) as [v|]; [|reflexivity].
    cbn [option_map]. cbv zeta.
    unfold add_blood_pressure, add_heart_rate, add_temperature, add_saturation,
      vitals_without_blanks.
    cbn [bp_systolic bp_diastolic hr temp_c spo2].
    rewrite !present_number_idem. reflexivity. }
  assert (Hl : forall title x message,
             add_list title (present_list x) message = add_list title x message).
  { intros title x message. unfold add_list. rewrite present_list_idem.
    reflexivity. }
  assert (Ha : forall message,
             add_medications_administered (without_blanks reportData) message
             = add_medications_administered reportData message).
  { intros message. unfold add_medications_administered, without_blanks.
    cbn [medications_administered].
    destruct (medications_administered reportData) as [[|a l]|];
      try reflexivity.
    cbn [present_list option_map map]. rewrite !forEach_concat. cbn [map].
    rewrite map_map, medication_entry_without_blanks.
    rewrite (map_ext _ medication_entry medication_entry_without_blanks).
    reflexivity. }
  assert (Ho : forall message,
             add_observations (without_blanks reportData) message
             = add_observations reportData message).
  { intros message. unfold add_observations, without_blanks.
    cbn [observations]. rewrite present_string_idem. reflexivity. }
  assert (Hd : forall message,
             add_processed (without_blanks reportData) message
             = add_processed reportData message).
  { intros message. unfold add_processed, without_blanks.
    cbn [data_processamento]. rewrite present_string_idem. reflexivity. }
  rewrite Hd, Ho, Ha, Hv, (Hp report_title).
  unfold without_blanks at 1 2 3 4.
  cbn [medications_in_use materials_used interventions recommendations].
  rewrite !Hl. reflexivity.
Qed.

End ReportShape.

Lemma list_sections_have_one_line_per_item_witness :
  let items := [js "gaze"; js "luvas"] in
  medications_administered dipirona_only = Some [dipirona]
  /\ add_list (js "🧰 *MATERIAIS UTILIZADOS:*\n") (Some items) []
     = js "🧰 *MATERIAIS UTILIZADOS:*\n• gaze\n• luvas\n\n"
  /\ add_medications_administered dipirona_only []
     = js "💉 *MEDICAMENTOS ADMINISTRADOS:*\n• *Dipirona*\n\n".
Proof.
  intros items.
  exact (conj eq_refl
           (list_sections_have_one_line_per_item
              (js "🧰 *MATERIAIS UTILIZADOS:*\n") items [dipirona]
              dipirona_only eq_refl)).
Defined.

(** ** A whole visit *)

Lemma handleMediaMessage_fst env message flag m m' :
  fst (handleMediaMessage env message flag m)
  = fst (handleMediaMessage env message flag m').
Proof.
  destruct m as [[st p docs txts] dsk out reqs].
  destruct m' as [[st' p' docs' txts'] dsk' out' reqs']. run_media.
  destruct (is_audio message), (hasMedia message),
    (downloadMedia env) as [e| |mt dt], flag, (writeFileSync_error env),
    (ffmpeg_version_ok env), (ffmpeg_converts env);
    cbn [session disk outbox requests state pin visitDocuments visitTexts];
    try destruct (truthy mt); reflexivity.
Qed.

Lemma handleMediaMessage_saved env message m :
  exists d,
    handleMediaMessage env message true m =
    (Normal (savedFiles_of env message),
     {| session := add_documents (savedFiles_of env message) (session m);
        disk := d; outbox := outbox m; requests := requests m |}).
Proof.
  destruct (handleMediaMessage_frame env message true m) as (sf & d & E).
  assert (Hsf : savedFiles_of env message = sf).
  { unfold savedFiles_of.
    rewrite (handleMediaMessage_fst env message true initial_machine m), E.
    reflexivity. }
  rewrite Hsf. exists d. exact E.
Qed.

Lemma existing_files_all (d : gmap jsstring FileContent) fileNames :
  Forall (fun fileName => is_Some (d !! path_join visitDocumentsDir fileName))
    fileNames ->
  map fst (existing_files d fileNames) = fileNames.
Proof.
  intros Hd. rewrite existing_files_names.
  induction Hd as [|f l Hf Hrest IH]; [reflexivity|].
  rewrite filter_cons, decide_True by exact Hf. f_equal. exact IH.
Qed.

Section Visit.
Context `{Process}.

Lemma visit_item_step e m :
  state (session m) = Some DOCUMENTING_VISIT ->
  visit_item e ->
  session (step m e) =
    {| state := Some DOCUMENTING_VISIT; pin := pin (session m);
       visitDocuments := visitDocuments (session m) ++ documents_of e;
       visitTexts := visitTexts (session m) ++ note_of e |}
  /\ requests (step m e) = requests m.
Proof.
  intros Hs Hitem. unfold step, visit_item, note_of, documents_of in *.
  cbv zeta in *. rewrite <- userMessage_of_trim in *.
  generalize dependent (event_env e). generalize (event_chat e).
  generalize dependent (event_message e). clear e.
  intros message chat env Hitem.
  assert (Hsame : session m =
                  {| state := Some DOCUMENTING_VISIT; pin := pin (session m);
                     visitDocuments := visitDocuments (session m) ++ [];
                     visitTexts := visitTexts (session m) ++ [] |}).
  { rewrite !app_nil_r, <- Hs. destruct (session m). reflexivity. }
  destruct (truthy (userMessage_of message)) eqn:Hu.
  - destruct Hitem as [Hempty | (Ht & Hk & Hw)].
    { rewrite Hempty in Hu. discriminate Hu. }
    rewrite <- finalizes_spec in Hk. apply not_true_is_false in Hk.
    rewrite conversation_text, Hs, Hk, collect_text_eq by exact Hu.
    rewrite Ht, Hu, Hw. cbn [orb andb snd session requests add_text].
    replace (str_eq (js "chat") (js "chat")) with true by reflexivity.
    cbn [andb snd session requests]. unfold add_text. rewrite Hs, app_nil_r.
    split; reflexivity.
  - rewrite conversation_empty by exact Hu. cbn [orb].
    destruct (str_eq (type message) (js "chat")); [split; [exact Hsame | reflexivity]|].
    rewrite Hs.
    destruct (handleMediaMessage_saved env message m) as (d & E).
    unfold bind. rewrite E.
    destruct (0 <? length _)%nat; [rewrite try_send_eq|];
      cbn [ret snd session requests]; unfold add_documents;
      rewrite Hs, app_nil_r; split; reflexivity.
Qed.

Lemma visit_items_steps items : forall m,
  state (session m) = Some DOCUMENTING_VISIT ->
  documents_on_disk (disk m) (session m) ->
  Forall visit_item items ->
  session (steps m items) =
    {| state := Some DOCUMENTING_VISIT; pin := pin (session m);
       visitDocuments := visitDocuments (session m) ++ files_of items;
       visitTexts := visitTexts (session m) ++ notes_of items |}
  /\ requests (steps m items) = requests m
  /\ documents_on_disk (disk (steps m items)) (session (steps m items)).
Proof.
  induction items as [|e items IH]; intros m Hs Hd Hitems.
  - cbn. rewrite !app_nil_r, <- Hs. destruct (session m). auto.
  - inversion Hitems as [|e' items' He Hrest]; subst.
    destruct (visit_item_step e m Hs He) as [Hsession Hrequests].
    assert (Hd' : documents_on_disk (disk (step m e)) (session (step m e)))
      by exact (proj2 (conversation_documents (event_env e) (event_message e)
                         (event_chat e) m) Hd).
    assert (Hs' : state (session (step m e)) = Some DOCUMENTING_VISIT)
      by (rewrite Hsession; reflexivity).
    destruct (IH (step m e) Hs' Hd' Hrest) as (Hsession' & Hrequests' & Hdisk).
    change (steps m (e :: items)) with (steps (step m e) items).
    split; [|split; [congruence | exact Hdisk]].
    rewrite Hsession', Hsession. cbn [pin visitDocuments visitTexts].
    unfold files_of, notes_of. cbn [flat_map]. rewrite <- !app_assoc.
    reflexivity.
Qed.

(** A whole visit, conversation after conversation. *)
Lemma whole_visit_steps m hello login start items finish :
  state (session m) = None ->
  trim (body (event_message hello)) <> [] ->
  isValidPin (trim (body (event_message login))) = true ->
  trim (body (event_message start)) = js "2" ->
  Forall visit_item items ->
  finalizes (trim (body (event_message finish))) = true ->
  let m' := steps m (hello :: login :: start :: items ++ [finish]) in
  (exists form,
     requests m' = requests m ++ [form]
     /\ api_key form = GEMINI_API_KEY
     /\ texts form = notes_of items
     /\ map fst (attached form) = files_of items)
  /\ session m' =
     match formatter_throws (event_env finish) with
     | None =>
       {| state := None; pin := Some (trim (body (event_message login)));
          visitDocuments := []; visitTexts := [] |}
     | Some _ =>
       {| state := Some DOCUMENTING_VISIT;
          pin := Some (trim (body (event_message login)));
          visitDocuments := files_of items; visitTexts := notes_of items |}
     end.
Proof.
  intros Hs Hhello Hlogin Hstart Hitems Hfinish m'. subst m'.
  rewrite <- userMessage_of_trim in *.
  change (steps m (hello :: login :: start :: items ++ [finish]))
    with (steps (step (step (step m hello) login) start) (items ++ [finish])).
  set (m1 := step m hello).
  assert (H1 : session m1 =
               {| state := Some WAITING_PIN; pin := pin (session m);
                  visitDocuments := visitDocuments (session m);
                  visitTexts := visitTexts (session m) |}
               /\ requests m1 = requests m).
  { unfold m1, step. apply truthy_true in Hhello.
    rewrite conversation_text, Hs, greeting_snd by exact Hhello.
    split; reflexivity. }
  destruct H1 as [Hsession1 Hrequests1].
  set (m2 := step m1 login).
  assert (H2 : session m2 =
               {| state := Some AUTHENTICATED;
                  pin := Some (userMessage_of (event_message login));
                  visitDocuments := visitDocuments (session m);
                  visitTexts := visitTexts (session m) |}
               /\ requests m2 = requests m).
  { unfold m2, step.
    rewrite conversation_text by (apply valid_pin_truthy, Hlogin).
    rewrite Hsession1. cbn [state]. rewrite pin_verification_snd, Hlogin.
    cbn [session requests]. rewrite Hsession1. split; [reflexivity | exact Hrequests1]. }
  destruct H2 as [Hsession2 Hrequests2].
  set (m3 := step m2 start).
  assert (H3 : session m3 =
               {| state := Some DOCUMENTING_VISIT;
                  pin := Some (userMessage_of (event_message login));
                  visitDocuments := []; visitTexts := [] |}
               /\ requests m3 = requests m).
  { unfold m3, step.
    rewrite conversation_text by (rewrite Hstart; reflexivity).
    rewrite Hsession2. cbn [state]. rewrite authenticated_menu_snd, Hstart.
    replace (str_eq (js "2") (js "1")) with false by reflexivity.
    replace (str_eq (js "2") (js "2")) with true by reflexivity.
    cbn [session requests]. rewrite Hsession2.
    split; [reflexivity | exact Hrequests2]. }
  destruct H3 as [Hsession3 Hrequests3].
  unfold steps. rewrite fold_left_app. fold (steps m3 items).
  assert (Hs3 : state (session m3) = Some DOCUMENTING_VISIT)
    by (rewrite Hsession3; reflexivity).
  assert (Hd3 : documents_on_disk (disk m3) (session m3))
    by (unfold documents_on_disk; rewrite Hsession3; constructor).
  destruct (visit_items_steps items m3 Hs3 Hd3 Hitems)
    as (Hsession4 & Hrequests4 & Hdisk4).
  set (m4 := steps m3 items) in *.
  cbn [fold_left]. unfold step.
  rewrite conversation_text by (apply finalizes_truthy, Hfinish).
  rewrite Hsession4. cbn [state]. rewrite Hfinish, finalize_visit_outcome.
  cbn [snd session requests]. split.
  - exists (handoff_form m4). rewrite Hrequests4, Hrequests3.
    split; [reflexivity|]. split; [reflexivity|].
    unfold handoff_form. cbn [texts attached].
    rewrite existing_files_all by exact Hdisk4.
    rewrite Hsession4, Hsession3. split; reflexivity.
  - destruct (formatter_throws (event_env finish));
      rewrite Hsession4, Hsession3; reflexivity.
Qed.

End Visit.


(** ** Handlers that overlap *)

(** A task that is not interrupted does what the function it is cut from
    does: induction on tasks, then the laws of the combinators. *)
Lemma Task_induction {S A} (P : Task S A -> Prop) :
  (forall result, P (Settled result)) ->
  (forall resume, (forall s, P (fst (resume s))) -> P (Suspended resume)) ->
  forall t, P t.
Proof.
  intros Hsettled Hsuspended. fix IH 1. intros [result|resume].
  - apply Hsettled.
  - apply Hsuspended. intros s. apply IH.
Qed.

Lemma complete_and_then {S A B} (t : Task S A) (k : Completion A -> Co S B) :
  forall s,
    run_to_completion (and_then t k) s
    = let '(result, s1) := complete t s in run_to_completion (k result) s1.
Proof.
  induction t as [result|resume IH] using Task_induction; intros s.
  - reflexivity.
  - unfold run_to_completion in *. cbn [and_then complete].
    specialize (IH s). destruct (resume s) as [t' s']. cbn [fst] in IH. apply IH.
Qed.

Lemma run_ret {S A} (a : A) (s : S) : run_to_completion (co_ret a) s = (Normal a, s).
Proof. reflexivity. Qed.

Lemma run_throw {S A} (e : Error) (s : S) :
  run_to_completion (co_throw (A := A) e) s = (Thrown e, s).
Proof. reflexivity. Qed.

Lemma run_atomic {S A} (c : S -> Completion A * S) (s : S) :
  run_to_completion (atomic c) s = c s.
Proof. unfold run_to_completion, atomic. destruct (c s). reflexivity. Qed.

Lemma run_bind {S A B} (c : Co S A) (k : A -> Co S B) (s : S) :
  run_to_completion (co_bind c k) s
  = match run_to_completion c s with
    | (Normal a, s') => run_to_completion (k a) s'
    | (Thrown e, s') => (Thrown e, s')
    end.
Proof.
  unfold run_to_completion at 1 2. unfold co_bind. destruct (c s) as [t s0].
  change (run_to_completion
            (and_then t (fun result => match result with
                                       | Normal a => k a
                                       | Thrown e => co_throw e
                                       end)) s0
          = match complete t s0 with
            | (Normal a, s') => run_to_completion (k a) s'
            | (Thrown e, s') => (Thrown e, s')
            end).
  rewrite complete_and_then. destruct (complete t s0) as [[a|e] s1]; reflexivity.
Qed.

Lemma run_try_catch {S A} (c : Co S A) (h : Error -> Co S A) (s : S) :
  run_to_completion (co_try_catch c h) s
  = match run_to_completion c s with
    | (Normal a, s') => (Normal a, s')
    | (Thrown e, s') => run_to_completion (h e) s'
    end.
Proof.
  unfold run_to_completion at 1 2. unfold co_try_catch. destruct (c s) as [t s0].
  change (run_to_completion
            (and_then t (fun result => match result with
                                       | Normal a => co_ret a
                                       | Thrown e => h e
                                       end)) s0
          = match complete t s0 with
            | (Normal a, s') => (Normal a, s')
            | (Thrown e, s') => run_to_completion (h e) s'
            end).
  rewrite complete_and_then. destruct (complete t s0) as [[a|e] s1]; reflexivity.
Qed.

Lemma run_await {S A} (c : Co S A) (s : S) :
  run_to_completion (await c) s = run_to_completion c s.
Proof.
  unfold run_to_completion at 1 2. unfold await. destruct (c s) as [t s0].
  change (run_to_completion
            (and_then t (fun result s1 =>
                           (Suspended (fun s2 => (Settled result, s2)), s1))) s0
          = complete t s0).
  rewrite complete_and_then. destruct (complete t s0) as [result s1]. reflexivity.
Qed.

Lemma refines_atomic {S A} (c : S -> Completion A * S) : refines (atomic c) c.
Proof. intros s. apply run_atomic. Qed.

Lemma refines_await {S A} (c : Co S A) f : refines c f -> refines (await c) f.
Proof. intros Hc s. rewrite run_await. apply Hc. Qed.

Lemma refines_ret_async {A} (a : A) : refines (co_ret a) (ret a).
Proof. intros s. reflexivity. Qed.

Lemma refines_bind_async {A B} (c : Co Machine A) (k : A -> Co Machine B)
    (f : Async A) (g : A -> Async B) :
  refines c f -> (forall a, refines (k a) (g a)) ->
  refines (co_bind c k) (bind f g).
Proof.
  intros Hc Hk m. rewrite run_bind, Hc. unfold bind.
  destruct (f m) as [[a|e] m']; [apply Hk | reflexivity].
Qed.

Lemma refines_try_catch_async {A} (c : Co Machine A) (h : Error -> Co Machine A)
    (f : Async A) (g : Error -> Async A) :
  refines c f -> (forall e, refines (h e) (g e)) ->
  refines (co_try_catch c h) (try_catch f g).
Proof.
  intros Hc Hh m. rewrite run_try_catch, Hc. unfold try_catch.
  destruct (f m) as [[a|e] m']; [reflexivity | apply Hh].
Qed.

Ltac refine_task :=
  repeat first
    [ apply refines_ret_async
    | apply refines_atomic
    | apply refines_await
    | apply refines_bind_async; [|intros ?]
    | apply refines_try_catch_async; [|intros ?]
    | match goal with
      | |- refines (if ?b then _ else _) _ => destruct b
      | |- refines (match ?x with Some _ => _ | None => _ end) _ =>
        destruct x as [[? ?]|]
      end ].

Lemma handleMediaMessage_task_refines env message flag :
  refines (handleMediaMessage_task env message flag)
    (handleMediaMessage env message flag).
Proof.
  unfold handleMediaMessage_task, handleMediaMessage. cbv zeta.
  refine_task.
Qed.

Lemma sendBotMessage_task_refines env chat messageText :
  refines (sendBotMessage_task env chat messageText)
    (sendBotMessage env chat messageText).
Proof.
  unfold sendBotMessage_task. intros m.
  rewrite run_bind, run_await, run_ret, run_await. apply run_atomic.
Qed.

Lemma try_send_task_refines env chat messageText :
  refines (try_send_task env chat messageText) (try_send env chat messageText).
Proof.
  unfold try_send_task, try_send.
  apply refines_try_catch_async; [|intros ?; apply refines_ret_async].
  apply refines_await, sendBotMessage_task_refines.
Qed.

Ltac refine_conversation :=
  repeat first
    [ apply refines_ret_async
    | apply try_send_task_refines
    | apply handleMediaMessage_task_refines
    | apply refines_await, sendBotMessage_task_refines
    | apply refines_await
    | apply refines_atomic
    | apply refines_bind_async; [|intros ?]
    | apply refines_try_catch_async; [|intros ?]
    | match goal with
      | |- refines (if ?b then _ else _) _ => destruct b
      end ].

Section Uninterrupted.
Context `{Process}.

Lemma finalize_visit_task_refines env chat :
  refines (finalize_visit_task env chat) (finalize_visit env chat).
Proof.
  unfold finalize_visit_task, finalize_visit, sendDocumentsToAPI_task.
  apply refines_bind_async; [apply try_send_task_refines|intros _].
  apply refines_bind_async; [apply refines_await, refines_await, refines_atomic|].
  intros apiResult.
  apply refines_bind_async.
  - destruct (success apiResult), (data_of apiResult); refine_conversation.
  - intros _. refine_conversation.
Qed.

Lemma collect_text_task_refines env message chat userMessage :
  refines (collect_text_task env message chat userMessage)
    (collect_text env message chat userMessage).
Proof. unfold collect_text_task, collect_text. cbv zeta. refine_conversation. Qed.

Lemma authenticated_menu_task_refines env chat userMessage :
  refines (authenticated_menu_task env chat userMessage)
    (authenticated_menu env chat userMessage).
Proof. unfold authenticated_menu_task, authenticated_menu. refine_conversation. Qed.

Lemma pin_verification_task_refines env chat userMessage :
  refines (pin_verification_task env chat userMessage)
    (pin_verification env chat userMessage).
Proof. unfold pin_verification_task, pin_verification. refine_conversation. Qed.

Lemma conversation_task_refines env message chat :
  refines (conversation_task env message chat) (conversation env message chat).
Proof.
  unfold conversation_task, conversation. cbv zeta.
  repeat first
    [ apply refines_ret_async
    | apply try_send_task_refines
    | apply finalize_visit_task_refines
    | apply collect_text_task_refines
    | apply authenticated_menu_task_refines
    | apply pin_verification_task_refines
    | apply refines_await, handleMediaMessage_task_refines
    | apply refines_await, sendBotMessage_task_refines
    | apply refines_atomic
    | apply refines_bind_async; [|intros ?]
    | match goal with
      | |- refines (if ?b then _ else _) _ => destruct b
      end ].
Qed.

End Uninterrupted.

Lemma complete_as_sender {A} (userId : jsstring) (t : Task Machine A) :
  forall m sessions log,
    complete (as_sender userId t)
      {| userSessions := <[userId := session m]> sessions; world_disk := disk m;
         world_outbox := outbox m; world_requests := requests m;
         messages := log |}
    = let '(result, m') := complete t m in
      (result,
       {| userSessions := <[userId := session m']> sessions;
          world_disk := disk m'; world_outbox := outbox m';
          world_requests := requests m'; messages := log |}).
Proof.
  induction t as [result|resume IH] using Task_induction; intros m sessions log.
  - reflexivity.
  - cbn [as_sender complete userSessions world_disk world_outbox world_requests
         messages].
    unfold getUserSession. rewrite lookup_insert_eq.
    replace {| session := session m; disk := disk m; outbox := outbox m;
               requests := requests m |} with m by (destruct m; reflexivity).
    specialize (IH m). destruct (resume m) as [t' m1]. cbn [fst] in IH.
    rewrite insert_insert_eq. apply IH.
Qed.

Lemma on_sender_task_refines {A} (userId : jsstring) (c : Co Machine A)
    (f : Async A) :
  refines c f -> refines (on_sender_task userId c) (on_sender userId f).
Proof.
  intros Hc w. unfold run_to_completion, on_sender_task, on_sender.
  destruct (getUserSession userId (userSessions w)) as [s sessions] eqn:Hg.
  specialize (Hc {| session := s; disk := world_disk w; outbox := world_outbox w;
                    requests := world_requests w |}).
  unfold run_to_completion in Hc.
  destruct (c _) as [t m]. rewrite complete_as_sender, Hc.
  destruct (f _) as [result m']. reflexivity.
Qed.

Section UninterruptedRegistry.
Context `{Process}.

Lemma archive_media_task_refines e :
  refines (archive_media_task e) (archive_media e).
Proof.
  unfold archive_media_task, archive_media.
  destruct (_ || _); [|intros w; reflexivity].
  apply refines_await, on_sender_task_refines, handleMediaMessage_task_refines.
Qed.

Lemma processMessage_task_refines e :
  refines (processMessage_task e)
    (fun w => (Normal (fst (processMessage e w)), snd (processMessage e w))).
Proof.
  intros w. unfold processMessage_task, processMessage. cbv zeta.
  rewrite run_try_catch, run_bind, run_await.
  destruct (lookup_error e); [reflexivity|]. rewrite run_ret.
  destruct (_ || _); [reflexivity|].
  rewrite run_bind, archive_media_task_refines.
  destruct (archive_media e w) as [[savedFiles|error] w1]; [|reflexivity].
  rewrite run_bind, run_await, run_atomic.
  destruct (saveMessageData_error e); [reflexivity|].
  rewrite run_bind.
  destruct (negb (fromMe (event_message e))); [|reflexivity].
  rewrite run_try_catch, run_await.
  unfold handleBotConversation_task, handleBotConversation.
  rewrite (on_sender_task_refines _ _ _ (conversation_task_refines _ _ _)).
  destruct (on_sender _ _ _) as [[[]|error] w2]; reflexivity.
Qed.

Lemma on_message_task_refines from e :
  refines (on_message_task from e) (fun w => (Normal tt, on_message from e w)).
Proof.
  intros w. unfold on_message_task, on_message.
  destruct (truthy from); [|reflexivity].
  rewrite run_bind, run_await, processMessage_task_refines. reflexivity.
Qed.

End UninterruptedRegistry.

Section NotInterrupted.
Context `{Process}.

(** X26.  A handler that is not interrupted does what the function it is cut
    from does: resumed until it settles, with no other handler running in
    between, the handler of [message] and the tasks of [processMessage], of
    the conversation and of the media handler end in the completion and in
    the state that [on_message], [processMessage], [conversation] and
    [handleMediaMessage] give.  So [run] and [steps] are the monitor when
    each handler is over before the next one starts. *)
Theorem uninterrupted_handlers_run_in_turn :
  (forall from e w,
     run_to_completion (on_message_task from e) w
     = (Normal tt, on_message from e w))
  /\ (forall e w,
        run_to_completion (processMessage_task e) w
        = (Normal (fst (processMessage e w)), snd (processMessage e w)))
  /\ (forall env message chat m,
        run_to_completion (conversation_task env message chat) m
        = conversation env message chat m)
  /\ (forall env message isVisitDocument m,
        run_to_completion (handleMediaMessage_task env message isVisitDocument) m
        = handleMediaMessage env message isVisitDocument m).
Proof.
  split; [|split; [|split]].
  - intros from e. apply on_message_task_refines.
  - intros e. apply processMessage_task_refines.
  - intros env message chat. apply conversation_task_refines.
  - intros env message isVisitDocument. apply handleMediaMessage_task_refines.
Qed.

End NotInterrupted.

(** ** Messages handled in turn *)

Section InTurn.
Context `{Process}.

Lemma messages_in_turn_run events : forall w,
  messages_in_turn w events = run w events.
Proof.
  unfold messages_in_turn, run.
  induction events as [|e events IH]; intros w; [reflexivity|].
  cbn [fold_left]. rewrite processMessage_task_refines. apply IH.
Qed.

Lemma conversations_in_turn_steps events : forall m,
  conversations_in_turn m events = steps m events.
Proof.
  unfold conversations_in_turn, steps.
  induction events as [|e events IH]; intros m; [reflexivity|].
  cbn [fold_left]. rewrite conversation_task_refines. apply IH.
Qed.

(** X24.  A whole visit, when the messages of the sender are handled in turn,
    the conversation of each message being over before the conversation of
    the next one starts (the monitor does not enforce this).  From a session
    that was never greeted, a first text, then a valid PIN, then the text 2,
    then any notes and messages without text, then a finalize keyword: the
    visit ends with one form posted, which holds the API key, the notes in
    the order they were sent and every file saved for the messages without
    text, in that order.  The session is then back to the state [null] with
    the PIN kept and the accumulators empty; except when the formatter
    throws on the answer of the API: then it is still documenting and still
    holds the notes and the files.  This holds whatever could or could not
    be delivered to the chat. *)
Theorem a_whole_visit m hello login start items finish :
  state (session m) = None ->
  trim (body (event_message hello)) <> [] ->
  isValidPin (trim (body (event_message login))) = true ->
  trim (body (event_message start)) = js "2" ->
  Forall visit_item items ->
  finalizes (trim (body (event_message finish))) = true ->
  let m' :=
    conversations_in_turn m (hello :: login :: start :: items ++ [finish]) in
  (exists form,
     requests m' = requests m ++ [form]
     /\ api_key form = GEMINI_API_KEY
     /\ texts form = notes_of items
     /\ map fst (attached form) = files_of items)
  /\ session m' =
     match formatter_throws (event_env finish) with
     | None =>
       {| state := None; pin := Some (trim (body (event_message login)));
          visitDocuments := []; visitTexts := [] |}
     | Some _ =>
       {| state := Some DOCUMENTING_VISIT;
          pin := Some (trim (body (event_message login)));
          visitDocuments := files_of items; visitTexts := notes_of items |}
     end.
Proof.
  intros Hs Hhello Hlogin Hstart Hitems Hfinish m'. subst m'.
  rewrite conversations_in_turn_steps.
  exact (whole_visit_steps m hello login start items finish
           Hs Hhello Hlogin Hstart Hitems Hfinish).
Qed.

(** X27.  When the messages are handled in turn, the handler of each message
    being over before the handler of the next one starts, then after any
    sequence of messages, from any senders, the documents and the notes of
    every session of the registry are empty unless that session is
    documenting; and a conversation that takes a session out of the
    documentation mode leaves it with both accumulators empty.  The monitor
    does not make its handlers wait for one another, and this does not hold
    for handlers that overlap. *)
Theorem accumulators_only_while_documenting :
  (forall events userId s,
     userSessions (messages_in_turn initial_world events) !! userId = Some s ->
     state s <> Some DOCUMENTING_VISIT ->
     visitDocuments s = [] /\ visitTexts s = [])
  /\ (forall m e,
        let m' := conversations_in_turn m [e] in
        state (session m) = Some DOCUMENTING_VISIT ->
        state (session m') <> Some DOCUMENTING_VISIT ->
        visitDocuments (session m') = [] /\ visitTexts (session m') = []).
Proof.
  destruct accumulators_idle_in_turn as [Hrun Hstep]. split.
  - intros events userId s. rewrite messages_in_turn_run. apply Hrun.
  - intros m e m'. subst m'. rewrite conversations_in_turn_steps. apply Hstep.
Qed.

End InTurn.

Lemma a_whole_visit_witness :
  let hello := event calm (chat_message (js "bom dia")) in
  let login := event calm (chat_message (js "123456")) in
  let start := event calm (chat_message (js "2")) in
  let items :=
    [event calm (chat_message (js "curativo trocado"));
     event calm (image_message [])] in
  let finish := event calm (chat_message (js "0")) in
  let m' :=
    conversations_in_turn initial_machine
      (hello :: login :: start :: items ++ [finish]) in
  Forall visit_item items
  /\ (exists form,
        requests m' = requests initial_machine ++ [form]
        /\ api_key form = GEMINI_API_KEY
        /\ texts form = notes_of items
        /\ map fst (attached form) = files_of items)
  /\ session m' =
     {| state := None; pin := Some (trim (body (event_message login)));
        visitDocuments := []; visitTexts := [] |}.
Proof.
  intros hello login start items finish m'.
  assert (Hitems : Forall visit_item items).
  { constructor; [|constructor; [|constructor]].
    - right. split; [reflexivity|]. split; [|reflexivity].
      rewrite <- finalizes_spec. vm_compute. discriminate.
    - left. reflexivity. }
  split; [exact Hitems|].
  pose proof (a_whole_visit initial_machine hello login start items finish)
    as Hvisit.
  cbv zeta in Hvisit. apply Hvisit.
  - reflexivity.
  - vm_compute. discriminate.
  - vm_compute. reflexivity.
  - vm_compute. reflexivity.
  - exact Hitems.
  - vm_compute. reflexivity.
Defined.

(** ** A download that resolves after the reset: C5 *)

(** C5 fails when the handlers of two messages of one sender overlap.  A
    sender who is documenting a visit sends a picture without a caption and
    then the text 0.  The handler of the picture finds the session
    documenting and waits for the download; meanwhile the handler of the
    text 0 posts the form, without the picture, and resets the session; then
    the download resolves, and the handler of the picture writes the file
    and pushes its name to the documents of the session, which is in state
    [null]: the accumulator is not empty outside the documentation mode, and
    the picture was never handed off.  Handled in turn, the same messages
    leave the picture in the form and the accumulators empty. *)
Lemma picture_pushed_after_the_reset :
  let hello := event calm (chat_message (js "bom dia")) in
  let login := event calm (chat_message (js "123456")) in
  let start := event calm (chat_message (js "2")) in
  let picture := event calm (image_message []) in
  let zero := event calm (chat_message (js "0")) in
  let saved := js "image_1700000000000_3EB0D4E5F6.jpeg" in
  let turns :=
    in_turn sender 0 hello ++ in_turn sender 1 login ++ in_turn sender 2 start
    ++ Arrives sender picture :: repeat (Resumes 3) 4
    ++ in_turn sender 4 zero
    ++ repeat (Resumes 3) 32 in
  let loop := overlapped initial_world turns in
  let w := run initial_world [hello; login; start; picture; zero] in
  forallb settled (fst loop) = true
  /\ userSessions (snd loop) !! sender
     = Some {| state := None; pin := Some (js "123456");
               visitDocuments := [saved]; visitTexts := [] |}
  /\ map (fun form => map fst (attached form)) (world_requests (snd loop)) = [[]]
  /\ is_Some (world_disk (snd loop) !! path_join visitDocumentsDir saved)
  /\ userSessions w !! sender
     = Some {| state := None; pin := Some (js "123456");
               visitDocuments := []; visitTexts := [] |}
  /\ map (fun form => map fst (attached form)) (world_requests w) = [[saved]].
Proof. vm_compute. repeat split; try reflexivity. eauto. Qed.
